(** * project-minifier: the interactive file selector and the minifier

    A shallow embedding of the selector class [CustomSelect] and of
    [minifyAndSave] / [readFiles], in the three variants the sources carry:

    - [Basic]  : src/minify-code.js, two fixed columns, no scrolling;
    - [Scroll] : src/build-structure.js (second part), two columns with a
                 scroll window;
    - [Multi]  : src/build-structure.js (third part), up to five columns.

    JavaScript strings are modelled as [string]; one [ascii] stands for one
    UTF-16 code unit below 256.  JavaScript numbers that the code keeps
    integral are modelled as [Z]; the one place where a NaN can arise (the
    remainder by [itemsPerColumn] when there is no item) is modelled with the
    type [num]. *)

From Stdlib Require Import ZArith List Bool String Ascii Lia.
Import ListNotations.
Open Scope string_scope.
Open Scope Z_scope.

(* ================================================================== *)
(** * Part I: definitions *)
(* ================================================================== *)

(** ** JavaScript primitives *)

Module JS.

(** A number that is an integer or NaN. *)
Inductive num : Type :=
| Num (z : Z)
| NaN.

(** [a % b]: the remainder takes the sign of the dividend; [x % 0] is NaN. *)
Definition rem (a : num) (b : Z) : num :=
  match a with
  | Num x => if b =? 0 then NaN else Num (Z.rem x b)
  | NaN => NaN
  end.

Definition add (a : num) (b : Z) : num :=
  match a with Num x => Num (x + b) | NaN => NaN end.

(** [Math.min(a, b)]: NaN when an argument is. *)
Definition min (a : num) (b : Z) : num :=
  match a with Num x => Num (Z.min x b) | NaN => NaN end.

(** Comparisons with a NaN operand are false. *)
Definition ltb (a : num) (b : Z) : bool :=
  match a with Num x => x <? b | NaN => false end.

Definition gtb (a : num) (b : Z) : bool :=
  match a with Num x => b <? x | NaN => false end.

Definition geb (a : num) (b : Z) : bool :=
  match a with Num x => b <=? x | NaN => false end.

(** [a === b] for a number and an integer. *)
Definition eqb (a : num) (b : Z) : bool :=
  match a with Num x => x =? b | NaN => false end.

(** [Math.ceil(n / k)] for [n >= 0] and [k >= 1].  The double division is
    exact enough for every array length: the quotient is within [1/k] of an
    integer only when it is that integer. *)
Definition ceil_div (n k : Z) : Z := - ((- n) / k).

(** [arr[i]]: [undefined] (here [None]) outside the array, for a negative
    index and for NaN. *)
Definition index_Z {A : Type} (l : list A) (i : Z) : option A :=
  if i <? 0 then None else nth_error l (Z.to_nat i).

Definition index {A : Type} (l : list A) (i : num) : option A :=
  match i with Num z => index_Z l z | NaN => None end.

(** [arr.slice(from, to)] for non-negative bounds. *)
Definition slice {A : Type} (l : list A) (from to : Z) : list A :=
  firstn (Z.to_nat to - Z.to_nat from) (skipn (Z.to_nat from) l).

(** [x || d] on a number that may be [undefined]: 0 is falsy as well. *)
Definition or_default (x : option Z) (d : Z) : Z :=
  match x with
  | Some v => if v =? 0 then d else v
  | None => d
  end.

(** The outcome of a method that mutates [this] and may throw: the state is
    kept in both cases, as the mutations made before a throw persist. *)
Inductive outcome (S : Type) : Type :=
| Done (s : S)
| Threw (s : S).
Arguments Done {S} s.
Arguments Threw {S} s.

Definition state_of {S : Type} (o : outcome S) : S :=
  match o with Done s => s | Threw s => s end.

Definition completed {S : Type} (o : outcome S) : bool :=
  match o with Done _ => true | Threw _ => false end.

Definition bind {S : Type} (o : outcome S) (k : S -> outcome S) : outcome S :=
  match o with Done s => k s | Threw s => Threw s end.

(** *** Strings *)

(** [s.replace(/c/g, by)] for a single character [c] and a replacement
    without [$]. *)
Fixpoint replace_all (c : ascii) (by_ : string) (s : string) : string :=
  match s with
  | EmptyString => EmptyString
  | String a s' =>
      if Ascii.eqb a c then by_ ++ replace_all c by_ s'
      else String a (replace_all c by_ s')
  end.

(** White space as [trim] and the class [\s] see it, among the code units
    below 256: TAB, LF, VT, FF, CR, SPACE and NBSP. *)
Definition is_space (c : ascii) : bool :=
  let n := nat_of_ascii c in
  ((9 <=? n) && (n <=? 13) || (n =? 32) || (n =? 160))%nat.

Fixpoint trimStart (s : string) : string :=
  match s with
  | EmptyString => EmptyString
  | String a s' => if is_space a then trimStart s' else s
  end.

(** Drops trailing white space: a character is kept when it is not white
    space or when something is kept after it. *)
Fixpoint trimEnd (s : string) : string :=
  match s with
  | EmptyString => EmptyString
  | String a s' =>
      match trimEnd s' with
      | EmptyString => if is_space a then EmptyString else String a EmptyString
      | t => String a t
      end
  end.

Definition trim (s : string) : string := trimEnd (trimStart s).

(** [s.split(sep)] for a one-character separator: never empty, the last
    piece is what follows the last separator. *)
Fixpoint split (sep : ascii) (s : string) : list string :=
  match s with
  | EmptyString => [EmptyString]
  | String a s' =>
      if Ascii.eqb a sep then EmptyString :: split sep s'
      else match split sep s' with
           | piece :: rest => String a piece :: rest
           | [] => [String a EmptyString]
           end
  end.

Definition startsWith (s : string) (c : ascii) : bool :=
  match s with
  | String a _ => Ascii.eqb a c
  | EmptyString => false
  end.

Definition nonempty (s : string) : bool :=
  match s with EmptyString => false | _ => true end.

End JS.

(** ** Regular expressions: the fragment the glob translation produces *)

Module Regex.

Definition LF : ascii := ascii_of_nat 10.
Definition CR : ascii := ascii_of_nat 13.

Inductive atom : Type :=
| Lit (c : ascii)     (* a character matching itself *)
| AnyChar.            (* [.] *)

Inductive piece : Type :=
| One (a : atom)
| Star (a : atom).    (* [a*], greedy; the anchored test only asks whether
                         some split matches *)

Definition regex : Type := list piece.

Inductive token : Type :=
| TAtom (a : atom)
| TStar.

(** The syntax characters of a pattern. *)
Definition is_syntax_char (c : ascii) : bool :=
  existsb (Ascii.eqb c)
    (list_ascii_of_string "^$\.*+?()[]{}|").

(** Tokens of a pattern body: [\.] is a literal dot, [.] any character, [*]
    the star, any other syntax character is outside the fragment. *)
Fixpoint lex (s : string) : option (list token) :=
  match s with
  | EmptyString => Some []
  | String c s1 =>
      if Ascii.eqb c "\" then
        match s1 with
        | String d s2 =>
            if Ascii.eqb d "." then option_map (cons (TAtom (Lit d))) (lex s2)
            else None
        | EmptyString => None
        end
      else if Ascii.eqb c "." then option_map (cons (TAtom AnyChar)) (lex s1)
      else if Ascii.eqb c "*" then option_map (cons TStar) (lex s1)
      else if is_syntax_char c then None
      else option_map (cons (TAtom (Lit c))) (lex s1)
  end.

(** An atom with the star that may follow it; a star with nothing to repeat
    is a syntax error. *)
Fixpoint group (ts : list token) : option regex :=
  match ts with
  | [] => Some []
  | TAtom a :: TStar :: ts' => option_map (cons (Star a)) (group ts')
  | TAtom a :: ts' => option_map (cons (One a)) (group ts')
  | TStar :: _ => None
  end.

(** A source of the form [^body$]. *)
Definition strip_anchors (src : string) : option string :=
  match src with
  | String "^" rest =>
      (fix go (s : string) : option string :=
         match s with
         | EmptyString => None
         | String "$" EmptyString => Some EmptyString
         | String a s' => option_map (String a) (go s')
         end) rest
  | _ => None
  end.

Definition parse (src : string) : option regex :=
  match strip_anchors src with
  | Some body =>
      match lex body with
      | Some ts => group ts
      | None => None
      end
  | None => None
  end.

(** [.] matches every character but a line terminator. *)
Definition atom_matches (a : atom) (c : ascii) : bool :=
  match a with
  | Lit d => Ascii.eqb c d
  | AnyChar => negb (Ascii.eqb c LF || Ascii.eqb c CR)
  end.

(** Whether the whole string is matched by the pieces in sequence. *)
Fixpoint matches (r : regex) (s : string) : bool :=
  match r with
  | [] => match s with EmptyString => true | _ => false end
  | One a :: r' =>
      match s with
      | String c s' => atom_matches a c && matches r' s'
      | EmptyString => false
      end
  | Star a :: r' =>
      (fix star (s : string) : bool :=
         matches r' s
         || match s with
            | String c s' => atom_matches a c && star s'
            | EmptyString => false
            end) s
  end.

(** [new RegExp(src).test(input)] on the fragment; [None] for a source
    outside it (a syntax error or a construct not modelled). *)
Definition test (src input : string) : option bool :=
  option_map (fun r => matches r input) (parse src).

End Regex.

(** ** The selection shared by the three variants

    The item list, the cursor, the statistics and the ignore rules: the
    constructors, [loadGitignore], [isPathIgnored] and the handlers of the
    space and [a] keys are the same text in the three variants. *)

Module Selection.

(** What [fs.readFile(path, 'utf-8')] settles to. *)
Inductive read_result : Type :=
| ReadOk (content : string)
| ReadError (code : option string) (message : string).

(** The chalk colour picked from the first path segment. *)
Inductive color : Type :=
| blue | magenta | yellow | cyan | green | redBright | blueBright
| magentaBright | yellowBright | cyanBright | greenBright | red | white.

Definition color_of (filePath : string) : color :=
  let firstDir := hd EmptyString (JS.split "/" filePath) in
  if String.eqb firstDir "src" then blue
  else if String.eqb firstDir "server" then magenta
  else if String.eqb firstDir "supabase" then yellow
  else if String.eqb firstDir "DOCUMENTATION" then cyan
  else if String.eqb firstDir "alerts" then green
  else if String.eqb firstDir "docs" then redBright
  else if String.eqb firstDir "grafana" then blueBright
  else if String.eqb firstDir "logs" then magentaBright
  else if String.eqb firstDir "loki" then yellowBright
  else if String.eqb firstDir "promtail" then cyanBright
  else if String.eqb firstDir "prometheus" then greenBright
  else if String.eqb firstDir "public" then red
  else white.

(** One item.  [message] is the path in its colour; [enabled] is absent
    (falsy) on a fresh item. *)
Record choice : Type := {
  name : string;
  message : color * string;
  enabled : bool
}.

Definition make_choice (filePath : string) : choice :=
  {| name := filePath; message := (color_of filePath, filePath);
     enabled := false |}.

Definition set_enabled (b : bool) (c : choice) : choice :=
  {| name := name c; message := message c; enabled := b |}.

Record selection : Type := {
  choices : list choice;
  index : JS.num;                        (* this.state.index *)
  totalCharacters : Z;
  selectedFilesCount : Z;
  selectedFilesGitignore : string;
  gitignorePatterns : list string
}.

Definition count (s : selection) : Z := Z.of_nat (List.length (choices s)).

Definition set_index (i : JS.num) (s : selection) : selection :=
  {| choices := choices s; index := i;
     totalCharacters := totalCharacters s;
     selectedFilesCount := selectedFilesCount s;
     selectedFilesGitignore := selectedFilesGitignore s;
     gitignorePatterns := gitignorePatterns s |}.

Definition set_choices (cs : list choice) (s : selection) : selection :=
  {| choices := cs; index := index s;
     totalCharacters := totalCharacters s;
     selectedFilesCount := selectedFilesCount s;
     selectedFilesGitignore := selectedFilesGitignore s;
     gitignorePatterns := gitignorePatterns s |}.

Definition set_stats (total cnt : Z) (warn : string) (s : selection)
  : selection :=
  {| choices := choices s; index := index s;
     totalCharacters := total;
     selectedFilesCount := cnt;
     selectedFilesGitignore := warn;
     gitignorePatterns := gitignorePatterns s |}.

Definition set_patterns (ps : list string) (s : selection) : selection :=
  {| choices := choices s; index := index s;
     totalCharacters := totalCharacters s;
     selectedFilesCount := selectedFilesCount s;
     selectedFilesGitignore := selectedFilesGitignore s;
     gitignorePatterns := ps |}.

(** The fields the constructors set; the cursor starts on the first item. *)
Definition construct (filePaths : list string) : selection :=
  {| choices := map make_choice filePaths; index := JS.Num 0;
     totalCharacters := 0; selectedFilesCount := 0;
     selectedFilesGitignore := EmptyString; gitignorePatterns := [] |}.

(** [arr[i] = x] at an index inside the array. *)
Fixpoint set_nth {A : Type} (l : list A) (i : nat) (x : A) : list A :=
  match l, i with
  | [], _ => []
  | _ :: l', O => x :: l'
  | a :: l', S i' => a :: set_nth l' i' x
  end.

(** *** loadGitignore *)

Definition GITIGNORE_PATH : string := ".gitignore".

Definition keep_line (line : string) : bool :=
  JS.nonempty line && negb (JS.startsWith line "#").

(** The rules read and the lines written to [console.error]. *)
Definition loadGitignore_result (r : read_result)
  : list string * list string :=
  match r with
  | ReadOk ignoreContent =>
      (filter keep_line (map JS.trim (JS.split Regex.LF ignoreContent)), [])
  | ReadError code message =>
      ([],
       match code with
       | Some c =>
           if String.eqb c "ENOENT" then []
           else ["Warning: Could not read .gitignore: " ++ message]
       | None => ["Warning: Could not read .gitignore: " ++ message]
       end)
  end.

(** The pattern of [isPathIgnored]: dots escaped first, then every star
    turned into [.*], anchored at both ends. *)
Definition regexSource (pattern : string) : string :=
  "^" ++ JS.replace_all "*" ".*" (JS.replace_all "." "\." pattern) ++ "$".

Section World.

(** [new RegExp(src).test(input)]; [None] when the constructor throws. *)
Variable RegExp_test : string -> string -> option bool.
(** The file system as [fs.readFile] sees it. *)
Variable readFile : string -> read_result.

Definition loadGitignore (s : selection) : selection * list string :=
  let r := loadGitignore_result (readFile GITIGNORE_PATH) in
  (set_patterns (fst r) s, snd r).

(** [patterns.some(...)]: the rules in order, up to the first that matches;
    [None] when building a pattern throws before that. *)
Fixpoint isPathIgnored (patterns : list string) (filePath : string)
  : option bool :=
  match patterns with
  | [] => Some false
  | pattern :: rest =>
      match RegExp_test (regexSource pattern) filePath with
      | None => None
      | Some true => Some true
      | Some false => isPathIgnored rest filePath
      end
  end.

(** The loop over the items that follows every change of a flag: the running
    total and the warning, and whether [isPathIgnored] threw on the way. *)
Fixpoint tally (patterns : list string) (cs : list choice)
    (total : Z) (warn : string) : Z * string * bool :=
  match cs with
  | [] => (total, warn, true)
  | c :: cs' =>
      if enabled c then
        match isPathIgnored patterns (name c) with
        | None => (total, warn, false)
        | Some ignored =>
            let warn' := if ignored then name c else warn in
            let total' :=
              match readFile (name c) with
              | ReadOk content => total + Z.of_nat (String.length content)
              | ReadError _ _ => total      (* logged, not counted *)
              end in
            tally patterns cs' total' warn'
        end
      else tally patterns cs' total warn
  end.

(** The statistics recomputed from the items. *)
Definition recompute (s : selection) : JS.outcome selection :=
  let cnt := Z.of_nat (List.length (filter enabled (choices s))) in
  match tally (gitignorePatterns s) (choices s) 0 EmptyString with
  | (total, warn, true) => JS.Done (set_stats total cnt warn s)
  | (total, warn, false) => JS.Threw (set_stats total cnt warn s)
  end.

(** [choice.enabled = !choice.enabled] on the item under the cursor, when
    there is one. *)
Definition toggle_at_cursor (s : selection) : option selection :=
  match index s with
  | JS.Num i =>
      match JS.index_Z (choices s) i with
      | Some choice =>
          Some (set_choices
                  (set_nth (choices s) (Z.to_nat i)
                     (set_enabled (negb (enabled choice)) choice)) s)
      | None => None
      end
  | JS.NaN => None
  end.

(** The space key up to the redraw; [None] when no item is under the
    cursor. *)
Definition space (s : selection) : option (JS.outcome selection) :=
  option_map recompute (toggle_at_cursor s).

(** The [a] key up to the redraw. *)
Definition toggleAll (s : selection) : JS.outcome selection :=
  let allSelected := forallb enabled (choices s) in
  recompute (set_choices (map (set_enabled (negb allSelected)) (choices s)) s).

(** Whether drawing one cell throws: the indicator of an enabled item asks
    [isPathIgnored]; an empty cell is a disabled placeholder. *)
Definition cell_draws (patterns : list string) (c : option choice) : bool :=
  match c with
  | Some ch =>
      if enabled ch then
        match isPathIgnored patterns (name ch) with
        | Some _ => true
        | None => false
        end
      else true
  | None => true
  end.

End World.

End Selection.

(** ** The terminal *)

Module Terminal.

(** [process.stdout.rows] and [process.stdout.columns]; [None] when the
    stream is not a terminal. *)
Record tty : Type := {
  rows : option Z;
  columns : option Z
}.

Inductive key : Type := Up | Down | Left | Right | Space | KeyA.

Inductive event : Type :=
| Key (k : key)
| Resize (size : tty).

End Terminal.

(** ** The multi-column selector (src/build-structure.js, third part) *)

Module Multi.
Import Selection Terminal.

(** [this.maxColumns], set once by the constructor. *)
Definition maxColumns : Z := 5.

Record state : Type := {
  sel : selection;
  currentColumn : Z;
  visibleStart : Z;
  terminalHeight : Z;
  terminalWidth : Z;
  visibleRows : Z;
  activeColumns : Z;
  stdout : tty                    (* process.stdout, as last reported *)
}.

Definition set_sel (x : selection) (st : state) : state :=
  {| sel := x; currentColumn := currentColumn st;
     visibleStart := visibleStart st; terminalHeight := terminalHeight st;
     terminalWidth := terminalWidth st; visibleRows := visibleRows st;
     activeColumns := activeColumns st; stdout := stdout st |}.

Definition set_currentColumn (x : Z) (st : state) : state :=
  {| sel := sel st; currentColumn := x;
     visibleStart := visibleStart st; terminalHeight := terminalHeight st;
     terminalWidth := terminalWidth st; visibleRows := visibleRows st;
     activeColumns := activeColumns st; stdout := stdout st |}.

Definition set_visibleStart (x : Z) (st : state) : state :=
  {| sel := sel st; currentColumn := currentColumn st;
     visibleStart := x; terminalHeight := terminalHeight st;
     terminalWidth := terminalWidth st; visibleRows := visibleRows st;
     activeColumns := activeColumns st; stdout := stdout st |}.

Definition set_stdout (x : tty) (st : state) : state :=
  {| sel := sel st; currentColumn := currentColumn st;
     visibleStart := visibleStart st; terminalHeight := terminalHeight st;
     terminalWidth := terminalWidth st; visibleRows := visibleRows st;
     activeColumns := activeColumns st; stdout := x |}.

Definition set_cursor (i : JS.num) (st : state) : state :=
  set_sel (set_index i (sel st)) st.

Definition updateTerminalDimensions (st : state) : state :=
  let h := JS.or_default (rows (stdout st)) 24 in
  let w := JS.or_default (columns (stdout st)) 80 in
  {| sel := sel st; currentColumn := currentColumn st;
     visibleStart := visibleStart st;
     terminalHeight := h;
     terminalWidth := w;
     visibleRows := Z.max 1 (h - 4);
     activeColumns := Z.min maxColumns (Z.max 1 (w / 100));
     stdout := stdout st |}.

Definition construct (filePaths : list string) (out : tty) : state :=
  updateTerminalDimensions
    {| sel := Selection.construct filePaths; currentColumn := 0;
       visibleStart := 0; terminalHeight := 0; terminalWidth := 0;
       visibleRows := 0; activeColumns := 0; stdout := out |}.

Definition itemsPerColumn (st : state) : Z :=
  JS.ceil_div (count (sel st)) (activeColumns st).

(** [Array(activeColumns).fill().map((_, i) => choices.slice(i * per,
    (i + 1) * per))]. *)
Definition columns_of (cs : list choice) (active per : Z)
  : list (list choice) :=
  map (fun i => JS.slice cs (Z.of_nat i * per) ((Z.of_nat i + 1) * per))
      (seq 0 (Z.to_nat active)).

(** [Math.max(...l)] for a non-empty [l]. *)
Definition max_of (l : list Z) : Z :=
  match l with
  | [] => 0
  | x :: l' => fold_left Z.max l' x
  end.

(** The layout [render] derives: items per column, the columns, and the
    number of rows drawn. *)
Definition layout_columns (st : state) : list (list choice) :=
  columns_of (choices (sel st)) (activeColumns st) (itemsPerColumn st).

Definition listHeight (st : state) : Z :=
  Z.min (max_of (map (fun col => Z.of_nat (List.length col))
                     (layout_columns st)))
        (visibleRows st).

(** [this.state.index % itemsPerColumn]. *)
Definition localIndex (st : state) : JS.num :=
  JS.rem (index (sel st)) (itemsPerColumn st).

Section World.

Variable RegExp_test : string -> string -> option bool.
Variable readFile : string -> read_result.

(** Whether the row loop draws every cell without throwing. *)
Definition rows_draw (st : state) : bool :=
  forallb
    (fun i =>
       forallb
         (fun col =>
            cell_draws RegExp_test (gitignorePatterns (sel st))
              (JS.index_Z col (visibleStart st + Z.of_nat i)))
         (layout_columns st))
    (seq 0 (Z.to_nat (listHeight st))).

(** [render]: what it does to the object and whether it throws.  The frame
    text itself is written to the terminal and is not part of the state. *)
Definition render (st0 : state) : JS.outcome state :=
  let st := updateTerminalDimensions st0 in
  let innerWidth := terminalWidth st - 2 in
  (* top.repeat(innerWidth): a RangeError for a negative count *)
  if innerWidth <? 0 then JS.Threw st
  else
    match JS.index_Z (layout_columns st) (currentColumn st) with
    | None => JS.Threw st     (* currentColumnChoices.length of undefined *)
    | Some currentColumnChoices =>
        let maxRows := Z.of_nat (List.length currentColumnChoices) in
        let height := listHeight st in
        let st1 :=
          if JS.geb (index (sel st)) (count (sel st))
          then set_cursor (JS.Num (count (sel st) - 1)) st
          else st in
        let start :=
          match localIndex st1 with
          | JS.Num li =>
              if li <? visibleStart st1 then li
              else if visibleStart st1 + height <=? li then li - height + 1
              else visibleStart st1
          | JS.NaN => visibleStart st1
          end in
        let st2 :=
          set_visibleStart (Z.max 0 (Z.min start (maxRows - height))) st1 in
        if rows_draw st2 then JS.Done st2 else JS.Threw st2
    end.

(** [keypress] for the keys this class handles itself; every other key goes
    to the parent class. *)
Definition keypress (k : key) (st : state) : JS.outcome state :=
  let per := itemsPerColumn st in
  let currentColumnStart := currentColumn st * per in
  let currentRow := JS.rem (index (sel st)) per in
  let idx := index (sel st) in
  match k with
  | Down =>
      render
        (if JS.ltb idx (currentColumnStart + per - 1)
            && JS.ltb idx (count (sel st) - 1)
         then set_cursor (JS.add idx 1) st else st)
  | Up =>
      render
        (if JS.gtb idx currentColumnStart
         then set_cursor (JS.add idx (-1)) st else st)
  | Right =>
      if currentColumn st <? activeColumns st - 1 then
        let col := currentColumn st + 1 in
        let newColumnStart := col * per in
        render
          (set_cursor
             (JS.min (JS.add currentRow newColumnStart) (count (sel st) - 1))
             (set_currentColumn col st))
      else JS.Done st
  | Left =>
      if 0 <? currentColumn st then
        let col := currentColumn st - 1 in
        let newColumnStart := col * per in
        render
          (set_cursor
             (JS.min (JS.add currentRow newColumnStart) (count (sel st) - 1))
             (set_currentColumn col st))
      else JS.Done st
  | Space =>
      match space RegExp_test readFile (sel st) with
      | Some (JS.Done s) => render (set_sel s st)
      | Some (JS.Threw s) => JS.Threw (set_sel s st)
      | None => JS.Done st
      end
  | KeyA =>
      match toggleAll RegExp_test readFile (sel st) with
      | JS.Done s => render (set_sel s st)
      | JS.Threw s => JS.Threw (set_sel s st)
      end
  end.

(** The resize listener: [updateTerminalDimensions(); render()], with the
    terminal already reporting its new size. *)
Definition resize (size : tty) (st : state) : JS.outcome state :=
  render (updateTerminalDimensions (set_stdout size st)).

Definition handle (e : event) (st : state) : JS.outcome state :=
  match e with
  | Key k => keypress k st
  | Resize size => resize size st
  end.

(** One event fully processed; the object is what the handler left, also
    when it threw. *)
Definition step (st : state) (e : event) : state :=
  JS.state_of (handle e st).

Definition run (es : list event) (st : state) : state :=
  fold_left step es st.

(** The states after each event. *)
Fixpoint trace (es : list event) (st : state) : list state :=
  match es with
  | [] => []
  | e :: es' => step st e :: trace es' (step st e)
  end.

(** The selector once the ignore file has been read. *)
Definition start (filePaths : list string) (out : tty) : state :=
  let st := construct filePaths out in
  set_sel (fst (loadGitignore readFile (sel st))) st.

End World.

End Multi.

(** ** The two-column selector with a scroll window
       (src/build-structure.js, second part) *)

Module Scroll.
Import Selection Terminal.

Inductive side : Type := LeftCol | RightCol.

Definition side_eqb (a b : side) : bool :=
  match a, b with
  | LeftCol, LeftCol | RightCol, RightCol => true
  | _, _ => false
  end.

Record state : Type := {
  sel : selection;
  column : side;
  visibleStart : Z;
  terminalHeight : Z;
  terminalWidth : Z;
  visibleRows : Z;
  stdout : tty
}.

Definition set_sel (x : selection) (st : state) : state :=
  {| sel := x; column := column st; visibleStart := visibleStart st;
     terminalHeight := terminalHeight st; terminalWidth := terminalWidth st;
     visibleRows := visibleRows st; stdout := stdout st |}.

Definition set_column (x : side) (st : state) : state :=
  {| sel := sel st; column := x; visibleStart := visibleStart st;
     terminalHeight := terminalHeight st; terminalWidth := terminalWidth st;
     visibleRows := visibleRows st; stdout := stdout st |}.

Definition set_visibleStart (x : Z) (st : state) : state :=
  {| sel := sel st; column := column st; visibleStart := x;
     terminalHeight := terminalHeight st; terminalWidth := terminalWidth st;
     visibleRows := visibleRows st; stdout := stdout st |}.

Definition set_stdout (x : tty) (st : state) : state :=
  {| sel := sel st; column := column st; visibleStart := visibleStart st;
     terminalHeight := terminalHeight st; terminalWidth := terminalWidth st;
     visibleRows := visibleRows st; stdout := x |}.

Definition set_cursor (i : JS.num) (st : state) : state :=
  set_sel (set_index i (sel st)) st.

Definition updateTerminalDimensions (st : state) : state :=
  let h := JS.or_default (rows (stdout st)) 24 in
  let w := JS.or_default (columns (stdout st)) 80 in
  {| sel := sel st; column := column st; visibleStart := visibleStart st;
     terminalHeight := h; terminalWidth := w;
     visibleRows := Z.max 1 (h - 4); stdout := stdout st |}.

Definition construct (filePaths : list string) (out : tty) : state :=
  updateTerminalDimensions
    {| sel := Selection.construct filePaths; column := LeftCol;
       visibleStart := 0; terminalHeight := 0; terminalWidth := 0;
       visibleRows := 0; stdout := out |}.

Definition midPoint (st : state) : Z := JS.ceil_div (count (sel st)) 2.

Definition leftColumn (st : state) : list choice :=
  JS.slice (choices (sel st)) 0 (midPoint st).

(** [choices.slice(midPoint)]. *)
Definition rightColumn (st : state) : list choice :=
  skipn (Z.to_nat (midPoint st)) (choices (sel st)).

(** [Math.max(1, terminalHeight - headerHeight - 2)] with two header rows. *)
Definition listHeight (st : state) : Z := Z.max 1 (terminalHeight st - 2 - 2).

Section World.

Variable RegExp_test : string -> string -> option bool.
Variable readFile : string -> read_result.

Definition rows_draw (st : state) : bool :=
  forallb
    (fun i =>
       let rowIndex := visibleStart st + Z.of_nat i in
       cell_draws RegExp_test (gitignorePatterns (sel st))
         (JS.index_Z (leftColumn st) rowIndex)
       && cell_draws RegExp_test (gitignorePatterns (sel st))
            (JS.index_Z (rightColumn st) rowIndex))
    (seq 0 (Z.to_nat (listHeight st))).

(** The scroll window moved so that [row] is inside it. *)
Definition follow (row : JS.num) (height : Z) (st : state) : state :=
  match row with
  | JS.Num r =>
      if r <? visibleStart st then set_visibleStart r st
      else if visibleStart st + height <=? r
           then set_visibleStart (r - height + 1) st
           else st
  | JS.NaN => st
  end.

Definition render (st0 : state) : JS.outcome state :=
  let st := updateTerminalDimensions st0 in
  let innerWidth := terminalWidth st - 2 in
  let height := listHeight st in
  if innerWidth <? 0 then JS.Threw st
  else
    let maxLeftRows := Z.of_nat (List.length (leftColumn st)) in
    let maxRightRows := Z.of_nat (List.length (rightColumn st)) in
    let st1 :=
      match column st with
      | LeftCol =>
          let st' :=
            if JS.geb (index (sel st)) maxLeftRows
            then set_cursor (JS.Num (maxLeftRows - 1)) st else st in
          follow (index (sel st')) height st'
      | RightCol =>
          (* the row is taken before the cursor is clamped *)
          let rightIndex := JS.add (index (sel st)) (- midPoint st) in
          let st' :=
            if JS.geb rightIndex maxRightRows
            then set_cursor (JS.Num (midPoint st + maxRightRows - 1)) st
            else st in
          follow rightIndex height st'
      end in
    let st2 :=
      set_visibleStart
        (Z.max 0 (Z.min (visibleStart st1)
                        (Z.max maxLeftRows maxRightRows - height))) st1 in
    if rows_draw st2 then JS.Done st2 else JS.Threw st2.

Definition keypress (k : key) (st : state) : JS.outcome state :=
  let mid := midPoint st in
  let maxLeftRows := mid in
  let idx := index (sel st) in
  match k with
  | Down =>
      render
        (match column st with
         | LeftCol =>
             if JS.ltb idx (maxLeftRows - 1)
             then set_cursor (JS.add idx 1) st else st
         | RightCol =>
             if JS.ltb idx (count (sel st) - 1)
             then set_cursor (JS.add idx 1) st else st
         end)
  | Up =>
      render
        (if JS.gtb idx (match column st with LeftCol => 0 | RightCol => mid end)
         then set_cursor (JS.add idx (-1)) st else st)
  | Left =>
      if side_eqb (column st) LeftCol then JS.Done st
      else
        render (set_cursor (JS.min idx (maxLeftRows - 1))
                  (set_column LeftCol st))
  | Right =>
      if side_eqb (column st) RightCol then JS.Done st
      else
        let idx1 := if JS.ltb idx mid then JS.Num mid else idx in
        render (set_cursor (JS.min idx1 (count (sel st) - 1))
                  (set_column RightCol st))
  | Space =>
      match space RegExp_test readFile (sel st) with
      | Some (JS.Done s) => render (set_sel s st)
      | Some (JS.Threw s) => JS.Threw (set_sel s st)
      | None => JS.Done st
      end
  | KeyA =>
      match toggleAll RegExp_test readFile (sel st) with
      | JS.Done s => render (set_sel s st)
      | JS.Threw s => JS.Threw (set_sel s st)
      end
  end.

Definition resize (size : tty) (st : state) : JS.outcome state :=
  render (updateTerminalDimensions (set_stdout size st)).

Definition handle (e : event) (st : state) : JS.outcome state :=
  match e with
  | Key k => keypress k st
  | Resize size => resize size st
  end.

Definition step (st : state) (e : event) : state :=
  JS.state_of (handle e st).

Fixpoint trace (es : list event) (st : state) : list state :=
  match es with
  | [] => []
  | e :: es' => step st e :: trace es' (step st e)
  end.

End World.

End Scroll.

(** ** The basic two-column selector (src/minify-code.js) *)

Module Basic.
Import Selection Terminal.

Inductive side : Type := LeftCol | RightCol.

Record state : Type := {
  sel : selection;
  column : side
}.

Definition construct (filePaths : list string) : state :=
  {| sel := Selection.construct filePaths; column := LeftCol |}.

Definition midPoint (st : state) : Z := JS.ceil_div (count (sel st)) 2.

Section World.

Variable RegExp_test : string -> string -> option bool.
Variable readFile : string -> read_result.

(** The object as [keypress] leaves it.  [render] here assigns to no field,
    so the result is the same whether the redraw completes or throws.
    [None]: the key is handed to the parent class ([super.keypress]); that
    is the case of the up and down keys, of [a], and of the space key when
    no item is under the cursor. *)
Definition keypress (k : key) (st : state) : option state :=
  match k with
  | Right | Left =>
      let mid := midPoint st in
      let idx := index (sel st) in
      let isLeftColumn := JS.ltb idx mid in
      let rowIndex := if isLeftColumn then idx else JS.add idx (- mid) in
      let col := match column st with LeftCol => RightCol
                                    | RightCol => LeftCol end in
      Some
        match col with
        | RightCol =>
            if JS.ltb rowIndex (count (sel st) - mid)
            then {| sel := set_index (JS.add rowIndex mid) (sel st);
                    column := col |}
            else {| sel := sel st; column := col |}
        | LeftCol => {| sel := set_index rowIndex (sel st); column := col |}
        end
  | Space =>
      match space RegExp_test readFile (sel st) with
      | Some o => Some {| sel := JS.state_of o; column := column st |}
      | None => None
      end
  | Up | Down | KeyA => None
  end.

End World.

End Basic.

(** ** minifyAndSave and readFiles (src/minify-code.js) *)

Module Minify.
Import Selection.

(** *** Objects with string values

    The properties in enumeration order: the keys that are array indices
    first, in ascending order, then the other keys in the order of their
    creation.  Assigning to an existing key keeps its place. *)

Definition object : Type := list (string * string).

Definition is_digit (c : ascii) : bool :=
  let n := nat_of_ascii c in ((48 <=? n) && (n <=? 57))%nat.

Fixpoint decimal (s : string) (acc : N) : option N :=
  match s with
  | EmptyString => Some acc
  | String c s' =>
      if is_digit c
      then decimal s' (acc * 10 + N.of_nat (nat_of_ascii c - 48))%N
      else None
  end.

(** The canonical decimal strings below [2^32 - 1]. *)
Definition array_index (k : string) : option N :=
  match k with
  | EmptyString => None
  | String c rest =>
      if Ascii.eqb c "0" && JS.nonempty rest then None
      else match decimal k 0%N with
           | Some n => if (n <? 4294967295)%N then Some n else None
           | None => None
           end
  end.

(** Whether a new key [k] is enumerated before an existing key [k']. *)
Definition precedes (k k' : string) : bool :=
  match array_index k, array_index k' with
  | Some i, Some j => (i <? j)%N
  | Some _, None => true
  | None, _ => false
  end.

(** [o[k] = v]. *)
Fixpoint obj_set (k v : string) (o : object) : object :=
  match o with
  | [] => [(k, v)]
  | (k', v') :: o' =>
      if String.eqb k k' then (k, v) :: o'
      else if precedes k k' then (k, v) :: (k', v') :: o'
      else (k', v') :: obj_set k v o'
  end.

(** [o[k] = v] as an assignment on an object literal: the key [__proto__]
    is the accessor of [Object.prototype], whose setter ignores a string, so
    no property is created for it. *)
Definition assign (k v : string) (o : object) : object :=
  if String.eqb k "__proto__" then o else obj_set k v o.

Fixpoint obj_get (k : string) (o : object) : option string :=
  match o with
  | [] => None
  | (k', v') :: o' => if String.eqb k k' then Some v' else obj_get k o'
  end.

(** The object [JSON.parse] builds from the members in their order; it
    defines the properties directly, [__proto__] included. *)
Definition assemble (members : list (string * string)) : object :=
  fold_left (fun o kv => obj_set (fst kv) (snd kv) o) members [].

(** *** JSON.stringify *)

Definition hex_digit (n : nat) : ascii :=
  if (n <? 10)%nat then ascii_of_nat (48 + n) else ascii_of_nat (87 + n).

(** One code unit inside a JSON string literal. *)
Definition quote_char (c : ascii) : string :=
  let n := nat_of_ascii c in
  if (n =? 8)%nat then "\b"
  else if (n =? 9)%nat then "\t"
  else if (n =? 10)%nat then "\n"
  else if (n =? 12)%nat then "\f"
  else if (n =? 13)%nat then "\r"
  else if (n =? 34)%nat then String "\" (String c EmptyString)
  else if (n =? 92)%nat then "\\"
  else if (n <? 32)%nat then
    "\u00" ++ String (hex_digit (n / 16))
                 (String (hex_digit (n mod 16)) EmptyString)
  else String c EmptyString.

Fixpoint quote_body (s : string) : string :=
  match s with
  | EmptyString => EmptyString
  | String c s' => quote_char c ++ quote_body s'
  end.

Definition dquote : ascii := ascii_of_nat 34.

Definition quote (s : string) : string :=
  String dquote (quote_body s ++ String dquote EmptyString).

Definition member_text (kv : string * string) : string :=
  quote (fst kv) ++ String ":" (quote (snd kv)).

Fixpoint members_text (ms : list (string * string)) : string :=
  match ms with
  | [] => EmptyString
  | [kv] => member_text kv
  | kv :: ms' => member_text kv ++ String "," (members_text ms')
  end.

Definition JSON_stringify (o : object) : string :=
  String "{" (members_text o ++ "}").

(** *** The whitespace replacement *)

(** [s.replace(/P+/g, ' ')] for a class [P] of characters; [in_run] tells
    that the character before was in the class. *)
Fixpoint collapse (P : ascii -> bool) (in_run : bool) (s : string) : string :=
  match s with
  | EmptyString => EmptyString
  | String a s' =>
      if P a then
        if in_run then collapse P true s'
        else String " " (collapse P true s')
      else String a (collapse P false s')
  end.

(** [codeJSON.replace(/\s+/g, ' ')]. *)
Definition minify (codeJSON : string) : string :=
  collapse JS.is_space false codeJSON.

(** *** JSON.parse, for an object of strings written without white space
        between its tokens *)

Definition hex_value (c : ascii) : option nat :=
  let n := nat_of_ascii c in
  if ((48 <=? n) && (n <=? 57))%nat then Some (n - 48)%nat
  else if ((97 <=? n) && (n <=? 102))%nat then Some (n - 87)%nat
  else if ((65 <=? n) && (n <=? 70))%nat then Some (n - 55)%nat
  else None.

(** The character of [\uXXXX], when it is a code unit below 256. *)
Definition unicode_escape (a b c d : ascii) : option ascii :=
  match hex_value a, hex_value b, hex_value c, hex_value d with
  | Some 0%nat, Some 0%nat, Some x, Some y => Some (ascii_of_nat (16 * x + y))
  | _, _, _, _ => None
  end.

Definition simple_escape (c : ascii) : option ascii :=
  let n := nat_of_ascii c in
  if (n =? 34)%nat then Some c                      (* the quote *)
  else if (n =? 92)%nat then Some c                 (* the backslash *)
  else if (n =? 47)%nat then Some c                 (* the slash *)
  else if (n =? 98)%nat then Some (ascii_of_nat 8)    (* b *)
  else if (n =? 102)%nat then Some (ascii_of_nat 12)  (* f *)
  else if (n =? 110)%nat then Some (ascii_of_nat 10)  (* n *)
  else if (n =? 114)%nat then Some (ascii_of_nat 13)  (* r *)
  else if (n =? 116)%nat then Some (ascii_of_nat 9)   (* t *)
  else None.

Definition push (c : ascii) (r : option (string * string))
  : option (string * string) :=
  match r with
  | Some (v, rest) => Some (String c v, rest)
  | None => None
  end.

(** The characters of a string literal after its opening quote: the value
    and the text after the closing quote. *)
Fixpoint parse_chars (s : string) : option (string * string) :=
  match s with
  | EmptyString => None
  | String c s1 =>
      if Ascii.eqb c dquote then Some (EmptyString, s1)
      else if Ascii.eqb c "\" then
        match s1 with
        | String e s2 =>
            if Ascii.eqb e "u" then
              match s2 with
              | String h1 (String h2 (String h3 (String h4 s6))) =>
                  match unicode_escape h1 h2 h3 h4 with
                  | Some x => push x (parse_chars s6)
                  | None => None
                  end
              | _ => None
              end
            else
              match simple_escape e with
              | Some x => push x (parse_chars s2)
              | None => None
              end
        | EmptyString => None
        end
      else if (nat_of_ascii c <? 32)%nat then None
      else push c (parse_chars s1)
  end.

Definition parse_string (s : string) : option (string * string) :=
  match s with
  | String c s' => if Ascii.eqb c dquote then parse_chars s' else None
  | EmptyString => None
  end.

(** One member [key:value]. *)
Definition parse_member (s : string)
  : option ((string * string) * string) :=
  match parse_string s with
  | Some (k, String ":" s1) =>
      match parse_string s1 with
      | Some (v, rest) => Some ((k, v), rest)
      | None => None
      end
  | _ => None
  end.

(** The members up to the closing brace, which must end the text. *)
Fixpoint parse_members (fuel : nat) (s : string)
  : option (list (string * string)) :=
  match fuel with
  | O => None
  | S fuel' =>
      match parse_member s with
      | Some (kv, String "}" EmptyString) => Some [kv]
      | Some (kv, String "," rest) =>
          option_map (cons kv) (parse_members fuel' rest)
      | _ => None
      end
  end.

Definition parse_text (s : string) : option (list (string * string)) :=
  match s with
  | String "{" (String "}" EmptyString) => Some []
  | String "{" rest => parse_members (String.length rest) rest
  | _ => None
  end.

Definition JSON_parse (s : string) : option object :=
  option_map assemble (parse_text s).

(** *** The two functions *)

Section World.

Variable readFile : string -> read_result.

(** [readFiles]: the contents under their paths; a file that cannot be read
    is reported and left out. *)
Fixpoint readFiles_from (code : object) (filePaths : list string) : object :=
  match filePaths with
  | [] => code
  | filePath :: rest =>
      match readFile filePath with
      | ReadOk fileContent =>
          readFiles_from (assign filePath fileContent code) rest
      | ReadError _ _ => readFiles_from code rest
      end
  end.

Definition readFiles (filePaths : list string) : object :=
  readFiles_from [] filePaths.

(** The text [minifyAndSave] writes to [project-code.min.json]. *)
Definition minifyAndSave (selectedFiles : list string) : string :=
  let code := readFiles selectedFiles in
  let codeJSON := JSON_stringify code in
  minify codeJSON.

End World.

(** Runs of blanks that reach the JSON text unescaped: the space and the
    no-break space. *)
Definition is_blank (c : ascii) : bool :=
  let n := nat_of_ascii c in ((n =? 32) || (n =? 160))%nat.

Definition squeeze (s : string) : string := collapse is_blank false s.

Definition squeeze_member (kv : string * string) : string * string :=
  (squeeze (fst kv), squeeze (snd kv)).

(** Two adjacent characters of the class somewhere in the string. *)
Fixpoint has_run (P : ascii -> bool) (s : string) : bool :=
  match s with
  | String a ((String b _) as s') => (P a && P b) || has_run P s'
  | _ => false
  end.

Definition head_in (P : ascii -> bool) (s : string) : bool :=
  match s with
  | String a _ => P a
  | EmptyString => false
  end.

Fixpoint none_space (s : string) : bool :=
  match s with
  | EmptyString => true
  | String a s' => negb (JS.is_space a) && none_space s'
  end.

(** Whether a run of blanks is open after [s]. *)
Fixpoint run_after (b : bool) (s : string) : bool :=
  match s with
  | EmptyString => b
  | String a s' => run_after (is_blank a) s'
  end.

Fixpoint string_filter (P : ascii -> bool) (s : string) : string :=
  match s with
  | EmptyString => EmptyString
  | String a s' => if P a then String a (string_filter P s')
                   else string_filter P s'
  end.

End Minify.

(** ** Predicates the properties are stated with *)

Module Props.
Import Selection.

(** The cursor is on an item. *)
Definition in_range (s : selection) : Prop :=
  exists i, index s = JS.Num i /\ 0 <= i < count s.

(** The statistics are those of the items: recomputing changes nothing. *)
Definition tidy (RegExp_test : string -> string -> option bool)
    (readFile : string -> read_result) (s : selection) : Prop :=
  JS.state_of (recompute RegExp_test readFile s) = s.

(** The multi-column selector with its cursor on an item, a column that is
    not negative and a layout of at least one column. *)
Definition multi_valid (st : Multi.state) : Prop :=
  in_range (Multi.sel st)
  /\ 0 <= Multi.currentColumn st
  /\ 1 <= Multi.activeColumns st.

Fixpoint all_space (s : string) : bool :=
  match s with
  | EmptyString => true
  | String a s' => JS.is_space a && all_space s'
  end.

Definition starts_space (s : string) : bool :=
  match s with
  | String a _ => JS.is_space a
  | EmptyString => false
  end.

Fixpoint ends_space (s : string) : bool :=
  match s with
  | EmptyString => false
  | String a EmptyString => JS.is_space a
  | String _ s' => ends_space s'
  end.

Fixpoint contains (c : ascii) (s : string) : bool :=
  match s with
  | EmptyString => false
  | String a s' => Ascii.eqb a c || contains c s'
  end.

(** [pieces.join(sep)]. *)
Fixpoint join (sep : ascii) (pieces : list string) : string :=
  match pieces with
  | [] => EmptyString
  | [p] => p
  | p :: rest => p ++ String sep (join sep rest)
  end.

End Props.

(** ** Concrete inputs *)

Module Examples.
Import Selection Terminal.

(** A file system where no file can be read. *)
Definition no_file : string -> read_result :=
  fun _ => ReadError (Some "ENOENT") "no such file".

(** Terminals: 80 and 200 columns wide, and the smallest ones. *)
Definition narrow : tty := {| rows := Some 24; columns := Some 80 |}.
Definition wide : tty := {| rows := Some 24; columns := Some 200 |}.
Definition one_by_one : tty := {| rows := Some 1; columns := Some 1 |}.
Definition one_by_two : tty := {| rows := Some 1; columns := Some 2 |}.

Definition seven : list string := ["a"; "b"; "c"; "d"; "e"; "f"; "g"].

(** The basic selector over seven items with the cursor on index 3, the
    last row of the left column. *)
Definition basic_at_3 : Basic.state :=
  {| Basic.sel := set_index (JS.Num 3) (Selection.construct seven);
     Basic.column := Basic.LeftCol |}.

(** Two items, the first enabled and the second not. *)
Definition mixed : selection :=
  set_choices [set_enabled true (make_choice "a"); make_choice "b"]
    (Selection.construct ["a"; "b"]).

(** A file system with one readable file, whose content has a run of two
    spaces and a line feed. *)
Definition spaced : string := "x  y" ++ String Regex.LF "z".

Definition one_file : string -> read_result :=
  fun p => if String.eqb p "a.txt" then ReadOk spaced
           else ReadError (Some "ENOENT") "no such file".

End Examples.

(** ** Ignore rules read as globs *)

Module Glob.

(** The characters of a rule the translation handles as intended: any
    character that is not a syntax character of a pattern, the dot and the
    star. *)
Definition rule_char (c : ascii) : bool :=
  negb (Regex.is_syntax_char c) || Ascii.eqb c "." || Ascii.eqb c "*".

Fixpoint rule_ok (rule : string) : bool :=
  match rule with
  | EmptyString => true
  | String c rule' => rule_char c && rule_ok rule'
  end.

Definition line_terminator (c : ascii) : bool :=
  Ascii.eqb c Regex.LF || Ascii.eqb c Regex.CR.

(** A rule read as a glob over the whole path: a star stands for any run of
    characters without a line terminator, slashes included; every other
    character, the dot too, stands for itself. *)
Inductive glob : string -> string -> Prop :=
| glob_end : glob EmptyString EmptyString
| glob_same (c : ascii) (rule path : string) :
    Ascii.eqb c "*" = false ->
    glob rule path -> glob (String c rule) (String c path)
| glob_star_none (rule path : string) :
    glob rule path -> glob (String "*" rule) path
| glob_star_more (c : ascii) (rule path : string) :
    line_terminator c = false ->
    glob (String "*" rule) path -> glob (String "*" rule) (String c path).

(** What the translation writes for one character of a rule. *)
Definition translate_char (c : ascii) : string :=
  if Ascii.eqb c "." then "\."
  else if Ascii.eqb c "*" then ".*"
  else String c EmptyString.

Definition tokens_of_char (c : ascii) : list Regex.token :=
  if Ascii.eqb c "*" then [Regex.TAtom Regex.AnyChar; Regex.TStar]
  else [Regex.TAtom (Regex.Lit c)].

Definition piece_of_char (c : ascii) : Regex.piece :=
  if Ascii.eqb c "*" then Regex.Star Regex.AnyChar
  else Regex.One (Regex.Lit c).

Fixpoint translate (rule : string) : string :=
  match rule with
  | EmptyString => EmptyString
  | String c rule' => translate_char c ++ translate rule'
  end.

Fixpoint tokens_of (rule : string) : list Regex.token :=
  match rule with
  | EmptyString => []
  | String c rule' => tokens_of_char c ++ tokens_of rule'
  end.

Fixpoint pieces_of (rule : string) : Regex.regex :=
  match rule with
  | EmptyString => []
  | String c rule' => piece_of_char c :: pieces_of rule'
  end.

End Glob.

(** ** calculateTotalCharacters (src/minify-code.js) *)

Module Totals.
Import Selection.

Section World.

Variable readFile : string -> read_result.

(** The running total and the paths reported to [console.error]. *)
Fixpoint calculateTotalCharacters_from (totalCharacters : Z)
    (filePaths : list string) : Z * list string :=
  match filePaths with
  | [] => (totalCharacters, [])
  | filePath :: rest =>
      match readFile filePath with
      | ReadOk fileContent =>
          calculateTotalCharacters_from
            (totalCharacters + Z.of_nat (String.length fileContent)) rest
      | ReadError _ _ =>
          let r := calculateTotalCharacters_from totalCharacters rest in
          (fst r, filePath :: snd r)
      end
  end.

Definition calculateTotalCharacters (filePaths : list string) : Z :=
  fst (calculateTotalCharacters_from 0 filePaths).

End World.

(** The enabled items in order, and among them those a rule ignores. *)
Definition enabled_names (cs : list choice) : list string :=
  map name (filter enabled cs).

Definition ignored_names (RegExp_test : string -> string -> option bool)
    (patterns : list string) (cs : list choice) : list string :=
  filter (fun filePath =>
            match isPathIgnored RegExp_test patterns filePath with
            | Some true => true
            | _ => false
            end) (enabled_names cs).

End Totals.

(** ** More concrete inputs *)

Module MoreExamples.
Import Selection Terminal.

(** Two secret files and a source file, all enabled, under the rule
    [*.env]; the files hold 3, 5 and 7 characters. *)
Definition three_files : string -> read_result :=
  fun p => if String.eqb p ".env" then ReadOk "a=1"
           else if String.eqb p "src/x.js" then ReadOk "x = 1"
           else if String.eqb p "api/.env" then ReadOk "key=abc"
           else ReadError (Some "ENOENT") "no such file".

Definition three_enabled : selection :=
  set_patterns ["*.env"]
    (set_choices
       (map (set_enabled true)
            (map make_choice [".env"; "src/x.js"; "api/.env"]))
       (Selection.construct [".env"; "src/x.js"; "api/.env"])).

End MoreExamples.

(** ** Predicates on the layout *)

Module Layout.
Import Selection Terminal.

(** The layout fields are those of the terminal as last reported: computing
    them again changes nothing.  The constructor and every redraw leave the
    selector so. *)
Definition fresh (st : Multi.state) : Prop :=
  Multi.updateTerminalDimensions st = st.

(** The column marker is the column of the cursor. *)
Definition marker_ok (st : Multi.state) : Prop :=
  exists i, index (Multi.sel st) = JS.Num i
            /\ Multi.currentColumn st = i / Multi.itemsPerColumn st.

(** No column of the layout is empty: the last one starts on an item. *)
Definition columns_filled (st : Multi.state) : Prop :=
  (Multi.activeColumns st - 1) * Multi.itemsPerColumn st
  < count (Multi.sel st).

(** What the arrow keys keep: layout up to date, cursor on an item, no empty
    column, marker on the cursor's column. *)
Definition marker_inv (st : Multi.state) : Prop :=
  fresh st /\ Props.multi_valid st /\ columns_filled st /\ marker_ok st.

(** The scrolling variant: the marker is the side the cursor is on. *)
Definition side_ok (st : Scroll.state) : Prop :=
  exists i, index (Scroll.sel st) = JS.Num i
            /\ match Scroll.column st with
               | Scroll.LeftCol => i < Scroll.midPoint st
               | Scroll.RightCol => Scroll.midPoint st <= i
               end.

(** What the scrolling variant keeps with two items or more. *)
Definition side_inv (st : Scroll.state) : Prop :=
  2 <= count (Scroll.sel st) /\ Props.in_range (Scroll.sel st) /\ side_ok st.

End Layout.

(** ** stripAnsi (src/minify-code.js) *)

Module Ansi.

Definition ESC : ascii := ascii_of_nat 27.

(** The class [[0-9;]]. *)
Definition is_param (c : ascii) : bool :=
  Minify.is_digit c || Ascii.eqb c ";".

(** Where a scan for [ESC [ params m] stands: outside a candidate, after
    its ESC, or inside its parameters, which are held back until the
    candidate is decided. *)
Inductive scan_state : Type :=
| Outside
| AfterEsc
| InParams (params : string).

(** [str.replace(/\x1B\[[0-9;]*m/g, '')], scanning from left to right.  A
    candidate that does not end in [m] is written out as it stands; the
    character that ended it may start the next candidate. *)
Fixpoint scan (state : scan_state) (str : string) : string :=
  match str with
  | EmptyString =>
      match state with
      | Outside => EmptyString
      | AfterEsc => String ESC EmptyString
      | InParams params => String ESC (String "[" params)
      end
  | String c rest =>
      let restart :=
        if Ascii.eqb c ESC then scan AfterEsc rest
        else String c (scan Outside rest) in
      match state with
      | Outside => restart
      | AfterEsc =>
          if Ascii.eqb c "[" then scan (InParams EmptyString) rest
          else String ESC restart
      | InParams params =>
          if is_param c
          then scan (InParams (params ++ String c EmptyString)) rest
          else if Ascii.eqb c "m" then scan Outside rest
          else String ESC (String "[" (params ++ restart))
      end
  end.

Definition stripAnsi (str : string) : string := scan Outside str.

Fixpoint all_params (s : string) : bool :=
  match s with
  | EmptyString => true
  | String c s' => is_param c && all_params s'
  end.

(** A colour code: ESC, an opening bracket, parameters, [m]. *)
Definition code (params : string) : string :=
  String ESC (String "[" (params ++ "m")).

End Ansi.

(** ** Values of a JSON file and the paths [getFilePaths] extracts *)

From Stdlib Require Import DecimalString Permutation.

#[local] Set Warnings "-register-all".

Module Json.

(** What [fs.readJson] can return. *)
Inductive value : Type :=
| JString (s : string)
| JAtom (text : string)                 (* a number, a boolean or null,
                                           by its JSON text *)
| JArray (items : list value)
| JObject (members : list (string * value)).  (* in enumeration order *)

(** The key [for ... in] gives for the array element at [i]. *)
Definition index_key (i : nat) : string :=
  NilEmpty.string_of_uint (Nat.to_uint i).

(** [o[k] = v] on the properties in enumeration order, as [Minify.obj_set]
    for values of any kind. *)
Fixpoint set_member {V : Type} (k : string) (v : V) (o : list (string * V))
  : list (string * V) :=
  match o with
  | [] => [(k, v)]
  | (k', v') :: o' =>
      if String.eqb k k' then (k, v) :: o'
      else if Minify.precedes k k' then (k, v) :: (k', v') :: o'
      else (k', v') :: set_member k v o'
  end.

(** The assignment on an object literal: for the key [__proto__] it creates
    no property. *)
Definition assign_member {V : Type} (k : string) (v : V)
  (o : list (string * V)) : list (string * V) :=
  if String.eqb k "__proto__" then o else set_member k v o.

(** The string values at any depth, in the order of the text. *)
Fixpoint leaves (v : value) : list string :=
  match v with
  | JString s => [s]
  | JAtom _ => []
  | JArray items => flat_map leaves items
  | JObject members => flat_map (fun '(_, x) => leaves x) members
  end.

End Json.

Module Paths.
Import Json.

(** The template [base ? base/key : key]. *)
Definition currentPath (base key : string) : string :=
  if JS.nonempty base then base ++ String "/" key else key.

(** [getFilePaths(structure, base)].  The loop runs over the keys in
    enumeration order with the two arrays [files] and [directories]; a
    string met at the top is enumerated by its characters, a number, a
    boolean or null has no key. *)
Fixpoint getFilePaths (structure : value) (base : string) : list string :=
  match structure with
  | JString s =>
      map (fun c => String c EmptyString) (list_ascii_of_string s)
  | JAtom _ => []
  | JArray items =>
      (fix loop (i : nat) (files directories : list string)
               (rest : list value) : list string :=
         match rest with
         | [] => (files ++ directories)%list
         | value :: rest' =>
             match value with
             | JString path => loop (S i) (files ++ [path])%list directories rest'
             | _ =>
                 loop (S i) files
                   (directories
                    ++ getFilePaths value (currentPath base (index_key i)))%list
                   rest'
             end
         end) 0%nat [] [] items
  | JObject members =>
      (fix loop (files directories : list string)
               (rest : list (string * value)) : list string :=
         match rest with
         | [] => (files ++ directories)%list
         | (key, value) :: rest' =>
             match value with
             | JString path => loop (files ++ [path])%list directories rest'
             | _ =>
                 loop files
                   (directories
                    ++ getFilePaths value (currentPath base key))%list
                   rest'
             end
         end) [] [] members
  end.

(** The two loops as functions of their own. *)
Fixpoint array_loop (base : string) (i : nat) (files directories : list string)
  (rest : list value) : list string :=
  match rest with
  | [] => (files ++ directories)%list
  | value :: rest' =>
      match value with
      | JString path =>
          array_loop base (S i) (files ++ [path])%list directories rest'
      | _ =>
          array_loop base (S i) files
            (directories
             ++ getFilePaths value (currentPath base (index_key i)))%list
            rest'
      end
  end.

Fixpoint object_loop (base : string) (files directories : list string)
  (rest : list (string * value)) : list string :=
  match rest with
  | [] => (files ++ directories)%list
  | (key, value) :: rest' =>
      match value with
      | JString path =>
          object_loop base (files ++ [path])%list directories rest'
      | _ =>
          object_loop base files
            (directories ++ getFilePaths value (currentPath base key))%list
            rest'
      end
  end.

End Paths.

(** ** The project structure of build-structure.js *)

Module Structure.
Import Json.

(** What a directory entry is for [fs.stat]. *)
Inductive node : Type :=
| File                                  (* a regular file *)
| Special                               (* neither a file nor a directory *)
| Dangling                              (* fs.stat rejects it *)
| Dir (entries : list (string * node)). (* as fs.readdir lists them *)

(** [path.relative(basePath, filePath).replace(/\\/g, '/')] for the names
    that lead from [basePath] to the item. *)
Definition relative (names : list string) : string :=
  JS.replace_all "\" "/" (Props.join "/" names).

(** [parseStructure(dir, basePath)]: [dir] is given by the names that lead
    to it from [basePath] and by the item found there; [None] is a rejected
    promise, which is also what [fs.readdir] gives for an item that is not a
    directory. *)
Fixpoint parseStructure (dir : list string) (item : node) {struct item}
  : option (list (string * value)) :=
  match item with
  | Dir entries =>
      (fix loop (structure : list (string * value))
               (files : list (string * node)) {struct files}
         : option (list (string * value)) :=
         match files with
         | [] => Some structure
         | (file, n) :: rest =>
             let filePath := (dir ++ [file])%list in
             match n with
             | Dangling => None
             | Dir _ =>
                 match parseStructure filePath n with
                 | Some s =>
                     loop (assign_member file (JObject s) structure) rest
                 | None => None
                 end
             | File | Special =>
                 loop
                   (assign_member file (JString (relative filePath)) structure)
                   rest
             end
         end) [] entries
  | File | Special | Dangling => None
  end.

(** The loop of [parseStructure] as a function of its own. *)
Fixpoint parse_entries (dir : list string) (structure : list (string * value))
  (files : list (string * node)) : option (list (string * value)) :=
  match files with
  | [] => Some structure
  | (file, n) :: rest =>
      let filePath := (dir ++ [file])%list in
      match n with
      | Dangling => None
      | Dir _ =>
          match parseStructure filePath n with
          | Some s =>
              parse_entries dir (assign_member file (JObject s) structure) rest
          | None => None
          end
      | File | Special =>
          parse_entries dir
            (assign_member file (JString (relative filePath)) structure) rest
      end
  end.

Definition excludedDirs : list string :=
  ["dist"; ".github"; ".cursor"; ".vscode"; "node_modules";
   ".git"; "docker"; "json-project"; "docs"; "logs"].

Definition includes (l : list string) (x : string) : bool :=
  existsb (String.eqb x) l.

(** [processItem(itemPath, basePath)] of [buildStructureJSON] when
    [scanAll] is set, for an entry of [basePath]. *)
Definition processItem (item : string) (n : node)
  (structure : list (string * value)) : option (list (string * value)) :=
  match n with
  | Dangling => None
  | Dir _ =>
      match parseStructure [item] n with
      | Some s => Some (assign_member item (JObject s) structure)
      | None => None
      end
  | File => Some (assign_member item (JString (relative [item])) structure)
  | Special => Some structure
  end.

(** The full scan of [buildStructureJSON]: the object [structure] at the
    point where it is stringified, for the entries of [basePath]. *)
Fixpoint scanAll_from (structure : list (string * value))
  (items : list (string * node)) : option (list (string * value)) :=
  match items with
  | [] => Some structure
  | (item, n) :: rest =>
      if includes excludedDirs item then scanAll_from structure rest
      else
        match processItem item n structure with
        | Some structure' => scanAll_from structure' rest
        | None => None
        end
  end.

Definition scanAll (items : list (string * node))
  : option (list (string * value)) :=
  scanAll_from [] items.

(** *** What a directory holds *)

(** The items below a directory that are not directories, each by the names
    that lead to it, in the order of the listings. *)
Fixpoint files_below (dir : list string) (item : node)
  : list (list string) :=
  match item with
  | Dir entries =>
      flat_map (fun '(file, n) =>
                  match n with
                  | Dir _ => files_below (dir ++ [file])%list n
                  | Dangling => []
                  | File | Special => [(dir ++ [file])%list]
                  end) entries
  | File | Special | Dangling => []
  end.

(** Whether [fs.stat] rejects an item at some depth below a directory. *)
Fixpoint has_dangling (item : node) : bool :=
  match item with
  | Dir entries =>
      existsb (fun '(_, n) =>
                 match n with
                 | Dir _ => has_dangling n
                 | Dangling => true
                 | File | Special => false
                 end) entries
  | File | Special | Dangling => false
  end.

Fixpoint distinct (names : list string) : bool :=
  match names with
  | [] => true
  | x :: rest => negb (existsb (String.eqb x) rest) && distinct rest
  end.

(** The names of a directory are distinct and none is [__proto__], at every
    depth. *)
Fixpoint well_named (item : node) : bool :=
  match item with
  | Dir entries =>
      distinct (map fst entries)
      && negb (existsb (String.eqb "__proto__") (map fst entries))
      && forallb (fun '(_, n) => well_named n) entries
  | File | Special | Dangling => true
  end.

(** What the full scan keeps of the entries of [basePath]. *)
Definition kept (items : list (string * node)) : list (string * node) :=
  filter (fun '(item, n) =>
            negb (includes excludedDirs item)
            && match n with Special => false | _ => true end) items.

(** A project directory. *)
Definition project : list (string * node) :=
  [("src", Dir [("main.js", File); ("10", File); ("2", File);
                ("lib", Dir [("a b.js", File); ("sock", Special)])]);
   ("node_modules", Dir [("gone", Dangling)]);
   ("README.md", File);
   ("pipe", Special)].

End Structure.

(** ** The structure file, written by build-structure.js and read by
       minify-code.js *)

Module Written.
Import Json.

(** [JSON.stringify(value)], without indentation. *)
Fixpoint stringify (v : value) : string :=
  match v with
  | JString s => Minify.quote s
  | JAtom text => text
  | JArray items =>
      String "[" (Props.join "," (map stringify items) ++ "]")
  | JObject members =>
      String "{"
        (Props.join ","
           (map (fun '(k, x) => Minify.quote k ++ String ":" (stringify x))
                members)
         ++ "}")
  end.

(** The text the full scan of [buildStructureJSON] writes to
    [project-structure.min.json]; [None] is a rejected promise, nothing is
    written then. *)
Definition buildStructureJSON_scanAll (items : list (string * Structure.node))
  : option string :=
  match Structure.scanAll items with
  | Some structure => Some (Minify.minify (stringify (JObject structure)))
  | None => None
  end.

(** The object [JSON.parse] builds from the members in their order. *)
Definition assemble_members (ms : list (string * value))
  : list (string * value) :=
  fold_left (fun o '(k, v) => set_member k v o) ms [].

(** [JSON.parse] for the texts made of objects and strings without white
    space between the tokens; [None] outside of them. *)
Fixpoint parse_value (fuel : nat) (s : string) : option (value * string) :=
  match fuel with
  | O => None
  | S fuel' =>
      match s with
      | String "{" rest =>
          match rest with
          | String "}" rest' => Some (JObject [], rest')
          | _ =>
              match parse_members fuel' rest with
              | Some (ms, rest') => Some (JObject (assemble_members ms), rest')
              | None => None
              end
          end
      | _ =>
          match Minify.parse_string s with
          | Some (v, rest) => Some (JString v, rest)
          | None => None
          end
      end
  end
with parse_members (fuel : nat) (s : string)
  : option (list (string * value) * string) :=
  match fuel with
  | O => None
  | S fuel' =>
      match Minify.parse_string s with
      | Some (k, String ":" s1) =>
          match parse_value fuel' s1 with
          | Some (v, String "}" rest) => Some ([(k, v)], rest)
          | Some (v, String "," rest) =>
              match parse_members fuel' rest with
              | Some (ms, rest') => Some ((k, v) :: ms, rest')
              | None => None
              end
          | _ => None
          end
      | _ => None
      end
  end.

Definition JSON_parse (text : string) : option value :=
  match parse_value (S (String.length text)) text with
  | Some (v, EmptyString) => Some v
  | _ => None
  end.

(** [getFilePaths(await fs.readJson(...))] of [minifyCode], for the text of
    the structure file. *)
Definition filePaths (text : string) : option (list string) :=
  match JSON_parse text with
  | Some structure => Some (Paths.getFilePaths structure "")
  | None => None
  end.

(** *** Notions for the properties *)

(** Each run of blanks replaced by one space, in every key and string. *)
Fixpoint squeeze_value (v : value) : value :=
  match v with
  | JString s => JString (Minify.squeeze s)
  | JAtom text => JAtom text
  | JArray items => JArray (map squeeze_value items)
  | JObject members =>
      JObject (map (fun '(k, x) => (Minify.squeeze k, squeeze_value x))
                   members)
  end.

(** The value as [JSON.parse] rebuilds it from its text. *)
Fixpoint assemble_value (v : value) : value :=
  match v with
  | JString s => JString s
  | JAtom text => JAtom text
  | JArray items => JArray (map assemble_value items)
  | JObject members =>
      JObject (assemble_members
                 (map (fun '(k, x) => (k, assemble_value x)) members))
  end.

(** Made of objects and strings only. *)
Fixpoint is_structure (v : value) : bool :=
  match v with
  | JString _ => true
  | JObject members => forallb (fun '(_, x) => is_structure x) members
  | JAtom _ | JArray _ => false
  end.

Fixpoint size (v : value) : nat :=
  match v with
  | JString _ | JAtom _ => 1%nat
  | JArray items => S (list_sum (map size items))
  | JObject members => S (list_sum (map (fun '(_, x) => S (size x)) members))
  end.

(** A name that the whitespace replacement leaves as it is: no two blanks
    in a row and no no-break space. *)
Definition plain (name : string) : bool :=
  String.eqb (Minify.squeeze name) name.

Fixpoint plain_names (item : Structure.node) : bool :=
  match item with
  | Structure.Dir entries =>
      forallb (fun '(file, n) => plain file && plain_names n) entries
  | _ => true
  end.

(** Objects and strings, with distinct keys, all of them plain. *)
Fixpoint tidy (v : value) : bool :=
  match v with
  | JString s => plain s
  | JObject members =>
      Structure.distinct (map fst members)
      && forallb (fun '(k, x) => plain k && tidy x) members
  | JAtom _ | JArray _ => false
  end.

End Written.

(* ================================================================== *)
(** * Part II: properties *)
(* ================================================================== *)

(** ** The pattern matcher *)

Lemma isPathIgnored_existsb (test : string -> string -> option bool)
    (patterns : list string) (filePath : string) :
  (forall p, In p patterns ->
     test (Selection.regexSource p) filePath <> None) ->
  Selection.isPathIgnored test patterns filePath
  = Some (existsb
            (fun p =>
               match test (Selection.regexSource p) filePath with
               | Some true => true
               | _ => false
               end) patterns).
Proof.
  induction patterns as [|p ps IH]; intros Hdef; [reflexivity|].
  cbn [Selection.isPathIgnored existsb].
  destruct (test (Selection.regexSource p) filePath) as [[|]|] eqn:E.
  - reflexivity.
  - apply IH. intros q Hq. apply Hdef. now right.
  - exfalso. apply (Hdef p); [now left | exact E].
Qed.

(** C1, as stated, fails: the rule [*.env] is translated to [^.*\.env$],
    whose [.*] matches the empty prefix, so the path [.env] is ignored. *)
Lemma star_env_ignores_dot_env :
  Selection.isPathIgnored Regex.test ["*.env"] ".env" = Some true.
Proof. vm_compute. reflexivity. Qed.

(** C1, amended: with the translation of [isPathIgnored] (dots escaped,
    stars turned into [.*], anchored at both ends) the rule [*.env] matches
    the path [.env]; the rule [secrets/*] matches [secrets/keys.json] and
    does not match [other/secrets/keys.json]. *)
Theorem glob_translation_anchored :
  Selection.regexSource "*.env" = "^.*\.env$"
  /\ Selection.regexSource "secrets/*" = "^secrets/.*$"
  /\ Selection.isPathIgnored Regex.test ["*.env"] ".env" = Some true
  /\ Selection.isPathIgnored Regex.test ["secrets/*"] "secrets/keys.json"
     = Some true
  /\ Selection.isPathIgnored Regex.test ["secrets/*"]
       "other/secrets/keys.json" = Some false.
Proof. repeat split; vm_compute; reflexivity. Qed.

(** ** Loading the ignore file *)

Section StringFacts.
Import Props.

Lemma string_app_assoc (s t u : string) : (s ++ t) ++ u = s ++ (t ++ u).
Proof. induction s as [|a s IH]; cbn; [reflexivity | now rewrite IH]. Qed.

Lemma string_app_length (s t : string) :
  String.length (s ++ t) = (String.length s + String.length t)%nat.
Proof. induction s as [|a s IH]; cbn; [reflexivity | now rewrite IH]. Qed.

Lemma split_nonempty sep s : JS.split sep s <> [].
Proof.
  destruct s as [|a s]; cbn; [discriminate|].
  destruct (Ascii.eqb a sep); [discriminate|].
  destruct (JS.split sep s); discriminate.
Qed.

Lemma join_split sep s : join sep (JS.split sep s) = s.
Proof.
  induction s as [|a s IH]; [reflexivity|].
  cbn [JS.split]. destruct (Ascii.eqb a sep) eqn:E.
  - apply Ascii.eqb_eq in E. subst a.
    pose proof (split_nonempty sep s) as Hne.
    destruct (JS.split sep s) as [|p rest] eqn:Es; [contradiction|].
    rewrite <- IH. reflexivity.
  - pose proof (split_nonempty sep s) as Hne.
    destruct (JS.split sep s) as [|p rest] eqn:Es; [contradiction|].
    rewrite <- IH. destruct rest as [|q rest]; reflexivity.
Qed.

Lemma split_pieces_free sep s :
  Forall (fun p => contains sep p = false) (JS.split sep s).
Proof.
  induction s as [|a s IH]; cbn [JS.split].
  - repeat constructor.
  - destruct (Ascii.eqb a sep) eqn:E.
    + constructor; [reflexivity | exact IH].
    + destruct (JS.split sep s) as [|p rest]; inversion IH; subst;
        constructor; cbn [contains]; try rewrite E; auto.
Qed.

Lemma trimStart_split s :
  exists pre, s = pre ++ JS.trimStart s
              /\ all_space pre = true
              /\ starts_space (JS.trimStart s) = false.
Proof.
  induction s as [|a s (pre & Hs & Hp & Ht)].
  - exists EmptyString. repeat split.
  - cbn [JS.trimStart]. destruct (JS.is_space a) eqn:E.
    + exists (String a pre). cbn [append all_space]. rewrite E, Hp.
      repeat split; [now f_equal | exact Ht].
    + exists EmptyString. cbn. now rewrite E.
Qed.

Lemma trimEnd_split s :
  exists post, s = JS.trimEnd s ++ post
               /\ all_space post = true
               /\ ends_space (JS.trimEnd s) = false.
Proof.
  induction s as [|a s (post & Hs & Hp & Ht)].
  - exists EmptyString. repeat split.
  - cbn [JS.trimEnd]. destruct (JS.trimEnd s) as [|b t] eqn:Et.
    + destruct (JS.is_space a) eqn:E.
      * exists (String a post). cbn [append all_space]. rewrite E, Hp.
        cbn [append] in Hs. subst s. repeat split.
      * exists post. cbn [append] in *. subst s. cbn. now rewrite E.
    + exists post. cbn [append]. rewrite Hs at 1. cbn [append].
      repeat split; [exact Hp|]. cbn [ends_space]. exact Ht.
Qed.

Lemma trimEnd_keeps_head s :
  starts_space s = false -> starts_space (JS.trimEnd s) = false.
Proof.
  destruct s as [|a s]; [reflexivity|]. cbn [starts_space JS.trimEnd].
  intros E. destruct (JS.trimEnd s); [rewrite E|]; cbn; auto.
Qed.

Lemma contains_app c s t :
  contains c (s ++ t) = contains c s || contains c t.
Proof.
  induction s as [|a s IH]; [reflexivity|].
  cbn [append contains]. rewrite IH. now rewrite orb_assoc.
Qed.

(** What [trim] returns: the line without the white space around it. *)
Lemma trim_spec s :
  exists pre post,
    s = pre ++ JS.trim s ++ post
    /\ all_space pre = true /\ all_space post = true
    /\ starts_space (JS.trim s) = false
    /\ ends_space (JS.trim s) = false.
Proof.
  destruct (trimStart_split s) as (pre & Hs & Hp & Ht).
  destruct (trimEnd_split (JS.trimStart s)) as (post & Hs' & Hp' & Ht').
  exists pre, post. unfold JS.trim. repeat split; auto.
  - rewrite <- Hs'. exact Hs.
  - now apply trimEnd_keeps_head.
Qed.

Lemma trim_free c s : contains c s = false -> contains c (JS.trim s) = false.
Proof.
  intros H. destruct (trim_spec s) as (pre & post & Hs & _).
  rewrite Hs in H. rewrite !contains_app in H.
  apply orb_false_iff in H as [_ H]. now apply orb_false_iff in H as [H _].
Qed.

End StringFacts.

(** C7: loading the ignore file fails soft.  A missing file (ENOENT) gives
    no rule and no warning; any other read error gives no rule and one
    warning carrying the message; a file that is read gives, in order, the
    trimmed lines that are neither empty nor start with [#], and no warning.
    Loading is a total function of the read result (nothing is thrown to the
    caller) and it touches no other field of the selector. *)
Theorem loadGitignore_fails_soft :
  (forall message,
      Selection.loadGitignore_result
        (Selection.ReadError (Some "ENOENT") message) = ([], []))
  /\ (forall code message,
      code <> Some "ENOENT" ->
      Selection.loadGitignore_result (Selection.ReadError code message)
      = ([], ["Warning: Could not read .gitignore: " ++ message]))
  /\ (forall content,
      let rules := fst (Selection.loadGitignore_result
                          (Selection.ReadOk content)) in
      snd (Selection.loadGitignore_result (Selection.ReadOk content)) = []
      /\ Props.join Regex.LF (JS.split Regex.LF content) = content
      /\ rules = filter Selection.keep_line
                   (map JS.trim (JS.split Regex.LF content))
      /\ (forall rule,
            In rule rules <->
            exists line, In line (JS.split Regex.LF content)
                         /\ rule = JS.trim line
                         /\ rule <> EmptyString
                         /\ JS.startsWith rule "#" = false)
      /\ Forall (fun rule =>
                   Props.starts_space rule = false
                   /\ Props.ends_space rule = false
                   /\ Props.contains Regex.LF rule = false) rules)
  /\ (forall readFile s,
      let s' := fst (Selection.loadGitignore readFile s) in
      Selection.gitignorePatterns s'
      = fst (Selection.loadGitignore_result
               (readFile Selection.GITIGNORE_PATH))
      /\ Selection.choices s' = Selection.choices s
      /\ Selection.index s' = Selection.index s
      /\ Selection.totalCharacters s' = Selection.totalCharacters s
      /\ Selection.selectedFilesCount s' = Selection.selectedFilesCount s
      /\ Selection.selectedFilesGitignore s'
         = Selection.selectedFilesGitignore s).
Proof.
  split; [reflexivity|]. split; [|split].
  - intros [c|] message Hc; cbn [Selection.loadGitignore_result].
    + destruct (String.eqb c "ENOENT") eqn:E; [|reflexivity].
      apply String.eqb_eq in E. congruence.
    + reflexivity.
  - intros content rules. subst rules. cbn [Selection.loadGitignore_result fst snd].
    split; [reflexivity|]. split; [apply join_split|]. split; [reflexivity|].
    split.
    + intros rule. rewrite filter_In, in_map_iff. unfold Selection.keep_line.
      rewrite andb_true_iff, negb_true_iff. split.
      * intros [(line & Hl & Hin) [Hne Hs]]. exists line.
        repeat split; auto. intros ->. discriminate.
      * intros (line & Hin & -> & Hne & Hs). split; [now exists line|].
        split; [|exact Hs]. destruct (JS.trim line); [contradiction|reflexivity].
    + apply Forall_forall. intros rule Hin.
      apply filter_In in Hin as [Hin _]. apply in_map_iff in Hin as (line & <- & Hin).
      destruct (trim_spec line) as (pre & post & _ & _ & _ & H1 & H2).
      repeat split; auto. apply trim_free.
      pose proof (split_pieces_free Regex.LF content) as HF.
      rewrite Forall_forall in HF. now apply HF.
  - intros readFile s. cbn. repeat split.
Qed.

(** C7 at a file that cannot be opened for lack of permission. *)
Lemma loadGitignore_fails_soft_witness :
  Selection.loadGitignore_result (Selection.ReadError (Some "EACCES") "denied")
  = ([], ["Warning: Could not read .gitignore: denied"]).
Proof.
  apply (proj1 (proj2 loadGitignore_fails_soft) (Some "EACCES") "denied").
  discriminate.
Defined.

(** ** The shared selection *)

Section SelectionFacts.
Import Selection Props.

Variable RegExp_test : string -> string -> option bool.
Variable readFile : string -> read_result.

Local Abbreviation recompute := (recompute RegExp_test readFile).
Local Abbreviation tally := (tally RegExp_test readFile).

Lemma set_index_same s : set_index (index s) s = s.
Proof. now destruct s. Qed.

Lemma count_nonneg s : 0 <= count s.
Proof. unfold count. lia. Qed.

(** Recomputing rewrites the three statistics and nothing else. *)
Lemma recompute_state s :
  JS.state_of (recompute s)
  = set_stats
      (fst (fst (tally (gitignorePatterns s) (choices s) 0 EmptyString)))
      (Z.of_nat (List.length (filter enabled (choices s))))
      (snd (fst (tally (gitignorePatterns s) (choices s) 0 EmptyString))) s.
Proof.
  unfold Selection.recompute.
  destruct (tally _ _ _ _) as [[total warn] [|]]; reflexivity.
Qed.

Lemma recompute_choices s : choices (JS.state_of (recompute s)) = choices s.
Proof. now rewrite recompute_state. Qed.

Lemma recompute_index s : index (JS.state_of (recompute s)) = index s.
Proof. now rewrite recompute_state. Qed.

Lemma recompute_patterns s :
  gitignorePatterns (JS.state_of (recompute s)) = gitignorePatterns s.
Proof. now rewrite recompute_state. Qed.

Lemma recompute_tidy s : tidy RegExp_test readFile (JS.state_of (recompute s)).
Proof. unfold tidy. rewrite !recompute_state. reflexivity. Qed.

Lemma tidy_set_index i s :
  tidy RegExp_test readFile s -> tidy RegExp_test readFile (set_index i s).
Proof.
  unfold tidy. rewrite !recompute_state.
  destruct s as [cs ix t c w ps]. cbn. intros H.
  injection H as H1 H2 H3. subst. reflexivity.
Qed.

(** Recomputing from the same items and rules gives the same statistics,
    whatever the statistics were before. *)
Lemma recompute_from_items s s' :
  choices s' = choices s -> index s' = index s ->
  gitignorePatterns s' = gitignorePatterns s ->
  tidy RegExp_test readFile s ->
  JS.state_of (recompute s') = s.
Proof.
  unfold tidy. rewrite !recompute_state.
  destruct s as [cs ix t c w ps], s' as [cs' ix' t' c' w' ps'].
  cbn. intros -> -> -> H. injection H as H1 H2 H3. subst. reflexivity.
Qed.

Lemma set_nth_length {A} (l : list A) i x :
  List.length (set_nth l i x) = List.length l.
Proof.
  revert i; induction l as [|a l IH]; intros [|i]; cbn; auto.
Qed.

Lemma set_nth_twice {A} (l : list A) i x y :
  set_nth (set_nth l i x) i y = set_nth l i y.
Proof.
  revert i; induction l as [|a l IH]; intros [|i]; cbn; auto.
  now rewrite IH.
Qed.

Lemma set_nth_same {A} (l : list A) i x :
  nth_error l i = Some x -> set_nth l i x = l.
Proof.
  revert i; induction l as [|a l IH]; intros [|i]; cbn; try discriminate.
  - now intros [= ->].
  - intros H. now rewrite IH.
Qed.

Lemma nth_error_set_nth {A} (l : list A) i x :
  (i < List.length l)%nat -> nth_error (set_nth l i x) i = Some x.
Proof.
  revert i; induction l as [|a l IH]; intros [|i]; cbn; try lia; auto.
  intros H. apply IH. lia.
Qed.

Lemma index_Z_some {A} (l : list A) i x :
  JS.index_Z l i = Some x ->
  0 <= i < Z.of_nat (List.length l) /\ nth_error l (Z.to_nat i) = Some x.
Proof.
  unfold JS.index_Z. destruct (i <? 0) eqn:E; [discriminate|].
  apply Z.ltb_ge in E. intros H. split; [|exact H].
  assert (Z.to_nat i < List.length l)%nat
    by (apply nth_error_Some; congruence).
  lia.
Qed.

(** The item under the cursor, when toggled, leaves the cursor and the
    number of items as they are. *)
Lemma toggle_at_cursor_some s s1 :
  toggle_at_cursor s = Some s1 ->
  exists i c,
    index s = JS.Num i /\ 0 <= i < count s
    /\ nth_error (choices s) (Z.to_nat i) = Some c
    /\ s1 = set_choices
              (set_nth (choices s) (Z.to_nat i)
                 (set_enabled (negb (enabled c)) c)) s.
Proof.
  unfold toggle_at_cursor. destruct (index s) as [i|] eqn:Ei; [|discriminate].
  destruct (JS.index_Z (choices s) i) as [c|] eqn:Ec; [|discriminate].
  intros [= <-]. apply index_Z_some in Ec as [Hr Hn].
  exists i, c. auto.
Qed.

Lemma toggle_at_cursor_none s :
  toggle_at_cursor s = None -> ~ in_range s.
Proof.
  unfold toggle_at_cursor, in_range. intros H (i & Hi & Hr). rewrite Hi in H.
  unfold JS.index_Z in H. destruct (i <? 0) eqn:E; [apply Z.ltb_lt in E; lia|].
  destruct (nth_error (choices s) (Z.to_nat i)) eqn:En; [discriminate|].
  apply nth_error_None in En. unfold count in Hr. lia.
Qed.

Lemma space_some s o :
  space RegExp_test readFile s = Some o ->
  in_range s
  /\ index (JS.state_of o) = index s
  /\ count (JS.state_of o) = count s
  /\ gitignorePatterns (JS.state_of o) = gitignorePatterns s
  /\ tidy RegExp_test readFile (JS.state_of o).
Proof.
  unfold space. destruct (toggle_at_cursor s) as [s1|] eqn:E; [|discriminate].
  intros [= <-]. apply toggle_at_cursor_some in E as (i & c & Hi & Hr & Hn & ->).
  split; [now exists i|].
  rewrite recompute_index, recompute_patterns. unfold count.
  rewrite recompute_choices. cbn. rewrite set_nth_length.
  repeat split. apply recompute_tidy.
Qed.

(** Two presses of the space key on the same item undo each other. *)
Lemma space_twice s o1 :
  tidy RegExp_test readFile s ->
  space RegExp_test readFile s = Some o1 ->
  exists o2, space RegExp_test readFile (JS.state_of o1) = Some o2
             /\ JS.state_of o2 = s.
Proof.
  intros Ht Hs. unfold space in *.
  destruct (toggle_at_cursor s) as [s1|] eqn:E; [|discriminate].
  injection Hs as <-.
  apply toggle_at_cursor_some in E as (i & c & Hi & Hr & Hn & ->).
  unfold toggle_at_cursor at 1.
  rewrite recompute_index, recompute_choices. cbn [index choices set_choices].
  rewrite Hi. unfold JS.index_Z.
  destruct (i <? 0) eqn:E; [apply Z.ltb_lt in E; lia|].
  rewrite nth_error_set_nth by (unfold count in Hr; lia).
  eexists. split; [reflexivity|]. cbn [option_map].
  apply recompute_from_items; auto; cbn [choices index gitignorePatterns set_choices].
  - rewrite set_nth_twice. apply set_nth_same. rewrite Hn. f_equal.
    destruct c as [nm msg en]. cbn. now rewrite negb_involutive.
  - now rewrite recompute_index.
  - now rewrite recompute_patterns.
Qed.

Lemma toggleAll_choices s :
  choices (JS.state_of (toggleAll RegExp_test readFile s))
  = map (set_enabled (negb (forallb enabled (choices s)))) (choices s).
Proof. unfold toggleAll. now rewrite recompute_choices. Qed.

Lemma toggleAll_facts s :
  index (JS.state_of (toggleAll RegExp_test readFile s)) = index s
  /\ count (JS.state_of (toggleAll RegExp_test readFile s)) = count s
  /\ gitignorePatterns (JS.state_of (toggleAll RegExp_test readFile s))
     = gitignorePatterns s
  /\ tidy RegExp_test readFile (JS.state_of (toggleAll RegExp_test readFile s)).
Proof.
  unfold toggleAll, count.
  rewrite recompute_index, recompute_choices, recompute_patterns.
  cbn. rewrite length_map. repeat split. apply recompute_tidy.
Qed.

(** With every item disabled the statistics are all empty. *)
Lemma tally_fresh patterns filePaths total warn :
  tally patterns (map make_choice filePaths) total warn = (total, warn, true).
Proof. induction filePaths as [|p ps IH]; cbn; auto. Qed.

Lemma construct_tidy filePaths patterns :
  tidy RegExp_test readFile (set_patterns patterns (construct filePaths)).
Proof.
  unfold tidy. rewrite recompute_state. cbn [choices gitignorePatterns set_patterns construct].
  rewrite tally_fresh. cbn [fst snd].
  replace (filter enabled (map make_choice filePaths)) with (@nil choice);
    [reflexivity|].
  induction filePaths; cbn; auto.
Qed.

End SelectionFacts.

(** ** The multi-column selector *)

Section MultiFacts.
Import Selection Terminal Props.

Variable RegExp_test : string -> string -> option bool.
Variable readFile : string -> read_result.

Local Abbreviation render := (Multi.render RegExp_test).
Local Abbreviation keypress := (Multi.keypress RegExp_test readFile).
Local Abbreviation step := (Multi.step RegExp_test readFile).

Lemma ceil_div_pos n k : 1 <= n -> 1 <= k -> 1 <= JS.ceil_div n k.
Proof.
  intros Hn Hk. unfold JS.ceil_div.
  assert ((- n) / k < 0) by (apply Z.div_lt_upper_bound; lia). lia.
Qed.

Lemma in_range_below s :
  in_range s -> JS.geb (index s) (count s) = false.
Proof.
  intros (i & Hi & Hr). rewrite Hi. cbn. apply Z.leb_gt. lia.
Qed.

Lemma in_range_set_index s i :
  0 <= i < count s -> in_range (set_index (JS.Num i) s).
Proof. intros H. exists i. split; [reflexivity | exact H]. Qed.

Lemma activeColumns_update st :
  1 <= Multi.activeColumns (Multi.updateTerminalDimensions st) <= 5.
Proof. cbn. unfold Multi.maxColumns. lia. Qed.

(** What a redraw does to the object, whether it completes or throws: the
    column and the reported terminal stay, the layout has one to five
    columns, and the cursor is either left alone or, when it was at or past
    the item count, put on the last index. *)
Lemma render_effect st :
  let st' := JS.state_of (render st) in
  Multi.currentColumn st' = Multi.currentColumn st
  /\ Multi.stdout st' = Multi.stdout st
  /\ 1 <= Multi.activeColumns st' <= 5
  /\ (Multi.sel st' = Multi.sel st
      \/ (JS.geb (index (Multi.sel st)) (count (Multi.sel st)) = true
          /\ Multi.sel st'
             = set_index (JS.Num (count (Multi.sel st) - 1)) (Multi.sel st))).
Proof.
  pose proof (activeColumns_update st) as Ha.
  unfold Multi.render. cbv zeta.
  set (u := Multi.updateTerminalDimensions st) in *.
  assert (Hs : Multi.sel u = Multi.sel st) by reflexivity.
  assert (Hc : Multi.currentColumn u = Multi.currentColumn st) by reflexivity.
  assert (Ho : Multi.stdout u = Multi.stdout st) by reflexivity.
  clearbody u.
  destruct (Multi.terminalWidth u - 2 <? 0); [cbn; rewrite Hs; auto|].
  destruct (JS.index_Z _ _); [|cbn; rewrite Hs; auto].
  rewrite Hs.
  destruct (JS.geb (index (Multi.sel st)) (count (Multi.sel st))) eqn:Eg;
    match goal with
    | |- context [if ?b then JS.Done ?x else JS.Threw ?x] =>
        replace (JS.state_of (if b then JS.Done x else JS.Threw x)) with x
          by (destruct b; reflexivity)
    end; cbn; rewrite ?Hs; auto 6.
Qed.

Lemma render_valid st :
  in_range (Multi.sel st) -> 0 <= Multi.currentColumn st ->
  multi_valid (JS.state_of (render st)).
Proof.
  intros Hr Hc. destruct (render_effect st) as (H1 & _ & H3 & [H4|[H4 _]]).
  - unfold multi_valid. rewrite H1, H4. repeat split; auto; lia.
  - rewrite in_range_below in H4 by assumption. discriminate.
Qed.

Lemma render_keeps_sel st :
  JS.geb (index (Multi.sel st)) (count (Multi.sel st)) = false ->
  Multi.sel (JS.state_of (render st)) = Multi.sel st.
Proof.
  intros Hg. destruct (render_effect st) as (_ & _ & _ & [H|[H _]]); auto.
  congruence.
Qed.

Lemma itemsPerColumn_pos st :
  multi_valid st -> 1 <= Multi.itemsPerColumn st.
Proof.
  intros ((i & _ & Hr) & _ & Ha). apply ceil_div_pos; lia.
Qed.

(** Every key this class handles keeps the cursor on an item. *)
Lemma keypress_valid k st :
  multi_valid st -> multi_valid (JS.state_of (keypress k st)).
Proof.
  intros Hv. pose proof (itemsPerColumn_pos st Hv) as Hp.
  destruct Hv as ((i & Hi & Hr) & Hc & Ha).
  assert (Hv : multi_valid st) by (repeat split; auto; now exists i).
  unfold Multi.keypress. cbv zeta. rewrite Hi.
  destruct k.
  - (* up *)
    apply render_valid; [|destruct (JS.gtb _ _); exact Hc].
    destruct (JS.gtb _ _) eqn:E; [|now exists i].
    cbn in E. apply Z.ltb_lt in E. apply in_range_set_index.
    cbn [Multi.sel Multi.set_sel].
    assert (0 <= Multi.currentColumn st * Multi.itemsPerColumn st) by nia.
    lia.
  - (* down *)
    apply render_valid; [|destruct (_ && _); exact Hc].
    destruct (_ && _) eqn:E; [|now exists i].
    apply andb_true_iff in E as [_ E]. cbn in E. apply Z.ltb_lt in E.
    apply in_range_set_index. cbn [Multi.sel Multi.set_sel]. lia.
  - (* left *)
    destruct (0 <? Multi.currentColumn st) eqn:E; [|exact Hv].
    apply Z.ltb_lt in E. cbn [JS.rem].
    destruct (Multi.itemsPerColumn st =? 0) eqn:E0;
      [apply Z.eqb_eq in E0; lia|].
    cbn [JS.add JS.min]. apply render_valid; cbn; [|lia].
    apply in_range_set_index.
    pose proof (Z.rem_nonneg i (Multi.itemsPerColumn st) ltac:(lia) ltac:(lia)).
    assert (0 <= (Multi.currentColumn st - 1) * Multi.itemsPerColumn st) by nia.
    lia.
  - (* right *)
    destruct (Multi.currentColumn st <? Multi.activeColumns st - 1) eqn:E;
      [|exact Hv].
    cbn [JS.rem].
    destruct (Multi.itemsPerColumn st =? 0) eqn:E0;
      [apply Z.eqb_eq in E0; lia|].
    cbn [JS.add JS.min]. apply render_valid; cbn; [|lia].
    apply in_range_set_index.
    pose proof (Z.rem_nonneg i (Multi.itemsPerColumn st) ltac:(lia) ltac:(lia)).
    assert (0 <= (Multi.currentColumn st + 1) * Multi.itemsPerColumn st) by nia.
    lia.
  - (* space *)
    destruct (space RegExp_test readFile (Multi.sel st)) as [o|] eqn:Es;
      [|exact Hv].
    apply space_some in Es as (_ & Hix & Hcnt & _).
    assert (Hin : in_range (JS.state_of o))
      by (exists i; rewrite Hix, Hcnt; auto).
    destruct o as [s|s]; cbn [JS.state_of] in *.
    + apply render_valid; auto.
    + repeat split; auto.
  - (* a *)
    destruct (toggleAll_facts RegExp_test readFile (Multi.sel st))
      as (Hix & Hcnt & _).
    assert (Hin : in_range
                    (JS.state_of (toggleAll RegExp_test readFile (Multi.sel st))))
      by (exists i; rewrite Hix, Hcnt; auto).
    destruct (toggleAll _ _ _) as [s|s]; cbn [JS.state_of] in *.
    + apply render_valid; auto.
    + repeat split; auto.
Qed.

Lemma resize_valid size st :
  multi_valid st ->
  multi_valid (JS.state_of (Multi.resize RegExp_test size st)).
Proof.
  intros (Hr & Hc & _). unfold Multi.resize. apply render_valid; auto.
Qed.

Lemma step_valid st e : multi_valid st -> multi_valid (step st e).
Proof.
  intros Hv. destruct e; [now apply keypress_valid | now apply resize_valid].
Qed.

Lemma trace_valid es st :
  multi_valid st -> Forall multi_valid (Multi.trace RegExp_test readFile es st).
Proof.
  revert st. induction es as [|e es IH]; intros st Hv; cbn; constructor.
  - now apply step_valid.
  - apply IH. now apply step_valid.
Qed.

Lemma run_valid es st :
  multi_valid st -> multi_valid (Multi.run RegExp_test readFile es st).
Proof.
  revert st. induction es as [|e es IH]; intros st Hv; cbn; auto.
  apply IH. now apply step_valid.
Qed.

End MultiFacts.

(** ** The two-column selectors *)

Section TwoColumnFacts.
Import Selection Terminal Props.

Variable RegExp_test : string -> string -> option bool.
Variable readFile : string -> read_result.

Lemma half_bounds n : 1 <= n -> 1 <= JS.ceil_div n 2 <= n.
Proof.
  intros Hn. split; [apply ceil_div_pos; lia|]. unfold JS.ceil_div.
  assert (- n <= (- n) / 2) by (apply Z.div_le_lower_bound; lia). lia.
Qed.

Lemma leftColumn_length st :
  1 <= count (Scroll.sel st) ->
  Z.of_nat (List.length (Scroll.leftColumn st)) = Scroll.midPoint st.
Proof.
  intros Hn. pose proof (half_bounds _ Hn) as Hm.
  unfold Scroll.leftColumn, JS.slice, Scroll.midPoint, count in *.
  rewrite length_firstn. cbn [skipn Z.to_nat]. lia.
Qed.

Lemma rightColumn_length st :
  1 <= count (Scroll.sel st) ->
  Z.of_nat (List.length (Scroll.rightColumn st))
  = count (Scroll.sel st) - Scroll.midPoint st.
Proof.
  intros Hn. pose proof (half_bounds _ Hn) as Hm.
  unfold Scroll.rightColumn, Scroll.midPoint, count in *.
  rewrite length_skipn. lia.
Qed.

Lemma follow_sel row height st :
  Scroll.sel (Scroll.follow row height st) = Scroll.sel st.
Proof.
  unfold Scroll.follow. destruct row as [r|]; [|reflexivity].
  destruct (r <? _); [reflexivity|]. destruct (_ <=? r); reflexivity.
Qed.

(** A redraw of the scrolling variant may pull the cursor back into the
    left column; it never takes it off the items. *)
Lemma scroll_render_valid st :
  in_range (Scroll.sel st) ->
  in_range (Scroll.sel (JS.state_of (Scroll.render RegExp_test st))).
Proof.
  intros (i & Hi & Hr).
  assert (Hin : in_range (Scroll.sel st)) by now exists i.
  assert (Hn : 1 <= count (Scroll.sel st)) by lia.
  pose proof (half_bounds _ Hn) as Hm.
  unfold Scroll.render. cbv zeta.
  set (u := Scroll.updateTerminalDimensions st) in *.
  assert (Hs : Scroll.sel u = Scroll.sel st) by reflexivity.
  assert (Hl : Scroll.leftColumn u = Scroll.leftColumn st) by reflexivity.
  assert (Hrc : Scroll.rightColumn u = Scroll.rightColumn st) by reflexivity.
  assert (Hmid : Scroll.midPoint u = Scroll.midPoint st) by reflexivity.
  clearbody u.
  destruct (Scroll.terminalWidth u - 2 <? 0); [cbn; now rewrite Hs|].
  match goal with
  | |- context [if ?b then JS.Done ?x else JS.Threw ?x] =>
      replace (JS.state_of (if b then JS.Done x else JS.Threw x)) with x
        by (destruct b; reflexivity)
  end.
  cbn [Scroll.sel Scroll.set_visibleStart].
  rewrite Hl, Hrc, Hmid, Hs, leftColumn_length, rightColumn_length by assumption.
  destruct (Scroll.column u).
  - rewrite follow_sel.
    destruct (JS.geb _ _); cbn [Scroll.sel Scroll.set_cursor Scroll.set_sel];
      rewrite ?Hs; auto.
    apply in_range_set_index. fold (Scroll.midPoint st) in Hm. lia.
  - rewrite follow_sel. rewrite Hi. cbn [JS.add JS.geb].
    destruct (_ <=? _) eqn:E; [apply Z.leb_le in E; lia|].
    now rewrite Hs.
Qed.

Lemma scroll_keypress_valid k st :
  in_range (Scroll.sel st) ->
  in_range (Scroll.sel (JS.state_of (Scroll.keypress RegExp_test readFile k st))).
Proof.
  intros (i & Hi & Hr).
  assert (Hin : in_range (Scroll.sel st)) by now exists i.
  assert (Hn : 1 <= count (Scroll.sel st)) by lia.
  pose proof (half_bounds _ Hn) as Hm. fold (Scroll.midPoint st) in Hm.
  unfold Scroll.keypress. cbv zeta. rewrite Hi.
  destruct k.
  - (* up *)
    apply scroll_render_valid.
    destruct (JS.gtb _ _) eqn:E; [|exact Hin].
    cbn in E. apply Z.ltb_lt in E. apply in_range_set_index.
    cbn [Scroll.sel Scroll.set_sel]. destruct (Scroll.column st); lia.
  - (* down *)
    apply scroll_render_valid.
    destruct (Scroll.column st);
      (destruct (JS.ltb _ _) eqn:E; [|exact Hin]);
      cbn in E; apply Z.ltb_lt in E; apply in_range_set_index;
      cbn [Scroll.sel Scroll.set_sel]; lia.
  - (* left *)
    destruct (Scroll.side_eqb _ _); [exact Hin|].
    apply scroll_render_valid. apply in_range_set_index. cbn. lia.
  - (* right *)
    destruct (Scroll.side_eqb _ _); [exact Hin|].
    apply scroll_render_valid. cbn [JS.ltb].
    destruct (i <? Scroll.midPoint st); apply in_range_set_index; cbn; lia.
  - (* space *)
    destruct (space RegExp_test readFile (Scroll.sel st)) as [o|] eqn:Es;
      [|exact Hin].
    apply space_some in Es as (_ & Hix & Hcnt & _).
    assert (Hin' : in_range (JS.state_of o))
      by (exists i; rewrite Hix, Hcnt; auto).
    destruct o as [s|s]; cbn [JS.state_of] in *; auto.
    now apply scroll_render_valid.
  - (* a *)
    destruct (toggleAll_facts RegExp_test readFile (Scroll.sel st))
      as (Hix & Hcnt & _).
    assert (Hin' : in_range
                     (JS.state_of (toggleAll RegExp_test readFile (Scroll.sel st))))
      by (exists i; rewrite Hix, Hcnt; auto).
    destruct (toggleAll _ _ _) as [s|s]; cbn [JS.state_of] in *; auto.
    now apply scroll_render_valid.
Qed.

Lemma scroll_step_valid st e :
  in_range (Scroll.sel st) ->
  in_range (Scroll.sel (Scroll.step RegExp_test readFile st e)).
Proof.
  intros Hv. destruct e; [now apply scroll_keypress_valid|].
  unfold Scroll.step, Scroll.handle, Scroll.resize.
  now apply scroll_render_valid.
Qed.

Lemma scroll_trace_valid es st :
  in_range (Scroll.sel st) ->
  Forall (fun st' => in_range (Scroll.sel st'))
         (Scroll.trace RegExp_test readFile es st).
Proof.
  revert st. induction es as [|e es IH]; intros st Hv; cbn; constructor.
  - now apply scroll_step_valid.
  - apply IH. now apply scroll_step_valid.
Qed.

(** The keys the basic variant handles itself keep the cursor on an item. *)
Lemma basic_keypress_valid k st st' :
  in_range (Basic.sel st) ->
  Basic.keypress RegExp_test readFile k st = Some st' ->
  in_range (Basic.sel st').
Proof.
  intros (i & Hi & Hr).
  assert (Hin : in_range (Basic.sel st)) by now exists i.
  assert (Hn : 1 <= count (Basic.sel st)) by lia.
  pose proof (half_bounds _ Hn) as Hm. fold (Basic.midPoint st) in Hm.
  assert (Hflip : forall col,
    in_range (Basic.sel
      match col with
      | Basic.RightCol =>
          if JS.ltb (if i <? Basic.midPoint st then JS.Num i
                     else JS.Num (i + - Basic.midPoint st))
                    (count (Basic.sel st) - Basic.midPoint st)
          then {| Basic.sel :=
                    set_index
                      (JS.add (if i <? Basic.midPoint st then JS.Num i
                               else JS.Num (i + - Basic.midPoint st))
                              (Basic.midPoint st)) (Basic.sel st);
                  Basic.column := col |}
          else {| Basic.sel := Basic.sel st; Basic.column := col |}
      | Basic.LeftCol =>
          {| Basic.sel :=
               set_index (if i <? Basic.midPoint st then JS.Num i
                          else JS.Num (i + - Basic.midPoint st)) (Basic.sel st);
             Basic.column := col |}
      end)).
  { intros col. destruct (i <? Basic.midPoint st) eqn:E;
      [apply Z.ltb_lt in E | apply Z.ltb_ge in E]; destruct col; cbn [JS.ltb JS.add].
    - apply in_range_set_index. lia.
    - destruct (_ <? _) eqn:E2; [|exact Hin].
      apply Z.ltb_lt in E2. apply in_range_set_index. lia.
    - apply in_range_set_index. lia.
    - destruct (_ <? _) eqn:E2; [|exact Hin].
      apply Z.ltb_lt in E2. apply in_range_set_index. lia. }
  unfold Basic.keypress. cbv zeta. rewrite Hi. cbn [JS.ltb JS.add].
  destruct k; try discriminate.
  - intros [= <-]. apply Hflip.
  - intros [= <-]. apply Hflip.
  - destruct (space RegExp_test readFile (Basic.sel st)) as [o|] eqn:Es;
      [|discriminate].
    intros [= <-]. apply space_some in Es as (_ & Hix & Hcnt & _).
    exists i. cbn. rewrite Hix, Hcnt. auto.
Qed.

End TwoColumnFacts.

(** C3: for a non-empty item list, from a cursor on an item, the cursor's
    linear index stays within [0, itemCount - 1] after each of any finite
    sequence of events.  In the multi-column and in the scrolling variant the
    events are the up, down, left and right keys (and also the space key, the
    [a] key and a resize of the terminal); in the basic variant they are the
    keys the class handles itself, the left, right and space keys, its up
    and down keys being those of the parent class. *)
Theorem cursor_index_stays_in_range :
  (forall RegExp_test readFile es st,
      Props.multi_valid st ->
      Forall (fun st' => Props.in_range (Multi.sel st'))
             (Multi.trace RegExp_test readFile es st))
  /\ (forall RegExp_test readFile es st,
      Props.in_range (Scroll.sel st) ->
      Forall (fun st' => Props.in_range (Scroll.sel st'))
             (Scroll.trace RegExp_test readFile es st))
  /\ (forall RegExp_test readFile k st st',
      Props.in_range (Basic.sel st) ->
      Basic.keypress RegExp_test readFile k st = Some st' ->
      Props.in_range (Basic.sel st')).
Proof.
  split; [|split].
  - intros re rf es st Hv.
    eapply Forall_impl; [|apply trace_valid; exact Hv].
    intros st' H. apply H.
  - intros. now apply scroll_trace_valid.
  - intros. eapply basic_keypress_valid; eauto.
Qed.

(** C3 on seven items in two columns: down, then right, then a resize. *)
Lemma cursor_index_stays_in_range_witness :
  Forall (fun st' => Props.in_range (Multi.sel st'))
    (Multi.trace Regex.test Examples.no_file
       [Terminal.Key Terminal.Down; Terminal.Key Terminal.Right;
        Terminal.Resize Examples.narrow]
       (Multi.construct Examples.seven Examples.wide)).
Proof.
  apply (proj1 cursor_index_stays_in_range).
  split; [exists 0; split; [reflexivity | cbn; lia] | cbn; lia].
Defined.

(** C4, evaluated where it fails.  With one item and a terminal 200 columns
    wide the layout has two columns of one row; the right key moves the
    column marker to column 1, which is empty, while the cursor stays on
    index 0, which is in column 0.  In the basic variant the same key flips
    the marker to the right column and leaves the cursor on the only item,
    in the left column. *)
Theorem column_marker_leaves_cursor_column :
  (let st := Multi.step Regex.test Examples.no_file
               (Multi.start Examples.no_file ["a"] Examples.wide)
               (Terminal.Key Terminal.Right) in
   Selection.index (Multi.sel st) = JS.Num 0
   /\ Multi.itemsPerColumn st = 1
   /\ Multi.currentColumn st = 1
   /\ Multi.currentColumn st <> 0 / Multi.itemsPerColumn st)
  /\ (let st := Basic.construct ["a"] in
      Basic.midPoint st = 1
      /\ Basic.keypress Regex.test Examples.no_file Terminal.Right st
         = Some {| Basic.sel := Basic.sel st;
                   Basic.column := Basic.RightCol |}).
Proof. vm_compute. repeat split; discriminate. Qed.

(** C5, evaluated where it fails.  Seven items, cursor on index 3, right
    key: the multi-column variant with two columns lands on index 6 in
    column 1; the basic variant flips its column marker to the right and
    leaves the cursor on index 3, as row 3 does not exist on the right. *)
Theorem right_key_on_last_row_of_left_column :
  (let st := Multi.run Regex.test Examples.no_file
               [Terminal.Key Terminal.Down; Terminal.Key Terminal.Down;
                Terminal.Key Terminal.Down]
               (Multi.start Examples.no_file Examples.seven Examples.wide) in
   Multi.activeColumns st = 2
   /\ Multi.itemsPerColumn st = 4
   /\ Selection.index (Multi.sel st) = JS.Num 3
   /\ let st' := Multi.step Regex.test Examples.no_file st
                   (Terminal.Key Terminal.Right) in
      Selection.index (Multi.sel st') = JS.Num 6
      /\ Multi.currentColumn st' = 1)
  /\ (Basic.midPoint Examples.basic_at_3 = 4
      /\ Basic.keypress Regex.test Examples.no_file Terminal.Right
           Examples.basic_at_3
         = Some {| Basic.sel := Basic.sel Examples.basic_at_3;
                   Basic.column := Basic.RightCol |}).
Proof. vm_compute. repeat split. Qed.

(** ** Select-all, toggling, resizing *)

Section SessionFacts.
Import Selection Terminal Props.

Variable RegExp_test : string -> string -> option bool.
Variable readFile : string -> read_result.

Local Abbreviation mstep := (Multi.step RegExp_test readFile).

Lemma render_choices st :
  choices (Multi.sel (JS.state_of (Multi.render RegExp_test st)))
  = choices (Multi.sel st).
Proof.
  destruct (render_effect RegExp_test st) as (_ & _ & _ & [H|[_ H]]);
    now rewrite H.
Qed.

Lemma render_tidy st :
  tidy RegExp_test readFile (Multi.sel st) ->
  tidy RegExp_test readFile
    (Multi.sel (JS.state_of (Multi.render RegExp_test st))).
Proof.
  intros Ht. destruct (render_effect RegExp_test st) as (_ & _ & _ & [H|[_ H]]);
    rewrite H; auto. now apply tidy_set_index.
Qed.

Lemma multi_keyA_choices st :
  choices (Multi.sel (mstep st (Key KeyA)))
  = choices (JS.state_of (toggleAll RegExp_test readFile (Multi.sel st))).
Proof.
  unfold Multi.step, Multi.handle, Multi.keypress. cbv zeta.
  destruct (toggleAll _ _ _) as [s|s]; cbn [JS.state_of]; [|reflexivity].
  now rewrite render_choices.
Qed.

Lemma scroll_render_choices st :
  choices (Scroll.sel (JS.state_of (Scroll.render RegExp_test st)))
  = choices (Scroll.sel st).
Proof.
  unfold Scroll.render. cbv zeta.
  set (u := Scroll.updateTerminalDimensions st).
  assert (Hs : Scroll.sel u = Scroll.sel st) by reflexivity.
  clearbody u.
  destruct (Scroll.terminalWidth u - 2 <? 0); [cbn; now rewrite Hs|].
  match goal with
  | |- context [if ?b then JS.Done ?x else JS.Threw ?x] =>
      replace (JS.state_of (if b then JS.Done x else JS.Threw x)) with x
        by (destruct b; reflexivity)
  end.
  cbn [Scroll.sel Scroll.set_visibleStart].
  destruct (Scroll.column u); rewrite follow_sel;
    destruct (JS.geb _ _); cbn; now rewrite Hs.
Qed.

Lemma scroll_keyA_choices st :
  choices (Scroll.sel (Scroll.step RegExp_test readFile st (Key KeyA)))
  = choices (JS.state_of (toggleAll RegExp_test readFile (Scroll.sel st))).
Proof.
  unfold Scroll.step, Scroll.handle, Scroll.keypress. cbv zeta.
  destruct (toggleAll _ _ _) as [s|s]; cbn [JS.state_of]; [|reflexivity].
  now rewrite scroll_render_choices.
Qed.

Lemma forallb_set_enabled b cs :
  cs <> [] -> forallb enabled (map (set_enabled b) cs) = b.
Proof.
  induction cs as [|c cs IH]; [congruence|]. intros _.
  destruct cs as [|c' cs]; cbn in *; [now rewrite andb_true_r|].
  rewrite IH by discriminate. now destruct b.
Qed.

Lemma map_enabled_set_enabled b cs :
  map enabled (map (set_enabled b) cs) = map (fun _ => b) cs.
Proof. rewrite map_map. reflexivity. Qed.

(** Every step keeps the statistics those of the items. *)
Lemma multi_step_tidy st e :
  tidy RegExp_test readFile (Multi.sel st) ->
  tidy RegExp_test readFile (Multi.sel (mstep st e)).
Proof.
  intros Ht. unfold Multi.step, Multi.handle.
  destruct e as [k|size]; [|apply render_tidy; exact Ht].
  unfold Multi.keypress. cbv zeta. destruct k.
  - apply render_tidy. destruct (JS.gtb _ _); auto.
    now apply tidy_set_index.
  - apply render_tidy. destruct (_ && _); auto. now apply tidy_set_index.
  - destruct (0 <? _); auto. apply render_tidy. now apply tidy_set_index.
  - destruct (_ <? _); auto. apply render_tidy. now apply tidy_set_index.
  - destruct (space _ _ _) as [o|] eqn:Es; auto.
    apply space_some in Es as (_ & _ & _ & _ & Ht').
    destruct o as [s|s]; cbn [JS.state_of] in *; auto.
    now apply render_tidy.
  - destruct (toggleAll_facts RegExp_test readFile (Multi.sel st))
      as (_ & _ & _ & Ht').
    destruct (toggleAll _ _ _) as [s|s]; cbn [JS.state_of] in *; auto.
    now apply render_tidy.
Qed.

Lemma multi_run_tidy es st :
  tidy RegExp_test readFile (Multi.sel st) ->
  tidy RegExp_test readFile (Multi.sel (Multi.run RegExp_test readFile es st)).
Proof.
  revert st. induction es as [|e es IH]; intros st Ht; cbn; auto.
  apply IH. now apply multi_step_tidy.
Qed.

Lemma start_tidy filePaths out :
  tidy RegExp_test readFile (Multi.sel (Multi.start readFile filePaths out)).
Proof. apply construct_tidy. Qed.

(** What the space key leaves in the selection, redraw included. *)
Lemma multi_space_sel st o :
  space RegExp_test readFile (Multi.sel st) = Some o ->
  Multi.sel (mstep st (Key Space)) = JS.state_of o.
Proof.
  intros Hs. unfold Multi.step, Multi.handle, Multi.keypress. cbv zeta.
  rewrite Hs. destruct (space_some _ _ _ _ Hs) as ((i & Hi & Hr) & Hix & Hc & _).
  destruct o as [s|s]; cbn [JS.state_of] in *; [|reflexivity].
  apply render_keeps_sel. cbn [Multi.sel Multi.set_sel].
  rewrite Hix, Hc, Hi. cbn. apply Z.leb_gt. lia.
Qed.

Lemma multi_space_none st :
  space RegExp_test readFile (Multi.sel st) = None ->
  mstep st (Key Space) = st.
Proof.
  intros Hs. unfold Multi.step, Multi.handle, Multi.keypress. cbv zeta.
  now rewrite Hs.
Qed.

Lemma multi_space_twice st :
  tidy RegExp_test readFile (Multi.sel st) ->
  Multi.sel (mstep (mstep st (Key Space)) (Key Space)) = Multi.sel st.
Proof.
  intros Ht.
  destruct (space RegExp_test readFile (Multi.sel st)) as [o1|] eqn:E1.
  - destruct (space_twice _ _ _ _ Ht E1) as (o2 & E2 & H2).
    pose proof (multi_space_sel _ _ E1) as H1. rewrite <- H1 in E2.
    rewrite (multi_space_sel _ _ E2). exact H2.
  - now rewrite !(multi_space_none _ E1).
Qed.

Lemma start_valid filePaths out :
  filePaths <> [] -> multi_valid (Multi.start readFile filePaths out).
Proof.
  intros Hne. split; [|split].
  - exists 0. split; [reflexivity|]. cbn. unfold count. cbn.
    rewrite length_map. destruct filePaths; [congruence|]. cbn. lia.
  - cbn. lia.
  - cbn. unfold Multi.maxColumns. lia.
Qed.

End SessionFacts.

(** C2: the [a] key sets every item's flag to the negation of [all items
    are enabled], keeping the items and their order; so from a mix of
    enabled and disabled items the first press enables all and the second
    disables all.  The multi-column and the scrolling variant both leave
    exactly these items after the key. *)
Theorem select_all_is_a_strict_toggle :
  forall RegExp_test readFile (s : Selection.selection),
    let all := forallb Selection.enabled (Selection.choices s) in
    let s1 := JS.state_of (Selection.toggleAll RegExp_test readFile s) in
    let s2 := JS.state_of (Selection.toggleAll RegExp_test readFile s1) in
    (map Selection.name (Selection.choices s1)
     = map Selection.name (Selection.choices s)
     /\ map Selection.enabled (Selection.choices s1)
        = map (fun _ => negb all) (Selection.choices s))
    /\ (existsb Selection.enabled (Selection.choices s) = true ->
        all = false ->
        Selection.choices s1 <> []
        /\ Forall (fun c => Selection.enabled c = true) (Selection.choices s1)
        /\ Forall (fun c => Selection.enabled c = false)
                  (Selection.choices s2))
    /\ (forall st, Multi.sel st = s ->
          Selection.choices
            (Multi.sel (Multi.step RegExp_test readFile st
                          (Terminal.Key Terminal.KeyA)))
          = Selection.choices s1)
    /\ (forall st, Scroll.sel st = s ->
          Selection.choices
            (Scroll.sel (Scroll.step RegExp_test readFile st
                           (Terminal.Key Terminal.KeyA)))
          = Selection.choices s1).
Proof.
  intros re rf s all s1 s2. subst s1 s2.
  rewrite !toggleAll_choices. fold all.
  split; [split|split; [|split]].
  - rewrite map_map. reflexivity.
  - apply map_enabled_set_enabled.
  - intros Hex Hall.
    assert (Hne : Selection.choices s <> []).
    { intros E. rewrite E in Hex. discriminate. }
    rewrite Hall. cbn [negb]. rewrite forallb_set_enabled by
      (destruct (Selection.choices s); [congruence | discriminate]).
    cbn [negb]. split; [|split].
    + destruct (Selection.choices s); [congruence | discriminate].
    + apply Forall_forall. intros c Hc.
      apply in_map_iff in Hc as (c0 & <- & _). reflexivity.
    + apply Forall_forall. intros c Hc.
      apply in_map_iff in Hc as (c0 & <- & _). reflexivity.
  - intros st <-. rewrite multi_keyA_choices. apply toggleAll_choices.
  - intros st <-. rewrite scroll_keyA_choices. apply toggleAll_choices.
Qed.

(** C2 on two items of which the first is enabled. *)
Lemma select_all_is_a_strict_toggle_witness :
  let s1 := JS.state_of
              (Selection.toggleAll Regex.test Examples.no_file Examples.mixed) in
  let s2 := JS.state_of
              (Selection.toggleAll Regex.test Examples.no_file s1) in
  Selection.choices s1 <> []
  /\ Forall (fun c => Selection.enabled c = true) (Selection.choices s1)
  /\ Forall (fun c => Selection.enabled c = false) (Selection.choices s2).
Proof.
  apply (proj1 (proj2 (select_all_is_a_strict_toggle
                         Regex.test Examples.no_file Examples.mixed)));
    reflexivity.
Defined.

(** C6: in every state the multi-column selector reaches from its start
    (ignore file read) by keys and resizes, under one file system and one
    rule set, two presses of the space key flip the flag of the item under
    the cursor and flip it back, and leave the items, the cursor and the
    three statistics (selected count, total characters, ignored-file
    warning) as they were before the two presses.  The handler of the basic
    variant is the same function: pressed twice from a selection whose
    statistics are those of its items, it gives that selection back. *)
Theorem toggling_twice_restores_flag_and_statistics :
  (forall RegExp_test readFile filePaths out es,
      let st := Multi.run RegExp_test readFile es
                  (Multi.start readFile filePaths out) in
      let st1 := Multi.step RegExp_test readFile st
                   (Terminal.Key Terminal.Space) in
      let st2 := Multi.step RegExp_test readFile st1
                   (Terminal.Key Terminal.Space) in
      (forall c,
          JS.index (Selection.choices (Multi.sel st))
                   (Selection.index (Multi.sel st)) = Some c ->
          option_map Selection.enabled
            (JS.index (Selection.choices (Multi.sel st1))
                      (Selection.index (Multi.sel st1)))
          = Some (negb (Selection.enabled c)))
      /\ Selection.choices (Multi.sel st2) = Selection.choices (Multi.sel st)
      /\ Selection.index (Multi.sel st2) = Selection.index (Multi.sel st)
      /\ Selection.selectedFilesCount (Multi.sel st2)
         = Selection.selectedFilesCount (Multi.sel st)
      /\ Selection.totalCharacters (Multi.sel st2)
         = Selection.totalCharacters (Multi.sel st)
      /\ Selection.selectedFilesGitignore (Multi.sel st2)
         = Selection.selectedFilesGitignore (Multi.sel st))
  /\ (forall RegExp_test readFile s o1,
      Props.tidy RegExp_test readFile s ->
      Selection.space RegExp_test readFile s = Some o1 ->
      exists o2,
        Selection.space RegExp_test readFile (JS.state_of o1) = Some o2
        /\ JS.state_of o2 = s).
Proof.
  split; [|intros; now apply space_twice].
  intros re rf filePaths out es st st1 st2.
  assert (Ht : Props.tidy re rf (Multi.sel st))
    by (apply multi_run_tidy, start_tidy).
  assert (H2 : Multi.sel st2 = Multi.sel st)
    by (apply multi_space_twice; exact Ht).
  split; [|rewrite H2; repeat split].
  intros c Hc. subst st1.
  destruct (Selection.index (Multi.sel st)) as [i|] eqn:Ei; [|discriminate].
  cbn [JS.index] in Hc.
  assert (Hs : Selection.space re rf (Multi.sel st)
               = Some (Selection.recompute re rf
                         (Selection.set_choices
                            (Selection.set_nth
                               (Selection.choices (Multi.sel st)) (Z.to_nat i)
                               (Selection.set_enabled
                                  (negb (Selection.enabled c)) c))
                            (Multi.sel st)))).
  { unfold Selection.space, Selection.toggle_at_cursor. now rewrite Ei, Hc. }
  rewrite (multi_space_sel _ _ _ _ Hs).
  rewrite recompute_index, recompute_choices. cbn. rewrite Ei. cbn [JS.index].
  apply index_Z_some in Hc as [Hr Hn]. unfold JS.index_Z.
  destruct (i <? 0) eqn:E; [apply Z.ltb_lt in E; lia|].
  rewrite nth_error_set_nth by lia. reflexivity.
Qed.

(** C6 for the basic variant on one item, nothing enabled yet. *)
Lemma toggling_twice_restores_flag_and_statistics_witness :
  exists o2,
    Selection.space Regex.test Examples.no_file
      (JS.state_of
         (Selection.recompute Regex.test Examples.no_file
            (Selection.set_choices
               [Selection.set_enabled true (Selection.make_choice "a")]
               (Selection.construct ["a"]))))
    = Some o2
    /\ JS.state_of o2 = Selection.construct ["a"].
Proof.
  apply (proj2 toggling_twice_restores_flag_and_statistics
           Regex.test Examples.no_file (Selection.construct ["a"])).
  - reflexivity.
  - reflexivity.
Defined.

(** C9: in every state the multi-column selector reaches from its start
    over a non-empty list, a resize leaves the cursor's linear index, the
    active column and every item's flag as they were (the whole selection in
    fact): it recomputes the layout and redraws. *)
Theorem resize_leaves_cursor_and_selection :
  forall RegExp_test readFile filePaths out es size,
    filePaths <> [] ->
    let st := Multi.run RegExp_test readFile es
                (Multi.start readFile filePaths out) in
    let st' := Multi.step RegExp_test readFile st (Terminal.Resize size) in
    Selection.index (Multi.sel st') = Selection.index (Multi.sel st)
    /\ Multi.currentColumn st' = Multi.currentColumn st
    /\ map Selection.enabled (Selection.choices (Multi.sel st'))
       = map Selection.enabled (Selection.choices (Multi.sel st))
    /\ Multi.sel st' = Multi.sel st
    /\ Multi.stdout st' = size.
Proof.
  intros re rf filePaths out es size Hne st st'.
  assert (Hv : Props.multi_valid st)
    by (apply run_valid, start_valid; exact Hne).
  destruct Hv as (Hr & _ & _).
  subst st'. unfold Multi.step, Multi.handle, Multi.resize.
  destruct (render_effect re
              (Multi.updateTerminalDimensions (Multi.set_stdout size st)))
    as (H1 & H2 & _ & _).
  assert (H3 : Multi.sel
                 (JS.state_of
                    (Multi.render re
                       (Multi.updateTerminalDimensions
                          (Multi.set_stdout size st)))) = Multi.sel st).
  { rewrite render_keeps_sel; [reflexivity|].
    cbn [Multi.sel Multi.updateTerminalDimensions Multi.set_stdout].
    now apply in_range_below. }
  rewrite H3. repeat split; auto.
Qed.

(** C9 on seven items, after a move to the second column, shrinking the
    terminal to 80 columns. *)
Lemma resize_leaves_cursor_and_selection_witness :
  let st := Multi.run Regex.test Examples.no_file
              [Terminal.Key Terminal.Right]
              (Multi.start Examples.no_file Examples.seven Examples.wide) in
  let st' := Multi.step Regex.test Examples.no_file st
               (Terminal.Resize Examples.narrow) in
  Selection.index (Multi.sel st') = Selection.index (Multi.sel st)
  /\ Multi.currentColumn st' = Multi.currentColumn st
  /\ map Selection.enabled (Selection.choices (Multi.sel st'))
     = map Selection.enabled (Selection.choices (Multi.sel st))
  /\ Multi.sel st' = Multi.sel st
  /\ Multi.stdout st' = Examples.narrow.
Proof.
  apply (resize_leaves_cursor_and_selection Regex.test Examples.no_file
           Examples.seven Examples.wide [Terminal.Key Terminal.Right]
           Examples.narrow).
  discriminate.
Defined.

(** ** Drawing an empty list *)

Section EmptyList.
Import Selection Terminal Props.

Lemma slice_nil {A} from to : JS.slice (@nil A) from to = [].
Proof. unfold JS.slice. now rewrite skipn_nil, firstn_nil. Qed.

Lemma columns_of_nil active per :
  Multi.columns_of [] active per = repeat [] (Z.to_nat active).
Proof.
  unfold Multi.columns_of. generalize 0%nat.
  induction (Z.to_nat active) as [|k IH]; intros from; cbn; [reflexivity|].
  now rewrite slice_nil, IH.
Qed.

Lemma max_of_empty_columns k :
  Multi.max_of
    (map (fun col : list choice => Z.of_nat (List.length col)) (repeat [] k))
  = 0.
Proof.
  destruct k as [|k]; [reflexivity|]. cbn.
  induction k as [|k IH]; cbn; auto.
Qed.

Lemma layout_columns_empty st :
  choices (Multi.sel st) = [] ->
  Multi.layout_columns st = repeat [] (Z.to_nat (Multi.activeColumns st)).
Proof.
  intros H. unfold Multi.layout_columns. rewrite H. apply columns_of_nil.
Qed.

Lemma listHeight_empty st :
  choices (Multi.sel st) = [] -> 0 <= Multi.visibleRows st ->
  Multi.listHeight st = 0.
Proof.
  intros H Hv. unfold Multi.listHeight.
  rewrite layout_columns_empty, max_of_empty_columns by assumption. lia.
Qed.

Lemma index_Z_repeat_0 {A} (x : A) k :
  (0 < k)%nat -> JS.index_Z (repeat x k) 0 = Some x.
Proof. destruct k; [lia | reflexivity]. Qed.

Lemma index_Z_nil {A} i : JS.index_Z (@nil A) i = None.
Proof.
  unfold JS.index_Z. destruct (i <? 0); [reflexivity|].
  now destruct (Z.to_nat i).
Qed.

(** The scrolling variant drawing no item: both columns are empty, every
    cell of every row is a placeholder, the scroll offset ends at 0. *)
Lemma scroll_render_empty RegExp_test out :
  2 <= JS.or_default (columns out) 80 ->
  let o := Scroll.render RegExp_test (Scroll.construct [] out) in
  JS.completed o = true
  /\ Scroll.leftColumn (JS.state_of o) = []
  /\ Scroll.rightColumn (JS.state_of o) = []
  /\ Scroll.listHeight (JS.state_of o)
     = Z.max 1 (JS.or_default (rows out) 24 - 4)
  /\ Scroll.visibleStart (JS.state_of o) = 0.
Proof.
  intros Hw o.
  set (u := Scroll.updateTerminalDimensions (Scroll.construct [] out)).
  set (h := Z.max 1 (JS.or_default (rows out) 24 - 2 - 2)).
  assert (Ho : o = JS.Done
                     (Scroll.set_visibleStart 0
                        (Scroll.set_visibleStart (-1)
                           (Scroll.set_cursor (JS.Num (-1)) u)))).
  { subst o. unfold Scroll.render. cbv zeta. fold u.
    replace (Scroll.terminalWidth u - 2 <? 0) with false
      by (symmetry; apply Z.ltb_ge;
          change (Scroll.terminalWidth u) with (JS.or_default (columns out) 80);
          lia).
    change (Scroll.column u) with Scroll.LeftCol. cbv iota.
    change (Scroll.leftColumn u) with (@nil choice).
    change (Scroll.rightColumn u) with (@nil choice).
    change (Scroll.listHeight u) with h.
    cbn [List.length Z.of_nat].
    change (JS.geb (index (Scroll.sel u)) 0) with true. cbv iota.
    change (0 - 1) with (-1).
    change (Scroll.follow
              (index (Scroll.sel (Scroll.set_cursor (JS.Num (-1)) u))) h
              (Scroll.set_cursor (JS.Num (-1)) u))
      with (Scroll.set_visibleStart (-1) (Scroll.set_cursor (JS.Num (-1)) u)).
    change (Scroll.visibleStart
              (Scroll.set_visibleStart (-1)
                 (Scroll.set_cursor (JS.Num (-1)) u))) with (-1).
    replace (Z.max 0 (Z.min (-1) (Z.max 0 0 - h))) with 0 by lia.
    replace (Scroll.rows_draw RegExp_test _) with true; [reflexivity|].
    symmetry. unfold Scroll.rows_draw. apply forallb_forall. intros i _.
    change (Scroll.leftColumn _) with (@nil choice).
    change (Scroll.rightColumn _) with (@nil choice).
    now rewrite !index_Z_nil. }
  rewrite Ho. cbn [JS.completed JS.state_of].
  repeat split. unfold Scroll.listHeight.
  change (Scroll.terminalHeight _) with (JS.or_default (rows out) 24).
  lia.
Qed.

End EmptyList.

(** C8, as stated, fails.  With no item: on a terminal one column wide the
    redraw throws (the border is repeated [-1] times), in both variants with
    a border; on an 80 by 24 terminal the redraw puts the cursor on index
    [-1] and takes the remainder by an [itemsPerColumn] of 0, which is NaN;
    on a terminal 200 columns wide the layout has two columns, and no row is
    drawn. *)
Lemma render_without_items_counterexample :
  JS.completed
    (Multi.render Regex.test
       (Multi.start Examples.no_file [] Examples.one_by_one)) = false
  /\ JS.completed
       (Scroll.render Regex.test
          (Scroll.construct [] Examples.one_by_one)) = false
  /\ (let st := JS.state_of
                  (Multi.render Regex.test
                     (Multi.start Examples.no_file [] Examples.narrow)) in
      Selection.index (Multi.sel st) = JS.Num (-1)
      /\ Multi.itemsPerColumn st = 0
      /\ Multi.localIndex st = JS.NaN)
  /\ Selection.index
       (Scroll.sel
          (JS.state_of
             (Scroll.render Regex.test
                (Scroll.construct [] Examples.narrow)))) = JS.Num (-1)
  /\ (let st := JS.state_of
                  (Multi.render Regex.test
                     (Multi.start Examples.no_file [] Examples.wide)) in
      Multi.activeColumns st = 2 /\ Multi.listHeight st = 0).
Proof. vm_compute. repeat split. Qed.

(** C8, amended: with no item and a terminal at least two columns wide, of
    any height down to one row, the first redraw of the multi-column
    selector completes without throwing.  It lays out
    [min 5 (max 1 (floor (width / 100)))] columns, a single one below 200
    columns of width, all of them empty; [visibleRows] is
    [max 1 (height - 4)], at least 1, while the number of item rows drawn is
    0; the scroll offset stays 0.  The first redraw of the scrolling variant
    completes as well: its two columns are empty, it draws
    [max 1 (height - 4)] rows of placeholders, and its scroll offset ends
    at 0. *)
Theorem render_without_items :
  forall RegExp_test readFile out,
    let w := JS.or_default (Terminal.columns out) 80 in
    let h := JS.or_default (Terminal.rows out) 24 in
    2 <= w ->
    let o := Multi.render RegExp_test (Multi.start readFile [] out) in
    let st' := JS.state_of o in
    JS.completed o = true
    /\ Multi.activeColumns st' = Z.min 5 (Z.max 1 (w / 100))
    /\ (w < 200 -> Multi.activeColumns st' = 1)
    /\ Multi.layout_columns st'
       = repeat [] (Z.to_nat (Multi.activeColumns st'))
    /\ Multi.visibleRows st' = Z.max 1 (h - 4)
    /\ 1 <= Multi.visibleRows st'
    /\ Multi.listHeight st' = 0
    /\ Multi.visibleStart st' = 0
    /\ (let o2 := Scroll.render RegExp_test (Scroll.construct [] out) in
        JS.completed o2 = true
        /\ Scroll.leftColumn (JS.state_of o2) = []
        /\ Scroll.rightColumn (JS.state_of o2) = []
        /\ Scroll.listHeight (JS.state_of o2) = Z.max 1 (h - 4)
        /\ Scroll.visibleStart (JS.state_of o2) = 0).
Proof.
  intros re rf out w h Hw o st'.
  set (st := Multi.start rf [] out) in *.
  set (u := Multi.updateTerminalDimensions st).
  assert (Hc : Selection.choices (Multi.sel u) = []) by reflexivity.
  assert (Ha : Multi.activeColumns u = Z.min 5 (Z.max 1 (w / 100)))
    by reflexivity.
  assert (Hv : Multi.visibleRows u = Z.max 1 (h - 4)) by reflexivity.
  assert (Hh : Multi.listHeight u = 0) by (apply listHeight_empty; auto; lia).
  assert (Hlay : Multi.layout_columns u
                 = repeat [] (Z.to_nat (Multi.activeColumns u)))
    by now apply layout_columns_empty.
  assert (Ho : o = JS.Done
                     (Multi.set_visibleStart 0
                        (Multi.set_cursor (JS.Num (-1)) u))).
  { subst o. unfold Multi.render. cbv zeta. fold u.
    replace (Multi.terminalWidth u - 2 <? 0) with false
      by (symmetry; apply Z.ltb_ge; change (Multi.terminalWidth u) with w; lia).
    rewrite Hlay.
    change (Multi.currentColumn u) with 0.
    rewrite index_Z_repeat_0 by (rewrite Ha; lia).
    rewrite Hh.
    change (JS.geb (Selection.index (Multi.sel u))
                   (Selection.count (Multi.sel u))) with true.
    cbv iota.
    change (Selection.count (Multi.sel u) - 1) with (-1).
    change (Multi.localIndex (Multi.set_cursor (JS.Num (-1)) u)) with JS.NaN.
    cbv iota.
    change (Multi.visibleStart (Multi.set_cursor (JS.Num (-1)) u)) with 0.
    change (Z.max 0 (Z.min 0 (Z.of_nat (List.length (@nil Selection.choice)) - 0)))
      with 0.
    replace (Multi.rows_draw re
               (Multi.set_visibleStart 0 (Multi.set_cursor (JS.Num (-1)) u)))
      with true; [reflexivity|].
    unfold Multi.rows_draw.
    change (Multi.listHeight
              (Multi.set_visibleStart 0 (Multi.set_cursor (JS.Num (-1)) u)))
      with (Multi.listHeight u).
    rewrite Hh. reflexivity. }
  subst st'. rewrite Ho. cbn [JS.state_of JS.completed].
  set (st2 := Multi.set_visibleStart 0 (Multi.set_cursor (JS.Num (-1)) u)).
  assert (Ea : Multi.activeColumns st2 = Z.min 5 (Z.max 1 (w / 100)))
    by exact Ha.
  assert (Ev : Multi.visibleRows st2 = Z.max 1 (h - 4)) by exact Hv.
  assert (Ec : Selection.choices (Multi.sel st2) = []) by exact Hc.
  assert (Es : Multi.visibleStart st2 = 0) by reflexivity.
  clearbody st2.
  split; [reflexivity|]. split; [exact Ea|].
  split; [intros Hlt; rewrite Ea;
          assert (w / 100 < 2) by (apply Z.div_lt_upper_bound; lia); lia|].
  split; [now apply layout_columns_empty|].
  split; [exact Ev|]. split; [rewrite Ev; lia|].
  split; [apply listHeight_empty; [exact Ec|]; rewrite Ev; lia|].
  split; [exact Es|].
  apply scroll_render_empty. exact Hw.
Qed.

(** C8 amended, on the smallest terminal it covers: one row of two
    columns. *)
Lemma render_without_items_witness :
  let o := Multi.render Regex.test
             (Multi.start Examples.no_file [] Examples.one_by_two) in
  JS.completed o = true
  /\ Multi.activeColumns (JS.state_of o) = 1
  /\ Multi.listHeight (JS.state_of o) = 0.
Proof.
  pose proof (render_without_items Regex.test Examples.no_file
                Examples.one_by_two ltac:(cbn; lia)) as H.
  cbv zeta in H. destruct H as (H1 & H2 & _ & _ & _ & _ & H7 & _).
  split; [exact H1|]. split; [exact H2 | exact H7].
Defined.

(** ** The minifier *)

Section MinifyFacts.
Import Minify.

Ltac each_ascii a :=
  destruct a as [[|] [|] [|] [|] [|] [|] [|] [|]].

(** A blank is written as it is; any other character is written as one or
    more characters of which none is white space. *)
Lemma quote_char_blank a :
  is_blank a = true ->
  quote_char a = String a EmptyString /\ JS.is_space a = true.
Proof. each_ascii a; vm_compute; intros H; try discriminate; auto. Qed.

Lemma quote_char_other_check a :
  is_blank a = false ->
  match quote_char a with
  | String c t => none_space (String c t)
  | EmptyString => false
  end = true.
Proof. each_ascii a; vm_compute; intros H; try discriminate; reflexivity. Qed.

Lemma quote_char_other a :
  is_blank a = false ->
  exists c t, quote_char a = String c t
              /\ none_space (String c t) = true.
Proof.
  intros H. apply quote_char_other_check in H.
  destruct (quote_char a) as [|c t]; [discriminate|]. now exists c, t.
Qed.

Lemma collapse_none_space P b c t rest :
  (forall a, P a = JS.is_space a) ->
  none_space (String c t) = true ->
  collapse P b (String c t ++ rest) = String c t ++ collapse P false rest.
Proof.
  intros HP. revert b c. induction t as [|d t IH]; intros b c H;
    cbn [none_space] in H; apply andb_true_iff in H as [Hc Ht];
    apply negb_true_iff in Hc; cbn [append collapse]; rewrite HP, Hc.
  - reflexivity.
  - f_equal. apply (IH false d). exact Ht.
Qed.

Lemma quote_body_app s t : quote_body (s ++ t) = quote_body s ++ quote_body t.
Proof.
  induction s as [|a s IH]; [reflexivity|]. cbn [append quote_body].
  rewrite IH. now rewrite string_app_assoc.
Qed.

(** The replacement seen through the quoting: the runs of white space in a
    quoted string are the runs of blanks of the string. *)
Lemma collapse_quote_body b s rest :
  collapse JS.is_space b (quote_body s ++ rest)
  = quote_body (collapse is_blank b s)
    ++ collapse JS.is_space (run_after b s) rest.
Proof.
  revert b. induction s as [|a s IH]; intros b; [reflexivity|].
  cbn [quote_body run_after]. rewrite string_app_assoc.
  destruct (is_blank a) eqn:E.
  - destruct (quote_char_blank a E) as [-> Hs].
    cbn [append collapse]. rewrite E, Hs. destruct b.
    + apply IH.
    + cbn [quote_body]. rewrite IH. reflexivity.
  - destruct (quote_char_other a E) as (c & t & Hq & Hn).
    cbn [collapse]. rewrite E. cbn [quote_body]. rewrite Hq.
    rewrite collapse_none_space by auto.
    rewrite IH. now rewrite string_app_assoc.
Qed.

Lemma collapse_quote b s rest :
  collapse JS.is_space b (quote s ++ rest)
  = quote (squeeze s) ++ collapse JS.is_space false rest.
Proof.
  unfold quote, squeeze. cbn [append collapse].
  change (JS.is_space dquote) with false. cbv iota. f_equal.
  rewrite string_app_assoc. rewrite collapse_quote_body.
  rewrite string_app_assoc. f_equal.
Qed.

Lemma collapse_member b kv rest :
  collapse JS.is_space b (member_text kv ++ rest)
  = member_text (squeeze_member kv) ++ collapse JS.is_space false rest.
Proof.
  unfold member_text, squeeze_member. cbn [fst snd].
  rewrite !string_app_assoc. rewrite collapse_quote.
  cbn [append collapse]. change (JS.is_space ":") with false. cbv iota.
  rewrite collapse_quote. reflexivity.
Qed.

Lemma collapse_members b ms rest :
  ms <> [] ->
  collapse JS.is_space b (members_text ms ++ rest)
  = members_text (map squeeze_member ms) ++ collapse JS.is_space false rest.
Proof.
  revert b. induction ms as [|kv ms IH]; intros b Hne; [congruence|].
  destruct ms as [|kv' ms].
  - cbn [members_text map]. apply collapse_member.
  - change (members_text (kv :: kv' :: ms))
      with (member_text kv ++ String "," (members_text (kv' :: ms))).
    change (members_text (map squeeze_member (kv :: kv' :: ms)))
      with (member_text (squeeze_member kv)
            ++ String "," (members_text (map squeeze_member (kv' :: ms)))).
    rewrite !string_app_assoc. rewrite collapse_member.
    cbn [append collapse]. change (JS.is_space ",") with false. cbv iota.
    rewrite IH by discriminate. reflexivity.
Qed.

(** The text written is the serialization of the object whose paths and
    contents have each run of blanks replaced by one space. *)
Lemma minify_stringify (o : object) :
  minify (JSON_stringify o) = JSON_stringify (map squeeze_member o).
Proof.
  unfold minify, JSON_stringify. cbn [collapse].
  change (JS.is_space "{") with false. cbv iota. f_equal.
  destruct o as [|kv o]; [reflexivity|].
  rewrite collapse_members by discriminate. reflexivity.
Qed.

(** *** Reading the text back *)

Lemma parse_chars_quote_char a rest :
  parse_chars (quote_char a ++ rest) = push a (parse_chars rest).
Proof. each_ascii a; reflexivity. Qed.

Lemma parse_chars_quote_body s rest :
  parse_chars (quote_body s ++ String dquote rest) = Some (s, rest).
Proof.
  induction s as [|a s IH]; [reflexivity|].
  cbn [quote_body]. rewrite string_app_assoc.
  rewrite parse_chars_quote_char, IH. reflexivity.
Qed.

Lemma parse_string_quote s rest :
  parse_string (quote s ++ rest) = Some (s, rest).
Proof.
  unfold quote. cbn [append parse_string]. rewrite Ascii.eqb_refl.
  rewrite string_app_assoc. apply parse_chars_quote_body.
Qed.

Lemma parse_member_text kv rest :
  parse_member (member_text kv ++ rest) = Some (kv, rest).
Proof.
  unfold parse_member, member_text. rewrite string_app_assoc.
  rewrite parse_string_quote. cbn [append]. rewrite parse_string_quote.
  now destruct kv.
Qed.

Lemma parse_members_text ms fuel :
  ms <> [] -> (List.length ms <= fuel)%nat ->
  parse_members fuel (members_text ms ++ "}") = Some ms.
Proof.
  revert fuel. induction ms as [|kv ms IH]; intros fuel Hne Hf; [congruence|].
  destruct fuel as [|fuel]; [cbn in Hf; lia|].
  destruct ms as [|kv' ms].
  - cbn [members_text parse_members]. rewrite parse_member_text. reflexivity.
  - change (members_text (kv :: kv' :: ms))
      with (member_text kv ++ String "," (members_text (kv' :: ms))).
    cbn [parse_members]. rewrite string_app_assoc.
    rewrite parse_member_text. cbn [append].
    rewrite IH; [reflexivity | discriminate | cbn in *; lia].
Qed.

Lemma members_text_length ms :
  (List.length ms <= String.length (members_text ms))%nat.
Proof.
  induction ms as [|kv ms IH]; [cbn; lia|].
  destruct ms as [|kv' ms].
  - cbn [members_text List.length]. unfold member_text, quote.
    cbn [append String.length]. lia.
  - change (members_text (kv :: kv' :: ms))
      with (member_text kv ++ String "," (members_text (kv' :: ms))).
    rewrite string_app_length. cbn [String.length List.length] in *. lia.
Qed.

(** Parsing a serialization gives its members back: the parser reads what
    [JSON_stringify] writes. *)
Lemma parse_text_stringify (o : object) :
  parse_text (JSON_stringify o) = Some o.
Proof.
  destruct o as [|kv o]; [reflexivity|].
  unfold JSON_stringify.
  assert (H : exists t, members_text (kv :: o) ++ "}" = String dquote t).
  { destruct o; cbn [members_text]; unfold member_text, quote;
      cbn [append]; eexists; reflexivity. }
  destruct H as (t & Ht). unfold parse_text. rewrite Ht.
  cbv beta iota. rewrite <- Ht.
  apply parse_members_text; [discriminate|].
  rewrite string_app_length. pose proof (members_text_length (kv :: o)).
  lia.
Qed.

(** *** What parsing the written file returns *)

Lemma obj_set_In k v o kv :
  In kv (obj_set k v o) -> kv = (k, v) \/ In kv o.
Proof.
  induction o as [|[k' v'] o IH]; cbn [obj_set];
    [cbn; intuition (subst; auto)|].
  destruct (String.eqb k k'); [cbn; intuition (subst; auto)|].
  destruct (precedes k k'); [cbn; intuition (subst; auto)|].
  cbn. intros [H|H]; [tauto|]. destruct (IH H); tauto.
Qed.

Lemma assemble_In ms kv : In kv (assemble ms) -> In kv ms.
Proof.
  unfold assemble.
  assert (G : forall o, In kv (fold_left
                 (fun o kv => obj_set (fst kv) (snd kv) o) ms o) ->
               In kv o \/ In kv ms).
  { induction ms as [|[k v] ms IH]; intros o; cbn [fold_left]; [tauto|].
    intros H. destruct (IH _ H) as [H'|H']; [|cbn; tauto].
    cbn [fst snd] in H'. destruct (obj_set_In _ _ _ _ H'); cbn; auto. }
  intros H. destruct (G [] H); [contradiction | assumption].
Qed.

Lemma obj_get_In k v o : obj_get k o = Some v -> In (k, v) o.
Proof.
  induction o as [|[k' v'] o IH]; cbn [obj_get]; [discriminate|].
  destruct (String.eqb k k') eqn:E.
  - apply String.eqb_eq in E. intros [= ->]. subst. now left.
  - intros H. right. auto.
Qed.

Lemma has_run_cons P a s :
  has_run P (String a s) = (P a && head_in P s) || has_run P s.
Proof. destruct s; cbn; [now rewrite andb_false_r | reflexivity]. Qed.

(** After the replacement no two characters of the class are adjacent: a
    replaced run is one space, and what follows it is outside the class. *)
Lemma collapse_no_run P s :
  P " "%char = true ->
  forall b,
    has_run P (collapse P b s) = false
    /\ (b = true -> head_in P (collapse P b s) = false).
Proof.
  intros Hsp. induction s as [|a s IH]; intros b; [cbn; auto|].
  cbn [collapse]. destruct (P a) eqn:E.
  - destruct b.
    + apply IH.
    + destruct (IH true) as [H1 H2]. split; [|discriminate].
      rewrite has_run_cons, H1, (H2 eq_refl). now rewrite andb_false_r.
  - destruct (IH false) as [H1 _]. split; [|intros _; exact E].
    rewrite has_run_cons, H1, E. reflexivity.
Qed.

Lemma squeeze_no_run s : has_run is_blank (squeeze s) = false.
Proof. apply (collapse_no_run is_blank s eq_refl false). Qed.

(** The replacement leaves every character outside the class in place. *)
Lemma collapse_keeps_others P s :
  P " "%char = true ->
  forall b,
    string_filter (fun a => negb (P a)) (collapse P b s)
    = string_filter (fun a => negb (P a)) s.
Proof.
  intros Hsp. induction s as [|a s IH]; intros b; [reflexivity|].
  cbn [collapse string_filter]. destruct (P a) eqn:E; cbn [negb].
  - destruct b; [apply IH|]. cbn [string_filter]. rewrite Hsp. cbn [negb].
    apply IH.
  - cbn [string_filter]. rewrite E. cbn [negb]. f_equal. apply IH.
Qed.

Lemma has_run_weaken (P Q : ascii -> bool) s :
  (forall a, P a = true -> Q a = true) ->
  has_run P s = true -> has_run Q s = true.
Proof.
  intros HPQ. induction s as [|a s IH]; [discriminate|].
  rewrite !has_run_cons. intros H. apply orb_true_iff in H as [H|H].
  - apply andb_true_iff in H as [Ha Hb]. rewrite (HPQ _ Ha).
    destruct s as [|b s]; [discriminate|]. cbn in *. now rewrite (HPQ _ Hb).
  - rewrite (IH H). apply orb_true_r.
Qed.

End MinifyFacts.

Section ReadFilesFacts.
Import Minify Selection.

Variable readFile : string -> read_result.

Lemma obj_get_set_same k v o : obj_get k (obj_set k v o) = Some v.
Proof.
  induction o as [|[k' v'] o IH]; cbn [obj_set obj_get].
  - now rewrite String.eqb_refl.
  - destruct (String.eqb k k') eqn:E.
    + cbn [obj_get]. now rewrite String.eqb_refl.
    + destruct (precedes k k'); cbn [obj_get].
      * now rewrite String.eqb_refl.
      * now rewrite E.
Qed.

Lemma obj_get_set_other k k2 v o :
  k2 <> k -> obj_get k2 (obj_set k v o) = obj_get k2 o.
Proof.
  intros Hne. apply String.eqb_neq in Hne.
  induction o as [|[k' v'] o IH]; cbn [obj_set obj_get].
  - now rewrite Hne.
  - destruct (String.eqb k k') eqn:E.
    + apply String.eqb_eq in E. subst k'. cbn [obj_get]. now rewrite Hne.
    + destruct (precedes k k'); cbn [obj_get].
      * now rewrite Hne.
      * now rewrite IH.
Qed.

Lemma obj_get_assign_same k v o :
  k <> "__proto__" -> obj_get k (assign k v o) = Some v.
Proof.
  intros Hk. apply String.eqb_neq in Hk. unfold assign. rewrite Hk.
  apply obj_get_set_same.
Qed.

Lemma obj_get_assign_other k k2 v o :
  k2 <> k -> obj_get k2 (assign k v o) = obj_get k2 o.
Proof.
  intros Hne. unfold assign. destruct (String.eqb k "__proto__");
    [reflexivity | now apply obj_get_set_other].
Qed.

(** A selected file that can be read is in the object under its path. *)
Lemma readFiles_from_get path content filePaths code :
  path <> "__proto__" ->
  readFile path = ReadOk content ->
  obj_get path code = Some content \/ In path filePaths ->
  obj_get path (readFiles_from readFile code filePaths) = Some content.
Proof.
  intros Hp Hread. revert code.
  induction filePaths as [|p ps IH]; intros code H; cbn [readFiles_from].
  - destruct H as [H|[]]; exact H.
  - destruct (string_dec p path) as [->|Hne].
    + rewrite Hread. apply IH. left. now apply obj_get_assign_same.
    + destruct (readFile p) as [c|? ?]; apply IH;
        (destruct H as [H|[H|H]]; [left | congruence | right; exact H]).
      * rewrite obj_get_assign_other by congruence. exact H.
      * exact H.
Qed.

Lemma readFiles_get path content filePaths :
  path <> "__proto__" ->
  In path filePaths -> readFile path = ReadOk content ->
  obj_get path (readFiles readFile filePaths) = Some content.
Proof. intros Hp Hin Hread. apply readFiles_from_get; auto. Qed.

End ReadFilesFacts.

(** C10: the text written to [project-code.min.json] is the serialization
    of the path-to-content object with every maximal run of white space
    replaced by one space, so no two white-space characters are adjacent in
    it.  Blanks reach the serialization unescaped, so the text is the
    serialization of the object whose paths and contents have each run of
    blanks squeezed to one space, and that object is what parsing the file
    returns.  Hence a selected, readable file whose content has two
    consecutive spaces is not found with that content in the parsed file,
    and the parsed file is not the object that was serialized.  Every
    character that is not a blank, a line feed or a tab among them, stays
    in the content as it was. *)
Theorem minified_file_squeezes_spaces :
  forall readFile selectedFiles,
    let code := Minify.readFiles readFile selectedFiles in
    let written := Minify.minifyAndSave readFile selectedFiles in
    written = Minify.minify (Minify.JSON_stringify code)
    /\ Minify.has_run JS.is_space written = false
    /\ written = Minify.JSON_stringify (map Minify.squeeze_member code)
    /\ Minify.JSON_parse (Minify.JSON_stringify code)
       = Some (Minify.assemble code)
    /\ Minify.JSON_parse written
       = Some (Minify.assemble (map Minify.squeeze_member code))
    /\ (forall content,
          Minify.has_run Minify.is_blank (Minify.squeeze content) = false
          /\ Minify.string_filter (fun a => negb (Minify.is_blank a))
               (Minify.squeeze content)
             = Minify.string_filter (fun a => negb (Minify.is_blank a))
                 content)
    /\ (forall path content,
          In path selectedFiles ->
          path <> "__proto__" ->
          readFile path = Selection.ReadOk content ->
          Minify.has_run (Ascii.eqb " ") content = true ->
          Minify.obj_get path code = Some content
          /\ (forall parsed,
                Minify.JSON_parse written = Some parsed ->
                Minify.obj_get path parsed <> Some content)
          /\ Minify.JSON_parse written <> Some code).
Proof.
  intros rf files code written.
  assert (Hw : written = Minify.JSON_stringify (map Minify.squeeze_member code))
    by apply minify_stringify.
  assert (Hp : Minify.JSON_parse written
               = Some (Minify.assemble (map Minify.squeeze_member code))).
  { rewrite Hw. unfold Minify.JSON_parse.
    now rewrite parse_text_stringify. }
  assert (Hneq : forall path content parsed,
             Minify.has_run (Ascii.eqb " ") content = true ->
             Minify.JSON_parse written = Some parsed ->
             Minify.obj_get path parsed <> Some content).
  { intros path content parsed Hrun Hparsed Hget.
    rewrite Hp in Hparsed. injection Hparsed as <-.
    apply obj_get_In, assemble_In, in_map_iff in Hget as ([k v] & E & _).
    injection E as _ E. cbn [snd] in E.
    assert (Hb : Minify.has_run Minify.is_blank content = true).
    { apply (has_run_weaken (Ascii.eqb " ")); [|exact Hrun].
      intros a Ha. apply Ascii.eqb_eq in Ha. now subst a. }
    rewrite <- E, squeeze_no_run in Hb. discriminate. }
  split; [reflexivity|].
  split; [apply (collapse_no_run JS.is_space _ eq_refl false)|].
  split; [exact Hw|].
  split; [unfold Minify.JSON_parse; now rewrite parse_text_stringify|].
  split; [exact Hp|].
  split.
  - intros content. split; [apply squeeze_no_run|].
    apply (collapse_keeps_others Minify.is_blank content eq_refl).
  - intros path content Hin Hproto Hread Hrun.
    assert (Hget : Minify.obj_get path code = Some content)
      by now apply readFiles_get.
    split; [exact Hget|]. split; [intros parsed; now apply Hneq|].
    intros Hparsed. exact (Hneq path content code Hrun Hparsed Hget).
Qed.

(** C10 on one file whose content is [x], two spaces, [y], a line feed,
    [z]. *)
Lemma minified_file_squeezes_spaces_witness :
  Minify.obj_get "a.txt" (Minify.readFiles Examples.one_file ["a.txt"])
  = Some Examples.spaced
  /\ (forall parsed,
        Minify.JSON_parse (Minify.minifyAndSave Examples.one_file ["a.txt"])
        = Some parsed ->
        Minify.obj_get "a.txt" parsed <> Some Examples.spaced)
  /\ Minify.JSON_parse (Minify.minifyAndSave Examples.one_file ["a.txt"])
     <> Some (Minify.readFiles Examples.one_file ["a.txt"]).
Proof.
  apply (proj2 (proj2 (proj2 (proj2 (proj2 (proj2
           (minified_file_squeezes_spaces Examples.one_file ["a.txt"])))))));
    [left; reflexivity | discriminate | reflexivity | reflexivity].
Defined.

(** The same file, evaluated: the two spaces become one, the escaped line
    feed is written and read back as it was. *)
Example minified_one_file :
  Minify.JSON_parse (Minify.minifyAndSave Examples.one_file ["a.txt"])
  = Some [("a.txt", "x y" ++ String Regex.LF "z")].
Proof. vm_compute. reflexivity. Qed.

(** ** Ignore rules as globs *)

Section GlobFacts.
Import Glob.

Lemma replace_all_app c by_ s t :
  JS.replace_all c by_ (s ++ t)
  = JS.replace_all c by_ s ++ JS.replace_all c by_ t.
Proof.
  induction s as [|a s IH]; [reflexivity|]. cbn [append JS.replace_all].
  destruct (Ascii.eqb a c); rewrite IH; [now rewrite string_app_assoc|].
  reflexivity.
Qed.

(** The two replacements, character by character. *)
Lemma regexSource_translate rule :
  Selection.regexSource rule = "^" ++ translate rule ++ "$".
Proof.
  unfold Selection.regexSource. do 2 f_equal.
  induction rule as [|c rule IH]; [reflexivity|].
  cbn [JS.replace_all translate]. unfold translate_char.
  destruct (Ascii.eqb c ".") eqn:Ed.
  - rewrite replace_all_app, IH. reflexivity.
  - cbn [JS.replace_all]. destruct (Ascii.eqb c "*"); now rewrite IH.
Qed.

Lemma strip_anchors_source body :
  Regex.strip_anchors ("^" ++ body ++ "$") = Some body.
Proof.
  cbn. induction body as [|a body IH]; [reflexivity|].
  cbn [append]. rewrite IH. cbn [option_map].
  destruct a as [[|] [|] [|] [|] [|] [|] [|] [|]];
    try reflexivity; destruct body; reflexivity.
Qed.

Lemma rule_char_cases c :
  rule_char c = true ->
  Ascii.eqb c "\" = false
  /\ (Ascii.eqb c "." = false -> Ascii.eqb c "*" = false ->
      Regex.is_syntax_char c = false).
Proof.
  destruct c as [[|] [|] [|] [|] [|] [|] [|] [|]]; vm_compute;
    intros H; try discriminate; split; auto.
Qed.

Lemma lex_translate rule :
  rule_ok rule = true ->
  Regex.lex (translate rule) = Some (tokens_of rule).
Proof.
  induction rule as [|c rule IH]; [reflexivity|].
  cbn [rule_ok]. intros H. apply andb_true_iff in H as [Hc Hr].
  specialize (IH Hr). destruct (rule_char_cases c Hc) as [Hb Hs].
  cbn [translate tokens_of]. unfold translate_char, tokens_of_char.
  destruct (Ascii.eqb c ".") eqn:Ed.
  - apply Ascii.eqb_eq in Ed. subst c. cbn. rewrite IH. reflexivity.
  - destruct (Ascii.eqb c "*") eqn:Es.
    + apply Ascii.eqb_eq in Es. subst c. cbn. rewrite IH. reflexivity.
    + cbn [append Regex.lex]. rewrite Hb, Ed, Es, (Hs eq_refl eq_refl), IH.
      reflexivity.
Qed.

Lemma tokens_of_head rule :
  match tokens_of rule with
  | Regex.TStar :: _ => False
  | _ => True
  end.
Proof.
  destruct rule as [|c rule]; [exact I|]. cbn [tokens_of].
  unfold tokens_of_char. destruct (Ascii.eqb c "*"); exact I.
Qed.

Lemma group_tokens rule :
  Regex.group (tokens_of rule) = Some (pieces_of rule).
Proof.
  induction rule as [|c rule IH]; [reflexivity|].
  cbn [tokens_of pieces_of]. unfold tokens_of_char, piece_of_char.
  destruct (Ascii.eqb c "*").
  - cbn. now rewrite IH.
  - pose proof (tokens_of_head rule) as Hh. cbn [app Regex.group].
    destruct (tokens_of rule) as [|[a|] ts]; [| |contradiction];
      rewrite IH; reflexivity.
Qed.

Lemma parse_rule rule :
  rule_ok rule = true ->
  Regex.parse (Selection.regexSource rule) = Some (pieces_of rule).
Proof.
  intros H. unfold Regex.parse.
  rewrite regexSource_translate, strip_anchors_source, (lex_translate _ H).
  apply group_tokens.
Qed.

End GlobFacts.

Section GlobMatching.
Import Glob.

Lemma matches_star a r s :
  Regex.matches (Regex.Star a :: r) s
  = Regex.matches r s
    || match s with
       | String c s' =>
           Regex.atom_matches a c && Regex.matches (Regex.Star a :: r) s'
       | EmptyString => false
       end.
Proof. destruct s; reflexivity. Qed.

Lemma any_matches c :
  Regex.atom_matches Regex.AnyChar c = negb (line_terminator c).
Proof. reflexivity. Qed.

Lemma matches_pieces_glob rule :
  forall path,
    Regex.matches (pieces_of rule) path = true <-> glob rule path.
Proof.
  induction rule as [|c rule IH]; intros path.
  - cbn. split.
    + destruct path; [constructor | discriminate].
    + intros H. inversion H. reflexivity.
  - cbn [pieces_of]. unfold piece_of_char.
    destruct (Ascii.eqb c "*") eqn:Es.
    + apply Ascii.eqb_eq in Es. subst c.
      induction path as [|d path IHp]; rewrite matches_star.
      * rewrite orb_false_r, IH. split.
        -- intros H. now apply glob_star_none.
        -- intros H. inversion H; subst; assumption.
      * rewrite any_matches. split.
        -- intros H. apply orb_true_iff in H as [H|H].
           ++ apply glob_star_none. now apply IH.
           ++ apply andb_true_iff in H as [Hd Hm].
              apply negb_true_iff in Hd. apply glob_star_more; [exact Hd|].
              now apply IHp.
        -- intros H. apply orb_true_iff.
           inversion H as [|? ? ? Hc Hg|? ? Hg|? ? ? Hc Hg]; subst.
           ++ discriminate Hc.
           ++ left. now apply IH.
           ++ right. apply andb_true_iff. split.
              ** now apply negb_true_iff.
              ** now apply IHp.
    + cbn [Regex.matches]. destruct path as [|d path].
      * split; [discriminate|]. intros H.
        inversion H; subst; cbn in Es; discriminate.
      * cbn [Regex.atom_matches]. rewrite andb_true_iff, Ascii.eqb_eq, IH.
        split.
        -- intros [-> H]. now apply glob_same.
        -- intros H. inversion H; subst; try (cbn in Es; discriminate).
           auto.
Qed.

Lemma test_rule rule path :
  rule_ok rule = true ->
  Regex.test (Selection.regexSource rule) path
  = Some (Regex.matches (pieces_of rule) path).
Proof. intros H. unfold Regex.test. now rewrite parse_rule. Qed.

Lemma matches_literal rule :
  Props.contains "*" rule = false ->
  forall path,
    Regex.matches (pieces_of rule) path = String.eqb rule path.
Proof.
  induction rule as [|c rule IH]; intros Hs path.
  - destruct path; reflexivity.
  - cbn [Props.contains] in Hs. apply orb_false_iff in Hs as [Hc Hs].
    cbn [pieces_of]. unfold piece_of_char. rewrite Hc.
    destruct path as [|d path]; [reflexivity|].
    cbn [Regex.matches Regex.atom_matches String.eqb].
    rewrite (Ascii.eqb_sym d c), (IH Hs).
    destruct (Ascii.eqb c d); reflexivity.
Qed.

End GlobMatching.

(** X1: for rules made of ordinary characters, dots and stars,
    [isPathIgnored] never throws and answers true exactly when some rule,
    read as a glob over the whole path, matches it: a dot stands for
    itself, a star for any run of characters without a line terminator,
    slashes included. *)
Theorem rules_match_as_whole_path_globs :
  forall patterns path,
    forallb Glob.rule_ok patterns = true ->
    exists ignored,
      Selection.isPathIgnored Regex.test patterns path = Some ignored
      /\ (ignored = true <->
          exists rule, In rule patterns /\ Glob.glob rule path).
Proof.
  intros patterns path Hok.
  assert (Hall : forall p, In p patterns -> Glob.rule_ok p = true)
    by (apply forallb_forall; exact Hok).
  rewrite isPathIgnored_existsb.
  - eexists. split; [reflexivity|]. rewrite existsb_exists. split.
    + intros (rule & Hin & Hm). exists rule. split; [exact Hin|].
      rewrite test_rule in Hm by auto. apply matches_pieces_glob.
      destruct (Regex.matches _ _); [reflexivity | discriminate].
    + intros (rule & Hin & Hg). exists rule. split; [exact Hin|].
      rewrite test_rule by auto. apply matches_pieces_glob in Hg.
      now rewrite Hg.
  - intros p Hin. rewrite test_rule by auto. discriminate.
Qed.

(** X1 on two rules and a path in a subdirectory. *)
Lemma rules_match_as_whole_path_globs_witness :
  exists ignored,
    Selection.isPathIgnored Regex.test ["secrets/*"; "*.env"]
      "app/config/.env" = Some ignored
    /\ (ignored = true <->
        exists rule, In rule ["secrets/*"; "*.env"]
                     /\ Glob.glob rule "app/config/.env").
Proof.
  apply (rules_match_as_whole_path_globs ["secrets/*"; "*.env"]
           "app/config/.env").
  reflexivity.
Defined.

(** X2: a rule without a star (ordinary characters and dots) ignores the
    path equal to it and no other: no path below a directory named by the
    rule, no file of that name in a subdirectory. *)
Theorem rule_without_star_is_equality :
  forall rule path,
    Glob.rule_ok rule = true ->
    Props.contains "*" rule = false ->
    Selection.isPathIgnored Regex.test [rule] path
    = Some (String.eqb rule path).
Proof.
  intros rule path Hok Hs. cbn [Selection.isPathIgnored].
  rewrite test_rule, matches_literal by assumption.
  destruct (String.eqb rule path); reflexivity.
Qed.

(** X2 on the rule [node_modules] and a path below that directory. *)
Lemma rule_without_star_is_equality_witness :
  Selection.isPathIgnored Regex.test ["node_modules"] "node_modules/x.js"
  = Some false.
Proof.
  apply (rule_without_star_is_equality "node_modules" "node_modules/x.js");
    reflexivity.
Defined.

(** ** The statistics *)

Section StatisticsFacts.
Import Selection Totals.

Variable RegExp_test : string -> string -> option bool.
Variable readFile : string -> read_result.

Lemma last_cons {A} (x d : A) l : last (x :: l) d = last l x.
Proof.
  revert x d. induction l as [|y l IH]; intros x d; [reflexivity|].
  change (last (x :: y :: l) d) with (last (y :: l) d).
  now rewrite (IH y d), (IH y x).
Qed.

Lemma calculate_from_total total filePaths :
  fst (calculateTotalCharacters_from readFile total filePaths)
  = total + calculateTotalCharacters readFile filePaths.
Proof.
  unfold calculateTotalCharacters. revert total.
  induction filePaths as [|p ps IH]; intros total;
    cbn [calculateTotalCharacters_from fst]; [lia|].
  destruct (readFile p) as [content|? ?]; cbn [fst].
  - rewrite IH, (IH (0 + _)). lia.
  - apply IH.
Qed.

(** What the loop over the items leaves when it runs to its end. *)
Lemma tally_completed patterns cs :
  forall total warn total' warn',
    tally RegExp_test readFile patterns cs total warn = (total', warn', true) ->
    warn' = last (ignored_names RegExp_test patterns cs) warn
    /\ total' = total + calculateTotalCharacters readFile (enabled_names cs).
Proof.
  unfold ignored_names, enabled_names.
  induction cs as [|c cs IH]; intros total warn total' warn';
    cbn [tally filter map].
  - intros [= <- <-]. cbn. split; [reflexivity | lia].
  - destruct (enabled c) eqn:Een; [|apply IH].
    cbn [map filter].
    destruct (isPathIgnored RegExp_test patterns (name c)) as [ig|] eqn:Eig;
      [|discriminate].
    intros H. apply IH in H as [Hw Ht]. split.
    + rewrite Hw. destruct ig; [now rewrite last_cons | reflexivity].
    + rewrite Ht. unfold calculateTotalCharacters at 2.
      cbn [calculateTotalCharacters_from].
      destruct (readFile (name c)) as [content|? ?]; cbn [fst].
      * rewrite calculate_from_total. lia.
      * fold (calculateTotalCharacters readFile (map name (filter enabled cs))).
        lia.
Qed.

Lemma recompute_completed s s' :
  recompute RegExp_test readFile s = JS.Done s' ->
  choices s' = choices s
  /\ gitignorePatterns s' = gitignorePatterns s
  /\ selectedFilesGitignore s'
     = last (ignored_names RegExp_test (gitignorePatterns s) (choices s))
            EmptyString
  /\ totalCharacters s'
     = calculateTotalCharacters readFile (enabled_names (choices s))
  /\ selectedFilesCount s'
     = Z.of_nat (List.length (enabled_names (choices s))).
Proof.
  unfold recompute.
  destruct (tally _ _ _ _ _ _) as [[total warn] [|]] eqn:Et; [|discriminate].
  intros [= <-]. apply tally_completed in Et as [Hw Ht].
  cbn. repeat split; auto. unfold enabled_names. now rewrite length_map.
Qed.

End StatisticsFacts.

(** X3: when the handler of the space key or of the [a] key runs to its
    end, the warning names the last enabled item, in list order, that the
    rules ignore, and is empty when there is none. *)
Theorem warning_names_last_ignored_item :
  forall RegExp_test readFile s s',
    Selection.space RegExp_test readFile s = Some (JS.Done s')
    \/ Selection.toggleAll RegExp_test readFile s = JS.Done s' ->
    Selection.selectedFilesGitignore s'
    = last (Totals.ignored_names RegExp_test
              (Selection.gitignorePatterns s') (Selection.choices s'))
           EmptyString.
Proof.
  intros re rf s s' [H|H].
  - unfold Selection.space in H.
    destruct (Selection.toggle_at_cursor s) as [s1|]; [|discriminate].
    injection H as H. apply recompute_completed in H as (Hc & Hp & Hw & _).
    now rewrite Hc, Hp.
  - unfold Selection.toggleAll in H.
    apply recompute_completed in H as (Hc & Hp & Hw & _).
    now rewrite Hc, Hp.
Qed.

(** X3 on three enabled files of which the first and the last are ignored:
    after [a] is pressed twice the warning names the last one. *)
Lemma warning_names_last_ignored_item_witness :
  Selection.selectedFilesGitignore
    (JS.state_of
       (Selection.toggleAll Regex.test MoreExamples.three_files
          (JS.state_of
             (Selection.toggleAll Regex.test MoreExamples.three_files
                MoreExamples.three_enabled))))
  = last (Totals.ignored_names Regex.test ["*.env"]
            (map (Selection.set_enabled true)
                 (map Selection.make_choice [".env"; "src/x.js"; "api/.env"])))
         EmptyString.
Proof.
  apply (warning_names_last_ignored_item Regex.test MoreExamples.three_files
           (JS.state_of
              (Selection.toggleAll Regex.test MoreExamples.three_files
                 MoreExamples.three_enabled))).
  right. reflexivity.
Defined.

(** X4: when the handler of the space key or of the [a] key runs to its
    end, the total shown is what [calculateTotalCharacters] returns for the
    enabled paths, and the count shown is their number: the figures of the
    selector are the figures printed after the selection is submitted,
    unreadable files counting for nothing in both. *)
Theorem statistics_agree_with_calculateTotalCharacters :
  forall RegExp_test readFile s s',
    Selection.space RegExp_test readFile s = Some (JS.Done s')
    \/ Selection.toggleAll RegExp_test readFile s = JS.Done s' ->
    Selection.totalCharacters s'
    = Totals.calculateTotalCharacters readFile
        (Totals.enabled_names (Selection.choices s'))
    /\ Selection.selectedFilesCount s'
       = Z.of_nat (List.length (Totals.enabled_names (Selection.choices s'))).
Proof.
  intros re rf s s' [H|H].
  - unfold Selection.space in H.
    destruct (Selection.toggle_at_cursor s) as [s1|]; [|discriminate].
    injection H as H.
    apply recompute_completed in H as (Hc & _ & _ & Ht & Hn).
    now rewrite Hc.
  - unfold Selection.toggleAll in H.
    apply recompute_completed in H as (Hc & _ & _ & Ht & Hn).
    now rewrite Hc.
Qed.

(** X4 on three files of 3, 5 and 7 characters. *)
Lemma statistics_agree_with_calculateTotalCharacters_witness :
  let s' := JS.state_of
              (Selection.toggleAll Regex.test MoreExamples.three_files
                 (Selection.construct [".env"; "src/x.js"; "api/.env"])) in
  Selection.totalCharacters s'
  = Totals.calculateTotalCharacters MoreExamples.three_files
      (Totals.enabled_names (Selection.choices s'))
  /\ Selection.selectedFilesCount s'
     = Z.of_nat (List.length (Totals.enabled_names (Selection.choices s'))).
Proof.
  apply (statistics_agree_with_calculateTotalCharacters Regex.test
           MoreExamples.three_files
           (Selection.construct [".env"; "src/x.js"; "api/.env"])).
  right. reflexivity.
Defined.

(** ** The column grid *)

Section GridFacts.
Import Selection Terminal Props Layout.

Lemma firstn_add {A} (a b : nat) (l : list A) :
  firstn (a + b) l = (firstn a l ++ firstn b (skipn a l))%list.
Proof.
  revert l. induction a as [|a IH]; intros l; [reflexivity|].
  destruct l as [|x l]; cbn [Nat.add firstn skipn app].
  - now rewrite firstn_nil.
  - now rewrite IH.
Qed.

Lemma slice_column {A} (cs : list A) (i : nat) (per : Z) :
  0 <= per ->
  JS.slice cs (Z.of_nat i * per) ((Z.of_nat i + 1) * per)
  = firstn (Z.to_nat per) (skipn (i * Z.to_nat per) cs).
Proof.
  intros Hp. unfold JS.slice.
  replace (Z.to_nat (Z.of_nat i * per)) with (i * Z.to_nat per)%nat by nia.
  replace (Z.to_nat ((Z.of_nat i + 1) * per) - i * Z.to_nat per)%nat
    with (Z.to_nat per) by nia.
  reflexivity.
Qed.

Lemma columns_of_firstn (cs : list choice) (k : nat) (per : Z) :
  0 <= per ->
  List.concat (map (fun i => JS.slice cs (Z.of_nat i * per)
                          ((Z.of_nat i + 1) * per)) (seq 0 k))
  = firstn (k * Z.to_nat per) cs.
Proof.
  intros Hp. induction k as [|k IH]; [reflexivity|].
  rewrite seq_S, map_app, concat_app, IH. cbn [map List.concat Nat.add].
  rewrite app_nil_r, slice_column by assumption.
  rewrite <- firstn_add. f_equal. lia.
Qed.

Lemma ceil_div_covers n k : 1 <= k -> n <= k * JS.ceil_div n k.
Proof.
  intros Hk. unfold JS.ceil_div.
  pose proof (Z.mul_div_le (- n) k ltac:(lia)). lia.
Qed.

Lemma ceil_div_nonneg n k : 0 <= n -> 1 <= k -> 0 <= JS.ceil_div n k.
Proof.
  intros Hn Hk. unfold JS.ceil_div.
  assert ((- n) / k <= 0) by (apply Z.div_le_upper_bound; lia). lia.
Qed.

End GridFacts.

(** X5: the layout of the multi-column selector partitions the items.  The
    columns, one after the other, are the item list: no item is dropped or
    shown twice; there are [activeColumns] columns and none is longer than
    [itemsPerColumn]. *)
Theorem columns_partition_the_items :
  forall st,
    1 <= Multi.activeColumns st ->
    List.concat (Multi.layout_columns st) = Selection.choices (Multi.sel st)
    /\ Z.of_nat (List.length (Multi.layout_columns st))
       = Multi.activeColumns st
    /\ Forall (fun col => Z.of_nat (List.length col)
                          <= Multi.itemsPerColumn st)
              (Multi.layout_columns st).
Proof.
  intros st Ha.
  pose proof (ceil_div_nonneg (Selection.count (Multi.sel st))
                (Multi.activeColumns st) (count_nonneg _) Ha) as Hp.
  pose proof (ceil_div_covers (Selection.count (Multi.sel st))
                (Multi.activeColumns st) Ha) as Hc.
  fold (Multi.itemsPerColumn st) in Hp, Hc.
  unfold Multi.layout_columns, Multi.columns_of. split; [|split].
  - rewrite columns_of_firstn by assumption. apply firstn_all2.
    unfold Selection.count in Hc. nia.
  - rewrite length_map, length_seq. lia.
  - apply Forall_forall. intros col Hin.
    apply in_map_iff in Hin as (i & <- & _).
    rewrite slice_column by assumption. rewrite length_firstn. lia.
Qed.

(** X5 on seven items and a terminal 200 columns wide. *)
Lemma columns_partition_the_items_witness :
  let st := Multi.construct Examples.seven Examples.wide in
  List.concat (Multi.layout_columns st) = Selection.choices (Multi.sel st)
  /\ Z.of_nat (List.length (Multi.layout_columns st))
     = Multi.activeColumns st
  /\ Forall (fun col => Z.of_nat (List.length col)
                        <= Multi.itemsPerColumn st)
            (Multi.layout_columns st).
Proof.
  apply (columns_partition_the_items
           (Multi.construct Examples.seven Examples.wide)).
  vm_compute. discriminate.
Defined.

(** ** The scroll window of the multi-column selector *)

Section WindowFacts.
Import Selection Terminal Props Layout.

Lemma fold_max_ge l : forall x, x <= fold_left Z.max l x.
Proof.
  induction l as [|y l IH]; intros x; cbn; [lia|].
  specialize (IH (Z.max x y)). lia.
Qed.

Lemma fold_max_in l : forall x y, In y l -> y <= fold_left Z.max l x.
Proof.
  induction l as [|z l IH]; intros x y; cbn; [tauto|].
  intros [->|H]; [|now apply IH].
  pose proof (fold_max_ge l (Z.max x y)). lia.
Qed.

Lemma max_of_ge l y : In y l -> y <= Multi.max_of l.
Proof.
  destruct l as [|x l]; [intros []|]. cbn [Multi.max_of].
  intros [->|H]; [apply fold_max_ge | now apply fold_max_in].
Qed.

(** The column an index of the layout names. *)
Lemma index_Z_columns (cs : list choice) active per c col :
  JS.index_Z (Multi.columns_of cs active per) c = Some col ->
  0 <= c < active
  /\ col = JS.slice cs (c * per) ((c + 1) * per).
Proof.
  intros H. apply index_Z_some in H as [Hr Hn].
  unfold Multi.columns_of in *. rewrite length_map, length_seq in Hr.
  rewrite nth_error_map, nth_error_seq in Hn.
  destruct (Nat.ltb_spec (Z.to_nat c) (Z.to_nat active)); [|discriminate].
  cbn in Hn. injection Hn as <-. split; [lia|].
  now rewrite Z2Nat.id by lia.
Qed.

Lemma slice_length {A} (cs : list A) from to :
  0 <= from <= to ->
  Z.of_nat (List.length (JS.slice cs from to))
  = Z.max 0 (Z.min (to - from) (Z.of_nat (List.length cs) - from)).
Proof.
  intros H. unfold JS.slice. rewrite length_firstn, length_skipn. lia.
Qed.

End WindowFacts.

(** X6: when the layout is up to date, the cursor is on an item and the
    column marker is the cursor's column, a redraw that completes leaves
    the cursor's row inside the window it draws: the scroll offset is not
    negative, at most the row, and the row is less than the offset plus the
    number of rows drawn, which is at least one and at most
    [visibleRows]. *)
Theorem cursor_row_is_in_the_window :
  forall RegExp_test st st' i,
    Layout.fresh st ->
    Selection.index (Multi.sel st) = JS.Num i ->
    0 <= i < Selection.count (Multi.sel st) ->
    Multi.currentColumn st = i / Multi.itemsPerColumn st ->
    Multi.render RegExp_test st = JS.Done st' ->
    Multi.localIndex st' = JS.Num (i mod Multi.itemsPerColumn st')
    /\ 0 <= Multi.visibleStart st'
    /\ Multi.visibleStart st' <= i mod Multi.itemsPerColumn st'
    /\ i mod Multi.itemsPerColumn st'
       < Multi.visibleStart st' + Multi.listHeight st'
    /\ 1 <= Multi.listHeight st' <= Multi.visibleRows st'.
Proof.
  intros re st st' i Hf Hi Hr Hc Hd.
  assert (Ha : 1 <= Multi.activeColumns st).
  { unfold Layout.fresh in Hf. rewrite <- Hf. cbn. unfold Multi.maxColumns. lia. }
  assert (Hv : 1 <= Multi.visibleRows st).
  { unfold Layout.fresh in Hf. rewrite <- Hf. cbn. lia. }
  assert (Hp : 1 <= Multi.itemsPerColumn st) by (apply ceil_div_pos; lia).
  set (per := Multi.itemsPerColumn st) in *.
  pose proof (Z.div_mod i per ltac:(lia)) as Hdm.
  pose proof (Z.mod_pos_bound i per ltac:(lia)) as Hmb.
  unfold Multi.render in Hd. cbv zeta in Hd.
  unfold Layout.fresh in Hf. rewrite Hf in Hd.
  destruct (Multi.terminalWidth st - 2 <? 0); [discriminate|].
  destruct (JS.index_Z (Multi.layout_columns st) (Multi.currentColumn st))
    as [current|] eqn:Ecol; [|discriminate].
  rewrite Hi in Hd. cbn [JS.geb] in Hd.
  replace (Selection.count (Multi.sel st) <=? i) with false in Hd
    by (symmetry; apply Z.leb_gt; lia).
  unfold Multi.localIndex in Hd. rewrite Hi in Hd. cbn [JS.rem] in Hd.
  fold per in Hd.
  replace (per =? 0) with false in Hd by (symmetry; apply Z.eqb_neq; lia).
  rewrite Z.rem_mod_nonneg in Hd by lia.
  apply index_Z_columns in Ecol as [Hcr ->].
  fold per in Hd.
  assert (Hlen : i mod per
                 < Z.of_nat (List.length
                      (JS.slice (Selection.choices (Multi.sel st))
                         (Multi.currentColumn st * per)
                         ((Multi.currentColumn st + 1) * per)))).
  { rewrite slice_length by nia. unfold Selection.count in Hr. nia. }
  assert (Hh : 1 <= Multi.listHeight st <= Multi.visibleRows st).
  { unfold Multi.listHeight.
    assert (Z.of_nat (List.length
              (JS.slice (Selection.choices (Multi.sel st))
                 (Multi.currentColumn st * per)
                 ((Multi.currentColumn st + 1) * per)))
            <= Multi.max_of
                 (map (fun col => Z.of_nat (List.length col))
                      (Multi.layout_columns st))).
    { apply max_of_ge. apply in_map_iff. eexists. split; [reflexivity|].
      unfold Multi.layout_columns, Multi.columns_of. apply in_map_iff.
      exists (Z.to_nat (Multi.currentColumn st)). fold per.
      rewrite Z2Nat.id by lia. split; [reflexivity|].
      apply in_seq. lia. }
    lia. }
  match type of Hd with
  | (if ?b then JS.Done ?x else JS.Threw ?x) = _ =>
      destruct b; [|discriminate]
  end.
  injection Hd as <-.
  cbn [Multi.visibleStart Multi.set_visibleStart].
  change (Multi.itemsPerColumn (Multi.set_visibleStart _ st)) with per.
  change (Multi.listHeight (Multi.set_visibleStart _ st))
    with (Multi.listHeight st).
  change (Multi.visibleRows (Multi.set_visibleStart _ st))
    with (Multi.visibleRows st).
  split.
  { unfold Multi.localIndex. cbn [Multi.sel Multi.set_visibleStart].
    rewrite Hi. cbn [JS.rem].
    change (Multi.itemsPerColumn (Multi.set_visibleStart _ st)) with per.
    replace (per =? 0) with false by (symmetry; apply Z.eqb_neq; lia).
    now rewrite Z.rem_mod_nonneg by lia. }
  destruct (i mod per <? Multi.visibleStart st) eqn:E1;
    [apply Z.ltb_lt in E1 | apply Z.ltb_ge in E1;
     destruct (Multi.visibleStart st + Multi.listHeight st <=? i mod per) eqn:E2;
     [apply Z.leb_le in E2 | apply Z.leb_gt in E2]]; lia.
Qed.

(** X6 on seven items, two columns, the cursor on the first item. *)
Lemma cursor_row_is_in_the_window_witness :
  let st := Multi.construct Examples.seven Examples.wide in
  let st' := JS.state_of (Multi.render Regex.test st) in
  Multi.localIndex st' = JS.Num (0 mod Multi.itemsPerColumn st')
  /\ 0 <= Multi.visibleStart st'
  /\ Multi.visibleStart st' <= 0 mod Multi.itemsPerColumn st'
  /\ 0 mod Multi.itemsPerColumn st'
     < Multi.visibleStart st' + Multi.listHeight st'
  /\ 1 <= Multi.listHeight st' <= Multi.visibleRows st'.
Proof.
  apply (cursor_row_is_in_the_window Regex.test
           (Multi.construct Examples.seven Examples.wide)
           (JS.state_of
              (Multi.render Regex.test
                 (Multi.construct Examples.seven Examples.wide))) 0).
  - reflexivity.
  - reflexivity.
  - vm_compute. split; [discriminate | reflexivity].
  - reflexivity.
  - reflexivity.
Defined.

(** ** The column marker of the multi-column selector *)

Section MarkerFacts.
Import Selection Terminal Props Layout.

Variable RegExp_test : string -> string -> option bool.
Variable readFile : string -> read_result.

Lemma fresh_set_sel s st : fresh st -> fresh (Multi.set_sel s st).
Proof.
  unfold fresh. intros H.
  change (Multi.updateTerminalDimensions (Multi.set_sel s st))
    with (Multi.set_sel s (Multi.updateTerminalDimensions st)).
  now rewrite H.
Qed.

Lemma fresh_set_currentColumn c st :
  fresh st -> fresh (Multi.set_currentColumn c st).
Proof.
  unfold fresh. intros H.
  change (Multi.updateTerminalDimensions (Multi.set_currentColumn c st))
    with (Multi.set_currentColumn c (Multi.updateTerminalDimensions st)).
  now rewrite H.
Qed.

Lemma fresh_set_visibleStart v st :
  fresh st -> fresh (Multi.set_visibleStart v st).
Proof.
  unfold fresh. intros H.
  change (Multi.updateTerminalDimensions (Multi.set_visibleStart v st))
    with (Multi.set_visibleStart v (Multi.updateTerminalDimensions st)).
  now rewrite H.
Qed.

Lemma fresh_update st : fresh (Multi.updateTerminalDimensions st).
Proof. reflexivity. Qed.

(** A redraw leaves the layout fields of the terminal as reported, whether
    it completes or throws. *)
Lemma render_fresh st :
  fresh (JS.state_of (Multi.render RegExp_test st))
  /\ Multi.activeColumns (JS.state_of (Multi.render RegExp_test st))
     = Multi.activeColumns (Multi.updateTerminalDimensions st).
Proof.
  unfold Multi.render. cbv zeta.
  pose proof (fresh_update st) as Hu.
  set (u := Multi.updateTerminalDimensions st) in *. clearbody u.
  destruct (Multi.terminalWidth u - 2 <? 0); [now split|].
  destruct (JS.index_Z _ _); [|now split].
  match goal with
  | |- context [if ?b then JS.Done ?x else JS.Threw ?x] =>
      replace (JS.state_of (if b then JS.Done x else JS.Threw x)) with x
        by (destruct b; reflexivity)
  end.
  split.
  - apply fresh_set_visibleStart.
    destruct (JS.geb _ _); [now apply fresh_set_sel | exact Hu].
  - destruct (JS.geb _ _); reflexivity.
Qed.

(** A redraw with the layout up to date and the cursor on an item: only
    the scroll offset may change. *)
Lemma render_after st0 :
  fresh st0 -> in_range (Multi.sel st0) ->
  let st' := JS.state_of (Multi.render RegExp_test st0) in
  Multi.sel st' = Multi.sel st0
  /\ Multi.currentColumn st' = Multi.currentColumn st0
  /\ Multi.activeColumns st' = Multi.activeColumns st0
  /\ fresh st'.
Proof.
  intros Hf Hr st'. subst st'.
  destruct (render_effect RegExp_test st0) as (Hc & _ & _ & _).
  destruct (render_fresh st0) as [Hf' Ha].
  rewrite Hf in Ha. repeat split; auto.
  apply render_keeps_sel. now apply in_range_below.
Qed.

Lemma div_in_column i per col :
  1 <= per -> col * per <= i < col * per + per -> i / per = col.
Proof.
  intros Hp Hi. symmetry. apply (Z.div_unique_pos i per col (i - col * per)); lia.
Qed.

Lemma column_bounds i per :
  1 <= per -> 0 <= i -> (i / per) * per <= i < (i / per) * per + per.
Proof.
  intros Hp Hi. pose proof (Z.div_mod i per ltac:(lia)).
  pose proof (Z.mod_pos_bound i per ltac:(lia)). lia.
Qed.

(** The state a key leaves, for the four arrow keys, when the layout is up
    to date and the cursor is on an item. *)
Lemma arrow_result st i idx' col' :
  fresh st -> 0 <= idx' < count (Multi.sel st) ->
  let st' := JS.state_of
               (Multi.render RegExp_test
                  (Multi.set_cursor (JS.Num idx')
                     (Multi.set_currentColumn col' st))) in
  index (Multi.sel st) = JS.Num i ->
  index (Multi.sel st') = JS.Num idx'
  /\ count (Multi.sel st') = count (Multi.sel st)
  /\ Multi.currentColumn st' = col'
  /\ Multi.activeColumns st' = Multi.activeColumns st
  /\ Multi.itemsPerColumn st' = Multi.itemsPerColumn st
  /\ fresh st'.
Proof.
  intros Hf Hr st' Hi. subst st'.
  destruct (render_after
              (Multi.set_cursor (JS.Num idx')
                 (Multi.set_currentColumn col' st)))
    as (Hs & Hc & Ha & Hf').
  - now apply fresh_set_sel, fresh_set_currentColumn.
  - exists idx'. split; [reflexivity | exact Hr].
  - unfold Multi.itemsPerColumn. rewrite Hs, Hc, Ha. repeat split; auto.
Qed.

End MarkerFacts.

Section MarkerSteps.
Import Selection Terminal Props Layout.

Variable RegExp_test : string -> string -> option bool.
Variable readFile : string -> read_result.

Lemma marker_inv_transfer st0 st' :
  marker_inv st0 ->
  Multi.sel st' = Multi.sel st0 ->
  Multi.currentColumn st' = Multi.currentColumn st0 ->
  Multi.activeColumns st' = Multi.activeColumns st0 ->
  fresh st' ->
  marker_inv st'.
Proof.
  intros (_ & Hv & Hfill & Hm) Hs Hc Ha Hf.
  unfold marker_inv, multi_valid, columns_filled, marker_ok,
    Multi.itemsPerColumn in *.
  rewrite Hs, Hc, Ha. auto.
Qed.

Lemma marker_inv_render st0 :
  marker_inv st0 ->
  marker_inv (JS.state_of (Multi.render RegExp_test st0)).
Proof.
  intros Hinv. pose proof Hinv as (Hf & (Hr & _) & _).
  destruct (render_after RegExp_test st0 Hf Hr) as (Hs & Hc & Ha & Hf').
  now apply (marker_inv_transfer st0).
Qed.

Lemma marker_inv_sel s st :
  marker_inv st ->
  index s = index (Multi.sel st) -> count s = count (Multi.sel st) ->
  marker_inv (Multi.set_sel s st).
Proof.
  intros (Hf & ((i & Hi & Hr) & Hc & Ha) & Hfill & (j & Hj & Hm)) Hix Hcnt.
  unfold marker_inv, multi_valid, columns_filled, marker_ok, in_range,
    Multi.itemsPerColumn in *.
  cbn [Multi.sel Multi.set_sel Multi.currentColumn Multi.activeColumns].
  rewrite Hix, Hcnt. split; [now apply fresh_set_sel|]. eauto 10.
Qed.

(** The cursor and the marker moved to a cell of the grid. *)
Lemma marker_inv_moved st idx' col' :
  marker_inv st ->
  0 <= idx' < count (Multi.sel st) ->
  idx' / Multi.itemsPerColumn st = col' ->
  marker_inv (Multi.set_cursor (JS.Num idx') (Multi.set_currentColumn col' st)).
Proof.
  intros (Hf & ((i & Hi & Hr) & Hc & Ha) & Hfill & _) Hidx Hcol.
  assert (Hp : 1 <= Multi.itemsPerColumn st) by (apply ceil_div_pos; lia).
  split; [now apply fresh_set_sel, fresh_set_currentColumn|].
  split; [|split].
  - split; [exists idx'; split; [reflexivity | exact Hidx]|].
    cbn. split; [|exact Ha]. subst col'. apply Z.div_pos; lia.
  - exact Hfill.
  - exists idx'. split; [reflexivity|]. cbn. now rewrite <- Hcol.
Qed.

Lemma set_currentColumn_same st :
  Multi.set_currentColumn (Multi.currentColumn st) st = st.
Proof. now destruct st. Qed.

(** Every key the class handles keeps the marker on the cursor's column
    when no column is empty. *)
Lemma marker_inv_keypress k st :
  marker_inv st ->
  marker_inv (JS.state_of (Multi.keypress RegExp_test readFile k st)).
Proof.
  intros Hinv.
  pose proof Hinv as (Hf & ((i & Hi & Hr) & Hc & Ha) & Hfill & (j & Hj & Hm)).
  rewrite Hi in Hj. injection Hj as <-.
  assert (Hp : 1 <= Multi.itemsPerColumn st) by (apply ceil_div_pos; lia).
  pose proof (column_bounds i _ Hp ltac:(lia)) as Hb. rewrite <- Hm in Hb.
  unfold columns_filled in Hfill.
  unfold Multi.keypress. cbv zeta. rewrite Hi.
  set (per := Multi.itemsPerColumn st) in *.
  set (col := Multi.currentColumn st) in *.
  destruct k.
  - (* up *)
    apply marker_inv_render.
    destruct (JS.gtb _ _) eqn:E; [|exact Hinv].
    cbn in E. apply Z.ltb_lt in E. cbn [JS.add].
    rewrite <- (set_currentColumn_same st) at 1. fold col.
    apply marker_inv_moved; [exact Hinv | lia |].
    apply div_in_column; fold per; lia.
  - (* down *)
    apply marker_inv_render.
    destruct (_ && _) eqn:E; [|exact Hinv].
    apply andb_true_iff in E as [E1 E2]. cbn in E1, E2.
    apply Z.ltb_lt in E1, E2. cbn [JS.add].
    rewrite <- (set_currentColumn_same st) at 1. fold col.
    apply marker_inv_moved; [exact Hinv | lia |].
    apply div_in_column; fold per; lia.
  - (* left *)
    destruct (0 <? col) eqn:E; [|exact Hinv]. apply Z.ltb_lt in E.
    cbn [JS.rem].
    replace (per =? 0) with false by (symmetry; apply Z.eqb_neq; lia).
    rewrite Z.rem_mod_nonneg by lia. cbn [JS.add JS.min].
    pose proof (Z.mod_pos_bound i per ltac:(lia)) as Hmb.
    apply marker_inv_render.
    assert (Hmin : Z.min (i mod per + (col - 1) * per)
                         (count (Multi.sel st) - 1)
                   = i mod per + (col - 1) * per) by nia.
    rewrite Hmin. apply marker_inv_moved; [exact Hinv | nia |].
    apply div_in_column; fold per; nia.
  - (* right *)
    destruct (col <? Multi.activeColumns st - 1) eqn:E; [|exact Hinv].
    apply Z.ltb_lt in E. cbn [JS.rem].
    replace (per =? 0) with false by (symmetry; apply Z.eqb_neq; lia).
    rewrite Z.rem_mod_nonneg by lia. cbn [JS.add JS.min].
    pose proof (Z.mod_pos_bound i per ltac:(lia)) as Hmb.
    apply marker_inv_render.
    assert (Hstart : (col + 1) * per <= count (Multi.sel st) - 1) by nia.
    apply marker_inv_moved; [exact Hinv | lia |].
    apply div_in_column; fold per; lia.
  - (* space *)
    destruct (space RegExp_test readFile (Multi.sel st)) as [o|] eqn:Es;
      [|exact Hinv].
    apply space_some in Es as (_ & Hix & Hcnt & _).
    destruct o as [s|s]; cbn [JS.state_of] in *.
    + apply marker_inv_render. now apply marker_inv_sel.
    + now apply marker_inv_sel.
  - (* a *)
    destruct (toggleAll_facts RegExp_test readFile (Multi.sel st))
      as (Hix & Hcnt & _).
    destruct (toggleAll _ _ _) as [s|s]; cbn [JS.state_of] in *.
    + apply marker_inv_render. now apply marker_inv_sel.
    + now apply marker_inv_sel.
Qed.

End MarkerSteps.

(** X7: in the multi-column selector, as long as no column of the layout
    is empty and the terminal is not resized, the column marker is the
    column of the cursor after every key: starting from a state where the
    layout is up to date, the cursor is on an item and the marker is on its
    column, this holds after each key of any sequence of up, down, left,
    right, space and [a]. *)
Theorem marker_follows_cursor_when_no_column_is_empty :
  forall RegExp_test readFile ks st,
    Layout.marker_inv st ->
    Forall (fun st' =>
              Layout.marker_ok st' /\ Layout.columns_filled st'
              /\ Props.in_range (Multi.sel st'))
           (Multi.trace RegExp_test readFile (map Terminal.Key ks) st).
Proof.
  intros re rf ks. induction ks as [|k ks IH]; intros st Hinv;
    cbn [map Multi.trace]; constructor.
  - pose proof (marker_inv_keypress re rf k st Hinv)
      as (_ & (Hr & _) & Hfill & Hm).
    unfold Multi.step, Multi.handle. auto.
  - apply IH. unfold Multi.step, Multi.handle.
    now apply marker_inv_keypress.
Qed.

(** X7 on seven items in two columns: right, down, left, up. *)
Lemma marker_follows_cursor_when_no_column_is_empty_witness :
  Forall (fun st' =>
            Layout.marker_ok st' /\ Layout.columns_filled st'
            /\ Props.in_range (Multi.sel st'))
         (Multi.trace Regex.test Examples.no_file
            (map Terminal.Key
               [Terminal.Right; Terminal.Down; Terminal.Left; Terminal.Up])
            (Multi.construct Examples.seven Examples.wide)).
Proof.
  apply (marker_follows_cursor_when_no_column_is_empty Regex.test
           Examples.no_file).
  split; [reflexivity|]. split; [|split].
  - split; [exists 0; split; [reflexivity | cbn; lia] | cbn; lia].
  - vm_compute. reflexivity.
  - exists 0. split; reflexivity.
Defined.

(** X8: in the multi-column selector with the marker on the cursor's
    column and no empty column, opposite keys undo each other whenever the
    first one lands on the cell it aims at: right then left returns to the
    same item when the cell of the same row exists in the next column, and
    down then up returns to it when the cursor was not on the last row of
    its column nor on the last item. *)
Theorem opposite_keys_return_to_the_item :
  forall RegExp_test readFile st i,
    Layout.marker_inv st ->
    Selection.index (Multi.sel st) = JS.Num i ->
    let per := Multi.itemsPerColumn st in
    let col := Multi.currentColumn st in
    let n := Selection.count (Multi.sel st) in
    let press k s := Multi.step RegExp_test readFile s (Terminal.Key k) in
    (col < Multi.activeColumns st - 1 ->
     (col + 1) * per + i mod per <= n - 1 ->
     Selection.index (Multi.sel (press Terminal.Right st))
     = JS.Num ((col + 1) * per + i mod per)
     /\ Selection.index
          (Multi.sel (press Terminal.Left (press Terminal.Right st)))
        = JS.Num i
     /\ Multi.currentColumn (press Terminal.Left (press Terminal.Right st))
        = col)
    /\ (i < col * per + per - 1 -> i < n - 1 ->
        Selection.index (Multi.sel (press Terminal.Down st)) = JS.Num (i + 1)
        /\ Selection.index
             (Multi.sel (press Terminal.Up (press Terminal.Down st)))
           = JS.Num i
        /\ Multi.currentColumn (press Terminal.Up (press Terminal.Down st))
           = col).
Proof.
  intros re rf st i Hinv Hi per col n press.
  pose proof Hinv as (Hf & ((i' & Hi' & Hr) & Hc & Ha) & Hfill & (j & Hj & Hm)).
  rewrite Hi in Hi', Hj. injection Hi' as <-. injection Hj as <-.
  assert (Hp : 1 <= per) by (apply ceil_div_pos; lia).
  pose proof (column_bounds i per Hp ltac:(lia)) as Hb.
  fold col per in Hm. rewrite <- Hm in Hb.
  pose proof (Z.mod_pos_bound i per ltac:(lia)) as Hmb.
  pose proof (Z.div_mod i per ltac:(lia)) as Hdm. rewrite <- Hm in Hdm.
  fold n in Hr.
  split.
  - intros Hlast Hcell.
    assert (H1 : press Terminal.Right st
                 = JS.state_of
                     (Multi.render re
                        (Multi.set_cursor
                           (JS.Num ((col + 1) * per + i mod per))
                           (Multi.set_currentColumn (col + 1) st)))).
    { unfold press, Multi.step, Multi.handle, Multi.keypress. cbv zeta.
      fold col per n. rewrite Hi.
      replace (col <? Multi.activeColumns st - 1) with true
        by (symmetry; apply Z.ltb_lt; lia).
      cbn [JS.rem].
      replace (per =? 0) with false by (symmetry; apply Z.eqb_neq; lia).
      rewrite Z.rem_mod_nonneg by lia. cbn [JS.add JS.min].
      do 4 f_equal. lia. }
    destruct (arrow_result re st i ((col + 1) * per + i mod per) (col + 1)
                Hf ltac:(fold n; nia) Hi)
      as (Gi & Gn & Gc & Ga & Gp & Gf).
    rewrite <- H1 in Gi, Gn, Gc, Ga, Gp, Gf.
    set (st1 := press Terminal.Right st) in *.
    split; [exact Gi|].
    assert (H2 : press Terminal.Left st1
                 = JS.state_of
                     (Multi.render re
                        (Multi.set_cursor (JS.Num i)
                           (Multi.set_currentColumn col st1)))).
    { unfold press at 1, Multi.step, Multi.handle, Multi.keypress. cbv zeta.
      rewrite Gi, Gn, Gc, Gp. fold per n.
      replace (0 <? col + 1) with true by (symmetry; apply Z.ltb_lt; lia).
      cbn [JS.rem].
      replace (per =? 0) with false by (symmetry; apply Z.eqb_neq; lia).
      rewrite Z.rem_mod_nonneg by nia. cbn [JS.add JS.min].
      replace (((col + 1) * per + i mod per) mod per) with (i mod per)
        by (rewrite Z.add_comm, Z.mod_add, Z.mod_mod by lia; reflexivity).
      replace (col + 1 - 1) with col by lia.
      replace (Z.min (i mod per + col * per) (n - 1)) with i by lia.
      reflexivity. }
    destruct (arrow_result re st1 _ i col Gf ltac:(rewrite Gn; fold n; lia) Gi)
      as (Ki & _ & Kc & _).
    rewrite <- H2 in Ki, Kc. auto.
  - intros Hrow Hitem.
    assert (H1 : press Terminal.Down st
                 = JS.state_of
                     (Multi.render re
                        (Multi.set_cursor (JS.Num (i + 1))
                           (Multi.set_currentColumn col st)))).
    { unfold press, Multi.step, Multi.handle, Multi.keypress. cbv zeta.
      fold col per n. rewrite Hi. cbn [JS.ltb JS.add].
      replace (i <? col * per + per - 1) with true
        by (symmetry; apply Z.ltb_lt; lia).
      replace (i <? n - 1) with true by (symmetry; apply Z.ltb_lt; lia).
      cbn [andb]. unfold col. now rewrite set_currentColumn_same. }
    destruct (arrow_result re st i (i + 1) col Hf ltac:(fold n; lia) Hi)
      as (Gi & Gn & Gc & Ga & Gp & Gf).
    rewrite <- H1 in Gi, Gn, Gc, Ga, Gp, Gf.
    set (st1 := press Terminal.Down st) in *.
    split; [exact Gi|].
    assert (H2 : press Terminal.Up st1
                 = JS.state_of
                     (Multi.render re
                        (Multi.set_cursor (JS.Num i)
                           (Multi.set_currentColumn col st1)))).
    { unfold press at 1, Multi.step, Multi.handle, Multi.keypress. cbv zeta.
      rewrite Gi, Gc, Gp. fold per. cbn [JS.gtb JS.add].
      replace (col * per <? i + 1) with true
        by (symmetry; apply Z.ltb_lt; lia).
      replace (i + 1 + -1) with i by lia.
      replace (Multi.set_currentColumn col st1) with st1
        by (rewrite <- Gc; symmetry; apply set_currentColumn_same).
      reflexivity. }
    destruct (arrow_result re st1 _ i col Gf ltac:(rewrite Gn; fold n; lia) Gi)
      as (Ki & _ & Kc & _).
    rewrite <- H2 in Ki, Kc. auto.
Qed.

(** X8 on seven items in two columns, from the first item. *)
Lemma opposite_keys_return_to_the_item_witness :
  let st := Multi.construct Examples.seven Examples.wide in
  let press k s := Multi.step Regex.test Examples.no_file s (Terminal.Key k) in
  Selection.index (Multi.sel (press Terminal.Right st)) = JS.Num 4
  /\ Selection.index
       (Multi.sel (press Terminal.Left (press Terminal.Right st))) = JS.Num 0
  /\ Multi.currentColumn (press Terminal.Left (press Terminal.Right st)) = 0.
Proof.
  assert (Hinv : Layout.marker_inv
                   (Multi.construct Examples.seven Examples.wide)).
  { split; [reflexivity|]. split; [|split].
    - split; [exists 0; split; [reflexivity | cbn; lia] | cbn; lia].
    - vm_compute. reflexivity.
    - exists 0. split; reflexivity. }
  apply (proj1 (opposite_keys_return_to_the_item Regex.test Examples.no_file
                  (Multi.construct Examples.seven Examples.wide) 0
                  Hinv eq_refl)).
  - vm_compute. reflexivity.
  - vm_compute. discriminate.
Defined.

(** ** The column marker of the scrolling selector *)

Section SideFacts.
Import Selection Terminal Props Layout.

Variable RegExp_test : string -> string -> option bool.
Variable readFile : string -> read_result.

Lemma half_below n : 2 <= n -> JS.ceil_div n 2 <= n - 1.
Proof.
  intros Hn. unfold JS.ceil_div.
  assert (1 - n <= (- n) / 2) by (apply Z.div_le_lower_bound; lia). lia.
Qed.

(** With the marker on the cursor's side a redraw moves neither. *)
Lemma scroll_render_same st :
  side_inv st ->
  Scroll.sel (JS.state_of (Scroll.render RegExp_test st)) = Scroll.sel st
  /\ Scroll.column (JS.state_of (Scroll.render RegExp_test st))
     = Scroll.column st.
Proof.
  intros (Hn & (i & Hi & Hr) & (j & Hj & Hside)).
  rewrite Hi in Hj. injection Hj as <-.
  assert (Hn1 : 1 <= count (Scroll.sel st)) by lia.
  pose proof (half_bounds _ Hn1) as Hm. fold (Scroll.midPoint st) in Hm.
  unfold Scroll.render. cbv zeta.
  set (u := Scroll.updateTerminalDimensions st) in *.
  assert (Hs : Scroll.sel u = Scroll.sel st) by reflexivity.
  assert (Hc : Scroll.column u = Scroll.column st) by reflexivity.
  assert (Hl : Scroll.leftColumn u = Scroll.leftColumn st) by reflexivity.
  assert (Hrc : Scroll.rightColumn u = Scroll.rightColumn st) by reflexivity.
  assert (Hmid : Scroll.midPoint u = Scroll.midPoint st) by reflexivity.
  clearbody u.
  destruct (Scroll.terminalWidth u - 2 <? 0); [cbn; now rewrite Hs, Hc|].
  match goal with
  | |- context [if ?b then JS.Done ?x else JS.Threw ?x] =>
      replace (JS.state_of (if b then JS.Done x else JS.Threw x)) with x
        by (destruct b; reflexivity)
  end.
  cbn [Scroll.sel Scroll.column Scroll.set_visibleStart].
  rewrite Hl, Hrc, Hmid, Hs, Hc, leftColumn_length, rightColumn_length
    by assumption.
  rewrite Hi. cbn [JS.add JS.geb].
  destruct (Scroll.column st) eqn:Ecol.
  - replace (Scroll.midPoint st <=? i) with false
      by (symmetry; apply Z.leb_gt; lia).
    unfold Scroll.follow. rewrite Hs, Hi.
    destruct (i <? _); [cbn; auto|]. destruct (_ <=? i); cbn; auto.
  - replace (count (Scroll.sel st) - Scroll.midPoint st
             <=? i + - Scroll.midPoint st) with false
      by (symmetry; apply Z.leb_gt; lia).
    unfold Scroll.follow.
    destruct (_ <? _); [cbn; auto|]. destruct (_ <=? _); cbn; auto.
Qed.

Lemma side_inv_transfer st0 st' :
  side_inv st0 ->
  Scroll.sel st' = Scroll.sel st0 -> Scroll.column st' = Scroll.column st0 ->
  side_inv st'.
Proof.
  unfold side_inv, side_ok, Scroll.midPoint. intros H Hs Hc.
  now rewrite Hs, Hc.
Qed.

Lemma side_inv_render st0 :
  side_inv st0 -> side_inv (JS.state_of (Scroll.render RegExp_test st0)).
Proof.
  intros H. destruct (scroll_render_same st0 H) as [Hs Hc].
  now apply (side_inv_transfer st0).
Qed.

Lemma side_inv_moved st i col :
  2 <= count (Scroll.sel st) -> 0 <= i < count (Scroll.sel st) ->
  match col with
  | Scroll.LeftCol => i < Scroll.midPoint st
  | Scroll.RightCol => Scroll.midPoint st <= i
  end ->
  side_inv (Scroll.set_cursor (JS.Num i) (Scroll.set_column col st)).
Proof.
  intros Hn Hi Hside. split; [exact Hn|]. split.
  - exists i. split; [reflexivity | exact Hi].
  - exists i. split; [reflexivity | exact Hside].
Qed.

Lemma set_column_same st : Scroll.set_column (Scroll.column st) st = st.
Proof. now destruct st. Qed.

Lemma side_inv_sel s st :
  side_inv st ->
  index s = index (Scroll.sel st) -> count s = count (Scroll.sel st) ->
  side_inv (Scroll.set_sel s st).
Proof.
  unfold side_inv, side_ok, in_range, Scroll.midPoint.
  cbn [Scroll.sel Scroll.set_sel Scroll.column].
  intros H Hi Hc. now rewrite Hi, Hc.
Qed.

Lemma side_inv_keypress k st :
  side_inv st ->
  side_inv (JS.state_of (Scroll.keypress RegExp_test readFile k st)).
Proof.
  intros Hinv.
  pose proof Hinv as (Hn & (i & Hi & Hr) & (j & Hj & Hside)).
  rewrite Hi in Hj. injection Hj as <-.
  assert (Hn1 : 1 <= count (Scroll.sel st)) by lia.
  pose proof (half_bounds _ Hn1) as Hm.
  pose proof (half_below _ Hn) as Hb.
  fold (Scroll.midPoint st) in Hm, Hb.
  unfold Scroll.keypress. cbv zeta. rewrite Hi.
  destruct k.
  - (* up *)
    apply side_inv_render.
    destruct (JS.gtb _ _) eqn:E; [|exact Hinv].
    cbn in E. apply Z.ltb_lt in E. cbn [JS.add].
    rewrite <- (set_column_same st) at 1.
    destruct (Scroll.column st); apply side_inv_moved; lia.
  - (* down *)
    apply side_inv_render.
    destruct (Scroll.column st) eqn:Ecol;
      (destruct (JS.ltb _ _) eqn:E; [|exact Hinv]);
      cbn in E; apply Z.ltb_lt in E; cbn [JS.add];
      rewrite <- (set_column_same st) at 1; rewrite Ecol;
      apply side_inv_moved; lia.
  - (* left *)
    destruct (Scroll.side_eqb _ _); [exact Hinv|].
    apply side_inv_render. cbn [JS.min]. apply side_inv_moved; lia.
  - (* right *)
    destruct (Scroll.column st) eqn:Ecol; cbn [Scroll.side_eqb];
      [|exact Hinv].
    apply side_inv_render. cbn [JS.ltb].
    replace (i <? Scroll.midPoint st) with true
      by (symmetry; apply Z.ltb_lt; lia).
    cbn [JS.min]. apply side_inv_moved; lia.
  - (* space *)
    destruct (space RegExp_test readFile (Scroll.sel st)) as [o|] eqn:Es;
      [|exact Hinv].
    apply space_some in Es as (_ & Hix & Hcnt & _).
    destruct o as [s|s]; cbn [JS.state_of] in *.
    + apply side_inv_render. now apply side_inv_sel.
    + now apply side_inv_sel.
  - (* a *)
    destruct (toggleAll_facts RegExp_test readFile (Scroll.sel st))
      as (Hix & Hcnt & _).
    destruct (toggleAll _ _ _) as [s|s]; cbn [JS.state_of] in *.
    + apply side_inv_render. now apply side_inv_sel.
    + now apply side_inv_sel.
Qed.

Lemma side_inv_step st e :
  side_inv st -> side_inv (Scroll.step RegExp_test readFile st e).
Proof.
  intros H. destruct e as [k|size]; [now apply side_inv_keypress|].
  unfold Scroll.step, Scroll.handle, Scroll.resize.
  apply side_inv_render.
  apply (side_inv_transfer st); [exact H | reflexivity | reflexivity].
Qed.

End SideFacts.

(** X9: in the scrolling selector over at least two items, the column
    marker always names the side the cursor is on: left when the index is
    below [midPoint], right otherwise.  This holds in the constructed
    selector and after each event of any sequence of keys and resizes. *)
Theorem scrolling_marker_names_the_cursor_side :
  forall RegExp_test readFile es st,
    Layout.side_inv st ->
    Forall (fun st' => Layout.side_ok st' /\ Props.in_range (Scroll.sel st'))
           (Scroll.trace RegExp_test readFile es st).
Proof.
  intros re rf es. induction es as [|e es IH]; intros st Hinv;
    cbn [Scroll.trace]; constructor.
  - destruct (side_inv_step re rf st e Hinv) as (_ & Hr & Hs). auto.
  - apply IH. now apply side_inv_step.
Qed.

(** X9 on seven items: right, down, a resize, left. *)
Lemma scrolling_marker_names_the_cursor_side_witness :
  Forall (fun st' => Layout.side_ok st' /\ Props.in_range (Scroll.sel st'))
         (Scroll.trace Regex.test Examples.no_file
            [Terminal.Key Terminal.Right; Terminal.Key Terminal.Down;
             Terminal.Resize Examples.narrow; Terminal.Key Terminal.Left]
            (Scroll.construct Examples.seven Examples.wide)).
Proof.
  apply (scrolling_marker_names_the_cursor_side Regex.test Examples.no_file).
  split; [cbn; lia|]. split.
  - exists 0. split; [reflexivity | cbn; lia].
  - exists 0. split; [reflexivity | reflexivity].
Defined.

(** X10: in the scrolling selector over at least two items, with the marker
    on the cursor's side, the right key pressed in the left column puts the
    cursor on the first row of the right column, whatever its row was, and
    the left key pressed in the right column puts it on the last row of the
    left column; the key of the side the cursor is already on changes
    nothing. *)
Theorem scrolling_left_right_land_on_column_ends :
  forall RegExp_test readFile st,
    Layout.side_inv st ->
    let press k s := Scroll.step RegExp_test readFile s (Terminal.Key k) in
    (Scroll.column st = Scroll.LeftCol ->
     Selection.index (Scroll.sel (press Terminal.Right st))
     = JS.Num (Scroll.midPoint st)
     /\ Scroll.column (press Terminal.Right st) = Scroll.RightCol
     /\ press Terminal.Left st = st)
    /\ (Scroll.column st = Scroll.RightCol ->
        Selection.index (Scroll.sel (press Terminal.Left st))
        = JS.Num (Scroll.midPoint st - 1)
        /\ Scroll.column (press Terminal.Left st) = Scroll.LeftCol
        /\ press Terminal.Right st = st).
Proof.
  intros re rf st Hinv press.
  pose proof Hinv as (Hn & (i & Hi & Hr) & (j & Hj & Hside)).
  rewrite Hi in Hj. injection Hj as <-.
  assert (Hn1 : 1 <= Selection.count (Scroll.sel st)) by lia.
  pose proof (half_bounds _ Hn1) as Hm.
  pose proof (half_below _ Hn) as Hb.
  fold (Scroll.midPoint st) in Hm, Hb.
  split; intros Hcol; rewrite Hcol in Hside.
  - assert (Hmoved : Layout.side_inv
                       (Scroll.set_cursor (JS.Num (Scroll.midPoint st))
                          (Scroll.set_column Scroll.RightCol st)))
      by (apply side_inv_moved; lia).
    destruct (scroll_render_same re _ Hmoved) as [Hs Hc].
    assert (H1 : press Terminal.Right st
                 = JS.state_of
                     (Scroll.render re
                        (Scroll.set_cursor (JS.Num (Scroll.midPoint st))
                           (Scroll.set_column Scroll.RightCol st)))).
    { unfold press, Scroll.step, Scroll.handle, Scroll.keypress. cbv zeta.
      rewrite Hcol, Hi. cbn [Scroll.side_eqb JS.ltb].
      replace (i <? Scroll.midPoint st) with true
        by (symmetry; apply Z.ltb_lt; lia).
      cbn [JS.min].
      replace (Z.min (Scroll.midPoint st)
                 (Selection.count (Scroll.sel st) - 1))
        with (Scroll.midPoint st) by lia.
      reflexivity. }
    rewrite H1, Hs, Hc. repeat split.
    unfold press, Scroll.step, Scroll.handle, Scroll.keypress. cbv zeta.
    now rewrite Hcol.
  - assert (Hmoved : Layout.side_inv
                       (Scroll.set_cursor (JS.Num (Scroll.midPoint st - 1))
                          (Scroll.set_column Scroll.LeftCol st)))
      by (apply side_inv_moved; lia).
    destruct (scroll_render_same re _ Hmoved) as [Hs Hc].
    assert (H1 : press Terminal.Left st
                 = JS.state_of
                     (Scroll.render re
                        (Scroll.set_cursor (JS.Num (Scroll.midPoint st - 1))
                           (Scroll.set_column Scroll.LeftCol st)))).
    { unfold press, Scroll.step, Scroll.handle, Scroll.keypress. cbv zeta.
      rewrite Hcol, Hi. cbn [Scroll.side_eqb JS.min].
      replace (Z.min i (Scroll.midPoint st - 1))
        with (Scroll.midPoint st - 1) by lia.
      reflexivity. }
    rewrite H1, Hs, Hc. repeat split.
    unfold press, Scroll.step, Scroll.handle, Scroll.keypress. cbv zeta.
    now rewrite Hcol.
Qed.

(** X10 on seven items from the constructed selector: right lands on
    index 4. *)
Lemma scrolling_left_right_land_on_column_ends_witness :
  let st := Scroll.construct Examples.seven Examples.wide in
  let press k s := Scroll.step Regex.test Examples.no_file s (Terminal.Key k) in
  Selection.index (Scroll.sel (press Terminal.Right st))
  = JS.Num (Scroll.midPoint st)
  /\ Scroll.column (press Terminal.Right st) = Scroll.RightCol
  /\ press Terminal.Left st = st.
Proof.
  assert (Hinv : Layout.side_inv
                   (Scroll.construct Examples.seven Examples.wide)).
  { split; [cbn; lia|]. split.
    - exists 0. split; [reflexivity | cbn; lia].
    - exists 0. split; [reflexivity | reflexivity]. }
  apply (proj1 (scrolling_left_right_land_on_column_ends Regex.test
                  Examples.no_file
                  (Scroll.construct Examples.seven Examples.wide) Hinv)).
  reflexivity.
Defined.

(** ** stripAnsi *)

Section AnsiFacts.
Import Ansi.

Lemma string_app_nil_r (s : string) : s ++ EmptyString = s.
Proof. induction s as [|a s IH]; cbn; [reflexivity | now rewrite IH]. Qed.

Lemma scan_params params : forall held rest,
  all_params params = true ->
  scan (InParams held) (params ++ rest) = scan (InParams (held ++ params)) rest.
Proof.
  induction params as [|c params IH]; intros held rest H.
  - cbn [append]. now rewrite string_app_nil_r.
  - cbn [all_params] in H. apply andb_true_iff in H as [Hc Hp].
    cbn [append scan]. rewrite Hc, IH by assumption.
    now rewrite string_app_assoc.
Qed.

Lemma scan_code params rest :
  all_params params = true ->
  scan Outside (code params ++ rest) = scan Outside rest.
Proof.
  intros H. unfold code. cbn [append scan].
  rewrite Ascii.eqb_refl. cbn [Ascii.eqb].
  change (Ascii.eqb "[" "[") with true. cbv iota.
  rewrite string_app_assoc, scan_params by assumption.
  cbn [append scan]. reflexivity.
Qed.

Lemma scan_plain text rest :
  Props.contains ESC text = false ->
  scan Outside (text ++ rest) = text ++ scan Outside rest.
Proof.
  induction text as [|c text IH]; intros H; [reflexivity|].
  cbn [Props.contains] in H. apply orb_false_iff in H as [Hc Ht].
  cbn [append scan]. rewrite Hc, IH by assumption. reflexivity.
Qed.

(** The text written by a scan is never longer than what was read plus
    what was held back. *)
Lemma scan_length str : forall state,
  (String.length (scan state str)
   <= String.length str
      + match state with
        | Outside => 0
        | AfterEsc => 1
        | InParams params => 2 + String.length params
        end)%nat.
Proof.
  induction str as [|c str IH]; intros state.
  - destruct state; cbn; lia.
  - assert (Hrestart :
      (String.length (if Ascii.eqb c ESC then scan AfterEsc str
                      else String c (scan Outside str))
       <= S (String.length str))%nat).
    { destruct (Ascii.eqb c ESC).
      - specialize (IH AfterEsc). cbn in IH. lia.
      - specialize (IH Outside). cbn in *. lia. }
    destruct state as [| |params]; cbn [scan].
    + cbn [String.length]. lia.
    + destruct (Ascii.eqb c "[").
      * specialize (IH (InParams EmptyString)). cbn in *. lia.
      * cbn [String.length] in *. lia.
    + destruct (is_param c).
      * specialize (IH (InParams (params ++ String c EmptyString))).
        cbn [String.length] in *. rewrite string_app_length in IH.
        cbn [String.length] in IH. lia.
      * destruct (Ascii.eqb c "m").
        -- specialize (IH Outside). cbn [String.length] in *. lia.
        -- cbn [String.length]. rewrite string_app_length.
           cbn [String.length]. lia.
Qed.

End AnsiFacts.

(** X11: [stripAnsi] removes colour codes and nothing else from coloured
    text: a text without an ESC character, wrapped in an opening and a
    closing code (ESC, bracket, digits and semicolons, [m]), is stripped to
    the text itself; a string without ESC is returned as it is; and the
    result is never longer than the argument. *)
Theorem stripAnsi_recovers_coloured_text :
  (forall opening closing text,
      Ansi.all_params opening = true ->
      Ansi.all_params closing = true ->
      Props.contains Ansi.ESC text = false ->
      Ansi.stripAnsi (Ansi.code opening ++ text ++ Ansi.code closing) = text)
  /\ (forall str,
      Props.contains Ansi.ESC str = false -> Ansi.stripAnsi str = str)
  /\ (forall str,
      (String.length (Ansi.stripAnsi str) <= String.length str)%nat).
Proof.
  split; [|split].
  - intros opening closing text Ho Hc Ht. unfold Ansi.stripAnsi.
    rewrite scan_code, scan_plain by assumption.
    rewrite <- (string_app_nil_r (Ansi.code closing)).
    rewrite scan_code by assumption. apply string_app_nil_r.
  - intros str H. unfold Ansi.stripAnsi.
    rewrite <- (string_app_nil_r str) at 1.
    rewrite scan_plain by assumption. apply string_app_nil_r.
  - intros str. pose proof (scan_length str Ansi.Outside) as H.
    cbv beta iota in H. unfold Ansi.stripAnsi. lia.
Qed.

(** X11 on a path in blue: codes 34 and 39. *)
Lemma stripAnsi_recovers_coloured_text_witness :
  Ansi.stripAnsi (Ansi.code "34" ++ "src/a.js" ++ Ansi.code "39") = "src/a.js".
Proof.
  apply (proj1 stripAnsi_recovers_coloured_text "34" "39" "src/a.js");
    reflexivity.
Defined.

(** ** readFiles and the replacement, once more *)

Section ReadFilesExact.
Import Minify Selection.

Variable readFile : string -> read_result.

Lemma assign_In k v o kv :
  In kv (assign k v o) -> kv = (k, v) \/ In kv o.
Proof.
  unfold assign. destruct (String.eqb k "__proto__"); [now right|].
  apply obj_set_In.
Qed.

Lemma readFiles_from_In kv filePaths : forall code,
  In kv (readFiles_from readFile code filePaths) ->
  In kv code
  \/ (In (fst kv) filePaths /\ readFile (fst kv) = ReadOk (snd kv)).
Proof.
  induction filePaths as [|p ps IH]; intros code H; cbn [readFiles_from] in H.
  - now left.
  - destruct (readFile p) as [c|? ?] eqn:E.
    + apply IH in H as [H|[H1 H2]]; [|right; split; [now right | exact H2]].
      apply assign_In in H as [->|H]; [|now left].
      right. cbn. split; [now left | exact E].
    + apply IH in H as [H|[H1 H2]]; [now left|].
      right. split; [now right | exact H2].
Qed.

Lemma obj_set_length k v o :
  (List.length (obj_set k v o) <= S (List.length o))%nat.
Proof.
  induction o as [|[k' v'] o IH]; cbn [obj_set]; [cbn; lia|].
  destruct (String.eqb k k'); [cbn; lia|].
  destruct (precedes k k'); cbn in *; lia.
Qed.

Lemma readFiles_from_length filePaths : forall code,
  (List.length (readFiles_from readFile code filePaths)
   <= List.length code + List.length filePaths)%nat.
Proof.
  induction filePaths as [|p ps IH]; intros code; cbn [readFiles_from];
    [lia|].
  destruct (readFile p) as [c|? ?].
  - specialize (IH (assign p c code)). unfold assign in *.
    destruct (String.eqb p "__proto__"); cbn [List.length] in *; [lia|].
    pose proof (obj_set_length p c code). lia.
  - specialize (IH code). cbn [List.length]. lia.
Qed.

Lemma collapse_twice P s :
  P " "%char = true ->
  forall b, collapse P b (collapse P b s) = collapse P b s.
Proof.
  intros Hsp. induction s as [|a s IH]; intros b; [reflexivity|].
  cbn [collapse]. destruct (P a) eqn:E.
  - destruct b; [apply IH|]. cbn [collapse]. rewrite Hsp. now rewrite IH.
  - cbn [collapse]. rewrite E. now rewrite IH.
Qed.

Lemma collapse_length P s :
  forall b, (String.length (collapse P b s) <= String.length s)%nat.
Proof.
  induction s as [|a s IH]; intros b; [cbn; lia|].
  cbn [collapse]. destruct (P a).
  - destruct b; [specialize (IH true) | specialize (IH true)]; cbn in *; lia.
  - specialize (IH false). cbn in *. lia.
Qed.

End ReadFilesExact.

(** X12: the object [readFiles] returns holds the selected files that can
    be read and nothing else: a path other than [__proto__] is a key with a
    given content exactly when it is selected and reading it gives that
    content; a file that cannot be read is absent; and the object has at
    most as many entries as paths were selected. *)
Theorem readFiles_holds_the_readable_selected_files :
  forall readFile selectedFiles path content,
    path <> "__proto__" ->
    (Minify.obj_get path (Minify.readFiles readFile selectedFiles)
     = Some content
     <-> In path selectedFiles /\ readFile path = Selection.ReadOk content)
    /\ (List.length (Minify.readFiles readFile selectedFiles)
        <= List.length selectedFiles)%nat.
Proof.
  intros rf files path content Hp. split; [split|].
  - intros H. apply obj_get_In in H.
    apply readFiles_from_In in H as [[]|H]. exact H.
  - intros [Hin Hread]. now apply readFiles_get.
  - apply (readFiles_from_length rf files []).
Qed.

(** X12 on one readable and one missing file. *)
Lemma readFiles_holds_the_readable_selected_files_witness :
  (Minify.obj_get "a.txt"
     (Minify.readFiles Examples.one_file ["a.txt"; "gone.txt"])
   = Some Examples.spaced
   <-> In "a.txt" ["a.txt"; "gone.txt"]
       /\ Examples.one_file "a.txt" = Selection.ReadOk Examples.spaced)
  /\ (List.length (Minify.readFiles Examples.one_file ["a.txt"; "gone.txt"])
      <= List.length ["a.txt"; "gone.txt"])%nat.
Proof.
  apply (readFiles_holds_the_readable_selected_files Examples.one_file
           ["a.txt"; "gone.txt"] "a.txt" Examples.spaced).
  discriminate.
Defined.

(** X13: the whitespace replacement of [minifyAndSave] and of
    [buildStructureJSON] is idempotent and never lengthens the text:
    applying it to its own result changes nothing. *)
Theorem minify_is_idempotent :
  forall codeJSON,
    Minify.minify (Minify.minify codeJSON) = Minify.minify codeJSON
    /\ (String.length (Minify.minify codeJSON)
        <= String.length codeJSON)%nat.
Proof.
  intros s. split.
  - apply (collapse_twice JS.is_space s eq_refl false).
  - apply collapse_length.
Qed.

(** ** The paths of a structure *)

Section JsonFacts.
Import Json Paths.

Lemma value_induction (P : value -> Prop) :
  (forall s, P (JString s)) ->
  (forall text, P (JAtom text)) ->
  (forall items, Forall P items -> P (JArray items)) ->
  (forall members,
      Forall (fun kv => P (snd kv)) members -> P (JObject members)) ->
  forall v, P v.
Proof.
  intros HS HA HArr HObj. fix IH 1. intros [s|text|items|members].
  - apply HS.
  - apply HA.
  - apply HArr.
    induction items as [|v rest IHr]; constructor; [apply IH | exact IHr].
  - apply HObj.
    induction members as [|[k v] rest IHr]; constructor;
      [apply IH | exact IHr].
Qed.

Lemma getFilePaths_array items base :
  getFilePaths (JArray items) base = array_loop base 0 [] [] items.
Proof.
  cbn [getFilePaths].
  match goal with
  | |- ?L 0%nat [] [] items = _ =>
      enough (H : forall rest i f d, L i f d rest = array_loop base i f d rest)
        by apply H
  end.
  induction rest as [|v rest IH]; intros i f d; [reflexivity|].
  destruct v; cbn [array_loop]; apply IH.
Qed.

Lemma getFilePaths_object members base :
  getFilePaths (JObject members) base = object_loop base [] [] members.
Proof.
  cbn [getFilePaths].
  match goal with
  | |- ?L [] [] members = _ =>
      enough (H : forall rest f d, L f d rest = object_loop base f d rest)
        by apply H
  end.
  induction rest as [|[k v] rest IH]; intros f d; [reflexivity|].
  destruct v; cbn [object_loop]; apply IH.
Qed.

Lemma array_loop_base b b' items :
  Forall (fun v => forall c c', getFilePaths v c = getFilePaths v c') items ->
  forall i f d, array_loop b i f d items = array_loop b' i f d items.
Proof.
  induction 1 as [|v rest Hv _ IH]; intros i f d; [reflexivity|].
  destruct v; cbn [array_loop]; try apply IH;
    rewrite (Hv (currentPath b (index_key i)) (currentPath b' (index_key i)));
    apply IH.
Qed.

Lemma object_loop_base b b' members :
  Forall (fun kv => forall c c',
              getFilePaths (snd kv) c = getFilePaths (snd kv) c') members ->
  forall f d, object_loop b f d members = object_loop b' f d members.
Proof.
  induction 1 as [|[k v] rest Hv _ IH]; intros f d; [reflexivity|].
  cbn [snd] in Hv.
  destruct v; cbn [object_loop]; try apply IH;
    rewrite (Hv (currentPath b k) (currentPath b' k)); apply IH.
Qed.

Lemma getFilePaths_base v : forall b b', getFilePaths v b = getFilePaths v b'.
Proof.
  induction v as [s|text|items IH|members IH] using value_induction;
    intros b b'; try reflexivity.
  - rewrite !getFilePaths_array. now apply array_loop_base.
  - rewrite !getFilePaths_object. now apply object_loop_base.
Qed.

(** The strings a loop adds to [files] and what it adds to
    [directories]. *)
Lemma object_loop_split b members : forall f d,
  object_loop b f d members
  = ((f ++ flat_map (fun '(_, x) =>
                       match x with JString s => [s] | _ => [] end) members)
     ++ (d ++ flat_map (fun '(k, x) =>
                          match x with
                          | JString _ => []
                          | _ => getFilePaths x (currentPath b k)
                          end) members))%list.
Proof.
  induction members as [|[k v] rest IH]; intros f d.
  - cbn. now rewrite !app_nil_r.
  - destruct v; cbn [object_loop flat_map]; rewrite IH;
      cbn [app]; rewrite <- ?app_assoc; reflexivity.
Qed.

Lemma array_loop_perm b items :
  Forall (fun v => match v with
                   | JString _ => True
                   | _ => forall c, Permutation (getFilePaths v c) (leaves v)
                   end) items ->
  forall i f d,
    Permutation (array_loop b i f d items)
                (f ++ d ++ flat_map leaves items).
Proof.
  induction 1 as [|v rest Hv _ IH]; intros i f d.
  - cbn. now rewrite app_nil_r.
  - destruct v as [s|text|its|ms]; cbn [array_loop flat_map].
    + rewrite IH, <- app_assoc. apply Permutation_app_head.
      cbn [leaves app]. apply Permutation_middle.
    + rewrite IH, <- app_assoc. apply Permutation_app_head.
      apply Permutation_app_head. apply Permutation_app_tail. apply Hv.
    + rewrite IH, <- app_assoc. apply Permutation_app_head.
      apply Permutation_app_head. apply Permutation_app_tail. apply Hv.
    + rewrite IH, <- app_assoc. apply Permutation_app_head.
      apply Permutation_app_head. apply Permutation_app_tail. apply Hv.
Qed.

Lemma object_loop_perm b members :
  Forall (fun kv => match snd kv with
                    | JString _ => True
                    | _ => forall c, Permutation (getFilePaths (snd kv) c)
                                                 (leaves (snd kv))
                    end) members ->
  forall f d,
    Permutation (object_loop b f d members)
                (f ++ d ++ flat_map (fun '(_, x) => leaves x) members).
Proof.
  induction 1 as [|[k v] rest Hv _ IH]; intros f d.
  - cbn. now rewrite app_nil_r.
  - cbn [snd] in Hv.
    destruct v as [s|text|its|ms]; cbn [object_loop flat_map].
    + rewrite IH, <- app_assoc. apply Permutation_app_head.
      cbn [leaves app]. apply Permutation_middle.
    + rewrite IH, <- app_assoc. apply Permutation_app_head.
      apply Permutation_app_head. apply Permutation_app_tail. apply Hv.
    + rewrite IH, <- app_assoc. apply Permutation_app_head.
      apply Permutation_app_head. apply Permutation_app_tail. apply Hv.
    + rewrite IH, <- app_assoc. apply Permutation_app_head.
      apply Permutation_app_head. apply Permutation_app_tail. apply Hv.
Qed.

Lemma getFilePaths_leaves v :
  match v with
  | JString _ => True
  | _ => forall c, Permutation (getFilePaths v c) (leaves v)
  end.
Proof.
  induction v as [s|text|items IH|members IH] using value_induction.
  - exact I.
  - intros c. apply Permutation_refl.
  - intros c. rewrite getFilePaths_array.
    apply (array_loop_perm c items IH 0%nat [] []).
  - intros c. rewrite getFilePaths_object.
    apply (object_loop_perm c members IH [] []).
Qed.

Lemma getFilePaths_object_leaves members c :
  Permutation (getFilePaths (JObject members) c) (leaves (JObject members)).
Proof. exact (getFilePaths_leaves (JObject members) c). Qed.

End JsonFacts.

(** X14: the argument [base] of [getFilePaths] has no effect on the
    result: the paths listed are the string values alone, whatever the keys
    under which they sit. *)
Theorem getFilePaths_ignores_base :
  forall structure base base',
    Paths.getFilePaths structure base = Paths.getFilePaths structure base'.
Proof. intros v b b'. apply getFilePaths_base. Qed.

(** X15: [getFilePaths] lists every string value found at any depth of
    the structure, each as often as it occurs, and nothing else; for an
    object the strings that are its own members come first, in the order of
    the keys, and the results for the other members follow in that order.
    A structure that is itself a string is listed character by
    character. *)
Theorem getFilePaths_lists_the_string_values :
  forall structure base,
    match structure with
    | Json.JString s =>
        Paths.getFilePaths structure base
        = map (fun c => String c EmptyString) (list_ascii_of_string s)
    | Json.JAtom _ => Paths.getFilePaths structure base = []
    | Json.JArray _ =>
        Permutation (Paths.getFilePaths structure base)
                    (Json.leaves structure)
    | Json.JObject members =>
        Permutation (Paths.getFilePaths structure base)
                    (Json.leaves structure)
        /\ Paths.getFilePaths structure base
           = (flat_map (fun '(_, x) =>
                          match x with Json.JString s => [s] | _ => [] end)
                       members
              ++ flat_map (fun '(k, x) =>
                             match x with
                             | Json.JString _ => []
                             | _ => Paths.getFilePaths x
                                      (Paths.currentPath base k)
                             end) members)%list
    end.
Proof.
  intros v b. destruct v as [s|text|items|members].
  - reflexivity.
  - reflexivity.
  - exact (getFilePaths_leaves (Json.JArray items) b).
  - split.
    + apply getFilePaths_object_leaves.
    + rewrite getFilePaths_object.
      apply (object_loop_split b members [] []).
Qed.

(** ** The structure of a directory *)

Section StructureFacts.
Import Json Paths Structure.

Lemma node_induction (P : node -> Prop) :
  P File -> P Special -> P Dangling ->
  (forall entries,
      Forall (fun e => P (snd e)) entries -> P (Dir entries)) ->
  forall n, P n.
Proof.
  intros HF HS HD HDir. fix IH 1.
  intros [ | | |entries]; [exact HF | exact HS | exact HD | ].
  apply HDir.
  induction entries as [|[name n] rest IHr]; constructor;
    [apply IH | exact IHr].
Qed.

Lemma parseStructure_entries dir entries :
  parseStructure dir (Dir entries) = parse_entries dir [] entries.
Proof.
  cbn [parseStructure].
  match goal with
  | |- ?L [] entries = _ =>
      enough (H : forall files acc, L acc files = parse_entries dir acc files)
        by apply H
  end.
  induction files as [|[file n] rest IH]; intros acc; [reflexivity|].
  destruct n as [ | | |sub]; cbn [parse_entries]; cbv zeta;
    try apply IH; try reflexivity.
  destruct (parseStructure (dir ++ [file]) (Dir sub)); [apply IH|reflexivity].
Qed.

Lemma set_member_perm {V : Type} k (v : V) o :
  ~ In k (map fst o) -> Permutation (set_member k v o) ((k, v) :: o).
Proof.
  induction o as [|[k' v'] o IH]; intros Hk; cbn [set_member];
    [apply Permutation_refl|].
  cbn in Hk.
  destruct (String.eqb k k') eqn:E.
  - apply String.eqb_eq in E. subst. exfalso. apply Hk. now left.
  - destruct (Minify.precedes k k'); [apply Permutation_refl|].
    rewrite IH by (intros H; apply Hk; now right).
    apply perm_swap.
Qed.

Lemma set_member_keys {V : Type} k (v : V) o x :
  In x (map fst (set_member k v o)) -> x = k \/ In x (map fst o).
Proof.
  induction o as [|[k' v'] o IH]; cbn [set_member].
  - cbn. intros [H|[]]. now left.
  - destruct (String.eqb k k') eqn:E.
    + cbn. intros [H|H]; [now left | right; now right].
    + destruct (Minify.precedes k k').
      * cbn. intros [H|[H|H]]; [now left | right; now left | right; now right].
      * cbn. intros [H|H]; [right; now left|].
        apply IH in H as [H|H]; [now left | right; now right].
Qed.

Lemma assign_member_keys {V : Type} k (v : V) o x :
  In x (map fst (assign_member k v o)) -> x = k \/ In x (map fst o).
Proof.
  unfold assign_member. destruct (String.eqb k "__proto__"); [now right|].
  apply set_member_keys.
Qed.

Lemma distinct_cons x rest :
  distinct (x :: rest) = true -> ~ In x rest /\ distinct rest = true.
Proof.
  cbn [distinct]. intros H. apply andb_true_iff in H as [H1 H2].
  split; [|exact H2]. intros Hin.
  apply negb_true_iff in H1.
  assert (existsb (String.eqb x) rest = true)
    by (apply existsb_exists; exists x; split;
        [exact Hin | apply String.eqb_refl]).
  congruence.
Qed.

Lemma not_existsb_eqb x l :
  existsb (String.eqb x) l = false -> ~ In x l.
Proof.
  intros H Hin.
  assert (existsb (String.eqb x) l = true)
    by (apply existsb_exists; exists x; split;
        [exact Hin | apply String.eqb_refl]).
  congruence.
Qed.

Local Abbreviation LV := (flat_map (fun '(_, x) => leaves x)).

Local Abbreviation entry_files dir :=
  (fun '(file, n) =>
     match n with
     | Dir _ => files_below (dir ++ [file])%list n
     | Dangling => []
     | File | Special => [(dir ++ [file])%list]
     end).

Local Abbreviation lists_files n :=
  (forall dir s,
      well_named n = true ->
      parseStructure dir n = Some s ->
      Permutation (leaves (JObject s)) (map relative (files_below dir n))).

(** One assignment of the loop. *)
Lemma assign_fresh_leaves file (v : value) acc :
  file <> "__proto__" ->
  ~ In file (map fst acc) ->
  Permutation (LV (assign_member file v acc)) (LV acc ++ leaves v).
Proof.
  intros Hp Hk. unfold assign_member.
  apply String.eqb_neq in Hp. rewrite Hp.
  rewrite (Permutation_flat_map _ (set_member_perm file v acc Hk)).
  cbn [flat_map]. apply Permutation_app_comm.
Qed.

Lemma parse_entries_files dir files :
  Forall (fun e => lists_files (snd e)) files ->
  forall acc r,
    distinct (map fst files) = true ->
    ~ In "__proto__" (map fst files) ->
    (forall k, In k (map fst files) -> ~ In k (map fst acc)) ->
    forallb (fun '(_, n) => well_named n) files = true ->
    parse_entries dir acc files = Some r ->
    Permutation (LV r)
      (LV acc ++ map relative (flat_map (entry_files dir) files)).
Proof.
  induction 1 as [|[file n] rest Hn _ IH];
    intros acc r Hd Hp Hfresh Hw Hr.
  - cbn in Hr. injection Hr as <-. cbn. now rewrite app_nil_r.
  - cbn [map fst] in Hd, Hp, Hfresh.
    apply distinct_cons in Hd as [Hnot Hd].
    cbn [forallb] in Hw. apply andb_true_iff in Hw as [Hwn Hw].
    assert (Hfile : file <> "__proto__")
      by (intros ->; apply Hp; now left).
    assert (Hp' : ~ In "__proto__" (map fst rest))
      by (intros H; apply Hp; now right).
    assert (Hacc : ~ In file (map fst acc))
      by (apply Hfresh; now left).
    assert (Hnext : forall v k,
               In k (map fst rest) ->
               ~ In k (map fst (assign_member file v acc))).
    { intros v k Hk Hin. apply assign_member_keys in Hin as [->|Hin].
      - now apply Hnot.
      - apply (Hfresh k); [now right | exact Hin]. }
    cbn [snd] in Hn.
    cbn [flat_map]. rewrite map_app, app_assoc.
    cbn [parse_entries] in Hr. cbv zeta in Hr.
    destruct n as [ | | |sub].
    + rewrite (IH _ _ Hd Hp' (Hnext _) Hw Hr).
      apply Permutation_app_tail.
      now apply assign_fresh_leaves.
    + rewrite (IH _ _ Hd Hp' (Hnext _) Hw Hr).
      apply Permutation_app_tail.
      now apply assign_fresh_leaves.
    + discriminate Hr.
    + destruct (parseStructure (dir ++ [file]) (Dir sub)) as [s|] eqn:Es;
        [|discriminate Hr].
      rewrite (IH _ _ Hd Hp' (Hnext _) Hw Hr).
      apply Permutation_app_tail.
      rewrite (assign_fresh_leaves file (JObject s) acc Hfile Hacc).
      apply Permutation_app_head.
      apply (Hn _ _ Hwn Es).
Qed.

Lemma parseStructure_files n : lists_files n.
Proof.
  induction n as [ | | |entries IH] using node_induction;
    intros dir s Hw Hs; try discriminate Hs.
  rewrite parseStructure_entries in Hs.
  cbn [well_named] in Hw.
  apply andb_true_iff in Hw as [Hw Hsub].
  apply andb_true_iff in Hw as [Hd Hp].
  apply negb_true_iff in Hp. apply not_existsb_eqb in Hp.
  apply (parse_entries_files dir entries IH [] s Hd Hp); auto.
Qed.

Lemma parse_entries_fails dir files :
  Forall (fun e => forall d,
              parseStructure d (snd e) = None
              <-> match snd e with
                  | Dir _ => has_dangling (snd e) = true
                  | _ => True
                  end) files ->
  forall acc,
    parse_entries dir acc files = None
    <-> existsb (fun '(_, n) =>
                   match n with
                   | Dir _ => has_dangling n
                   | Dangling => true
                   | File | Special => false
                   end) files = true.
Proof.
  induction 1 as [|[file n] rest Hn _ IH]; intros acc.
  - cbn. split; discriminate.
  - cbn [snd] in Hn. cbn [parse_entries existsb]. cbv zeta.
    destruct n as [ | | |sub].
    + rewrite IH. reflexivity.
    + rewrite IH. reflexivity.
    + split; reflexivity.
    + rewrite orb_true_iff.
      destruct (parseStructure (dir ++ [file]) (Dir sub)) as [s|] eqn:Es.
      * rewrite IH. split; [now right|].
        intros [H|H]; [|exact H].
        apply (Hn (dir ++ [file])%list) in H. congruence.
      * split; [|reflexivity]. intros _. left.
        now apply (Hn (dir ++ [file])%list).
Qed.

Lemma parseStructure_fails n : forall d,
  parseStructure d n = None
  <-> match n with
      | Dir _ => has_dangling n = true
      | _ => True
      end.
Proof.
  induction n as [ | | |entries IH] using node_induction; intros d;
    try (split; reflexivity).
  rewrite parseStructure_entries. cbn [has_dangling].
  now apply parse_entries_fails.
Qed.

(** The keys of a structure are names of the directory. *)
Lemma parse_entries_keys dir files : forall acc r k,
  parse_entries dir acc files = Some r ->
  In k (map fst r) ->
  In k (map fst acc) \/ In k (map fst files).
Proof.
  induction files as [|[file n] rest IH]; intros acc r k Hr Hk.
  - cbn in Hr. injection Hr as <-. now left.
  - cbn [parse_entries] in Hr. cbv zeta in Hr. cbn [map fst].
    destruct n as [ | | |sub].
    + destruct (IH _ _ _ Hr Hk) as [H|H]; [|right; now right].
      apply assign_member_keys in H as [->|H];
        [right; now left | now left].
    + destruct (IH _ _ _ Hr Hk) as [H|H]; [|right; now right].
      apply assign_member_keys in H as [->|H];
        [right; now left | now left].
    + discriminate Hr.
    + destruct (parseStructure (dir ++ [file]) (Dir sub)) as [s|];
        [|discriminate Hr].
      destruct (IH _ _ _ Hr Hk) as [H|H]; [|right; now right].
      apply assign_member_keys in H as [->|H];
        [right; now left | now left].
Qed.

Lemma scanAll_from_kept items : forall acc,
  scanAll_from acc items = parse_entries [] acc (kept items).
Proof.
  induction items as [|[item n] rest IH]; intros acc; [reflexivity|].
  cbn [scanAll_from kept filter].
  destruct (includes excludedDirs item); cbn [negb andb]; [apply IH|].
  destruct n as [ | | |sub]; cbn [processItem parse_entries]; cbv zeta;
    cbn [app]; try apply IH; try reflexivity.
  destruct (parseStructure [item] (Dir sub)); [apply IH | reflexivity].
Qed.

Lemma kept_names items name :
  In name (map fst (kept items)) -> includes excludedDirs name = false.
Proof.
  unfold kept. intros H. apply in_map_iff in H as [[item n] [<- H]].
  apply filter_In in H as [_ H]. cbn [fst].
  apply andb_true_iff in H as [H _]. now apply negb_true_iff in H.
Qed.

End StructureFacts.

(** X16: [parseStructure] is rejected exactly when [fs.stat] rejects an
    item somewhere below the directory.  When it completes, for a directory
    whose names are distinct and never [__proto__], the paths
    [getFilePaths] extracts from the object it returns are the relative
    paths of all the items below the directory that are not directories,
    each once. *)
Theorem parseStructure_lists_every_file_below :
  forall dir entries,
    (Structure.parseStructure dir (Structure.Dir entries) = None
     <-> Structure.has_dangling (Structure.Dir entries) = true)
    /\ (Structure.well_named (Structure.Dir entries) = true ->
        forall s,
          Structure.parseStructure dir (Structure.Dir entries) = Some s ->
          Permutation
            (Paths.getFilePaths (Json.JObject s) "")
            (map Structure.relative
                 (Structure.files_below dir (Structure.Dir entries)))).
Proof.
  intros dir entries. split.
  - apply (parseStructure_fails (Structure.Dir entries) dir).
  - intros Hw s Hs.
    rewrite getFilePaths_object_leaves.
    now apply (parseStructure_files (Structure.Dir entries) dir s).
Qed.

(** X16 on the directory [src] of the example project. *)
Lemma parseStructure_lists_every_file_below_witness :
  exists s,
    Structure.parseStructure ["src"]
      (Structure.Dir [("main.js", Structure.File); ("10", Structure.File);
                      ("2", Structure.File);
                      ("lib", Structure.Dir [("a b.js", Structure.File)])])
    = Some s
    /\ Permutation
         (Paths.getFilePaths (Json.JObject s) "")
         ["src/main.js"; "src/10"; "src/2"; "src/lib/a b.js"].
Proof.
  eexists. split; [reflexivity|].
  apply (parseStructure_lists_every_file_below ["src"]
           [("main.js", Structure.File); ("10", Structure.File);
            ("2", Structure.File);
            ("lib", Structure.Dir [("a b.js", Structure.File)])]);
    reflexivity.
Defined.

(** X17: the full scan of [buildStructureJSON] builds the object that
    [parseStructure] would build for the base directory itself, once the
    entries of the base directory with an excluded name and those that are
    neither file nor directory are left out.  The exclusion holds at the
    top only: no key of the object is an excluded name, while below the top
    nothing is excluded. *)
Theorem full_scan_is_parseStructure_of_the_kept_entries :
  forall items,
    Structure.scanAll items
    = Structure.parseStructure [] (Structure.Dir (Structure.kept items))
    /\ (forall structure name,
           Structure.scanAll items = Some structure ->
           In name (map fst structure) ->
           In name (map fst items)
           /\ Structure.includes Structure.excludedDirs name = false).
Proof.
  intros items. split.
  - rewrite parseStructure_entries. apply scanAll_from_kept.
  - intros structure name Hs Hin. unfold Structure.scanAll in Hs.
    rewrite scanAll_from_kept in Hs.
    destruct (parse_entries_keys _ _ _ _ _ Hs Hin) as [[]|H].
    split; [|now apply (kept_names items)].
    unfold Structure.kept in H.
    apply in_map_iff in H as [e [<- H]].
    apply filter_In in H as [H _]. now apply in_map.
Qed.

(** X17 on the example project: the key [src] of the structure. *)
Lemma full_scan_is_parseStructure_of_the_kept_entries_witness :
  In "src" (map fst Structure.project)
  /\ Structure.includes Structure.excludedDirs "src" = false.
Proof.
  apply (proj2 (full_scan_is_parseStructure_of_the_kept_entries
                  Structure.project)
           [("src",
             Json.JObject
               [("2", Json.JString "src/2"); ("10", Json.JString "src/10");
                ("main.js", Json.JString "src/main.js");
                ("lib",
                 Json.JObject
                   [("a b.js", Json.JString "src/lib/a b.js");
                    ("sock", Json.JString "src/lib/sock")])]);
            ("README.md", Json.JString "README.md")]
           "src").
  - reflexivity.
  - cbn. tauto.
Defined.

(** ** The structure file *)

Section WrittenFacts.
Import Json Paths Structure Written Minify.

Local Abbreviation MT := (fun '(k, x) => quote k ++ String ":" (stringify x)).
Local Abbreviation SQ := (fun '(k, x) => (squeeze k, squeeze_value x)).
Local Abbreviation AV := (fun '(k, x) => (k, assemble_value x)).
Local Abbreviation LV := (flat_map (fun '(_, x) => leaves x)).

Lemma join_two sep p q rest :
  Props.join sep (p :: q :: rest)
  = p ++ String sep (Props.join sep (q :: rest)).
Proof. reflexivity. Qed.

(** *** The replacement seen through the serialization *)

Lemma collapse_members_value ms :
  ms <> [] ->
  Forall (fun kv =>
            is_structure (snd kv) = true ->
            forall b rest,
              collapse JS.is_space b (stringify (snd kv) ++ rest)
              = stringify (squeeze_value (snd kv))
                ++ collapse JS.is_space false rest) ms ->
  forallb (fun '(_, x) => is_structure x) ms = true ->
  forall b rest,
    collapse JS.is_space b (Props.join "," (map MT ms) ++ rest)
    = Props.join "," (map MT (map SQ ms))
      ++ collapse JS.is_space false rest.
Proof.
  intros Hne H. revert Hne.
  induction H as [|[k x] ms Hx _ IH]; intros Hne Hs b rest; [congruence|].
  cbn [forallb] in Hs. apply andb_true_iff in Hs as [Hsx Hs].
  cbn [snd] in Hx. specialize (Hx Hsx).
  destruct ms as [|m' ms].
  - cbn [map Props.join]. rewrite !string_app_assoc.
    rewrite collapse_quote. cbn [append collapse].
    change (JS.is_space ":") with false. cbv iota.
    rewrite Hx. reflexivity.
  - cbn [map]. cbn [map] in IH. rewrite !join_two.
    rewrite !string_app_assoc. rewrite collapse_quote.
    cbn [append collapse]. change (JS.is_space ":") with false. cbv iota.
    rewrite ?string_app_assoc. rewrite Hx.
    cbn [append collapse]. change (JS.is_space ",") with false. cbv iota.
    rewrite IH by (auto; discriminate). reflexivity.
Qed.

Lemma collapse_stringify v :
  is_structure v = true ->
  forall b rest,
    collapse JS.is_space b (stringify v ++ rest)
    = stringify (squeeze_value v) ++ collapse JS.is_space false rest.
Proof.
  induction v as [s|text|items IH|members IH] using value_induction;
    intros Hs b rest; try discriminate Hs.
  - apply collapse_quote.
  - cbn [stringify squeeze_value is_structure] in *.
    cbn [append collapse]. change (JS.is_space "{") with false. cbv iota.
    f_equal. rewrite !string_app_assoc.
    destruct members as [|m ms].
    + reflexivity.
    + rewrite (collapse_members_value (m :: ms)) by (auto; discriminate).
      reflexivity.
Qed.

Lemma minify_stringify_value v :
  is_structure v = true ->
  minify (stringify v) = stringify (squeeze_value v).
Proof.
  intros Hs. unfold minify.
  pose proof (collapse_stringify v Hs false EmptyString) as H.
  rewrite !string_app_nil_r in H. exact H.
Qed.

(** *** The structure is made of objects and strings *)

Lemma set_member_Forall {V : Type} (P : string * V -> Prop) k v o :
  P (k, v) -> Forall P o -> Forall P (set_member k v o).
Proof.
  intros Hkv. induction 1 as [|[k' v'] o Hk' Ho IH]; cbn [set_member].
  - now constructor.
  - destruct (String.eqb k k'); [now constructor|].
    destruct (precedes k k'); repeat constructor; auto.
Qed.

Lemma assign_member_Forall {V : Type} (P : string * V -> Prop) k v o :
  P (k, v) -> Forall P o -> Forall P (assign_member k v o).
Proof.
  intros Hkv Ho. unfold assign_member.
  destruct (String.eqb k "__proto__"); [exact Ho|].
  now apply set_member_Forall.
Qed.

Local Abbreviation IS :=
  (fun kv : string * value => is_structure (snd kv) = true).

Lemma forallb_structure ms :
  forallb (fun '(_, x) => is_structure x) ms = true
  <-> Forall (fun kv : string * value => is_structure (snd kv) = true) ms.
Proof.
  induction ms as [|[k x] ms IH]; cbn [forallb].
  - split; [constructor | reflexivity].
  - rewrite andb_true_iff, IH. split.
    + intros [H1 H2]. now constructor.
    + intros H. inversion H; subst. auto.
Qed.

Lemma parse_entries_structure dir files :
  Forall (fun e => forall d s,
              parseStructure d (snd e) = Some s ->
              is_structure (JObject s) = true) files ->
  forall acc r,
    Forall (fun kv : string * value => is_structure (snd kv) = true) acc ->
    parse_entries dir acc files = Some r ->
    Forall (fun kv : string * value => is_structure (snd kv) = true) r.
Proof.
  induction 1 as [|[file n] rest Hn _ IH]; intros acc r Hacc Hr.
  - cbn in Hr. now injection Hr as <-.
  - cbn [parse_entries] in Hr. cbv zeta in Hr. cbn [snd] in Hn.
    destruct n as [ | | |sub].
    + apply (IH _ _ (assign_member_Forall IS file (JString _) acc
                       eq_refl Hacc) Hr).
    + apply (IH _ _ (assign_member_Forall IS file (JString _) acc
                       eq_refl Hacc) Hr).
    + discriminate Hr.
    + destruct (parseStructure (dir ++ [file]) (Dir sub)) as [s|] eqn:Es;
        [|discriminate Hr].
      apply (IH _ _ (assign_member_Forall IS _ _ _ (Hn _ _ Es) Hacc) Hr).
Qed.

Lemma parseStructure_structure n : forall d s,
  parseStructure d n = Some s -> is_structure (JObject s) = true.
Proof.
  induction n as [ | | |entries IH] using node_induction; intros d s Hs;
    try discriminate Hs.
  rewrite parseStructure_entries in Hs.
  cbn [is_structure]. apply forallb_structure.
  apply (parse_entries_structure d entries IH [] s); [constructor | exact Hs].
Qed.

End WrittenFacts.

(** X18: the text the full scan writes to [project-structure.min.json] is
    the serialization of the structure in which each run of blanks inside a
    name or a path is one space; nothing else of the serialization is
    changed by the replacement. *)
Theorem structure_file_holds_the_squeezed_structure :
  forall items,
    Written.buildStructureJSON_scanAll items
    = option_map
        (fun structure =>
           Written.stringify
             (Written.squeeze_value (Json.JObject structure)))
        (Structure.scanAll items).
Proof.
  intros items. unfold Written.buildStructureJSON_scanAll.
  destruct (Structure.scanAll items) as [structure|] eqn:E; [|reflexivity].
  cbn [option_map]. f_equal. apply minify_stringify_value.
  unfold Structure.scanAll in E. rewrite scanAll_from_kept in E.
  rewrite <- parseStructure_entries in E.
  apply (parseStructure_structure _ _ _ E).
Qed.

(** ** Reading the structure file back *)

Section ReadBack.
Import Json Paths Structure Minify Written.

Local Abbreviation MT := (fun '(k, x) => quote k ++ String ":" (stringify x)).
Local Abbreviation AV := (fun '(k, x) => (k, assemble_value x)).
Local Abbreviation SQ := (fun '(k, x) => (squeeze k, squeeze_value x)).
Local Abbreviation LV := (flat_map (fun '(_, x) => leaves x)).
Local Abbreviation OK :=
  (fun kv : string * value => plain (fst kv) = true /\ tidy (snd kv) = true).
Local Abbreviation TM ms := (NoDup (map fst ms) /\ Forall OK ms).

Ltac by_ascii a :=
  destruct a as [[|] [|] [|] [|] [|] [|] [|] [|]].

Lemma parse_value_other fuel c t :
  Ascii.eqb c "{" = false ->
  parse_value (S fuel) (String c t)
  = match parse_string (String c t) with
    | Some (v, rest) => Some (JString v, rest)
    | None => None
    end.
Proof. by_ascii c; intros H; try reflexivity; cbv in H; discriminate H. Qed.

Lemma parse_value_object fuel c t :
  Ascii.eqb c "}" = false ->
  parse_value (S fuel) (String "{" (String c t))
  = match parse_members fuel (String c t) with
    | Some (ms, rest') => Some (JObject (assemble_members ms), rest')
    | None => None
    end.
Proof. by_ascii c; intros H; try reflexivity; cbv in H; discriminate H. Qed.

Lemma parse_members_S fuel s :
  parse_members (S fuel) s
  = match parse_string s with
    | Some (k, String ":" s1) =>
        match parse_value fuel s1 with
        | Some (v, String "}" rest) => Some ([(k, v)], rest)
        | Some (v, String "," rest) =>
            match parse_members fuel rest with
            | Some (ms, rest') => Some ((k, v) :: ms, rest')
            | None => None
            end
        | _ => None
        end
    | _ => None
    end.
Proof. reflexivity. Qed.

Lemma list_sum_cons a l : list_sum (a :: l) = (a + list_sum l)%nat.
Proof. reflexivity. Qed.

Lemma parse_members_stringify ms :
  ms <> [] ->
  Forall (fun kv =>
            is_structure (snd kv) = true ->
            forall fuel rest,
              (size (snd kv) <= fuel)%nat ->
              parse_value fuel (stringify (snd kv) ++ rest)
              = Some (assemble_value (snd kv), rest)) ms ->
  forallb (fun '(_, x) => is_structure x) ms = true ->
  forall fuel rest,
    (list_sum (map (fun '(_, x) => S (size x)) ms) <= fuel)%nat ->
    parse_members fuel (Props.join "," (map MT ms) ++ String "}" rest)
    = Some (map AV ms, rest).
Proof.
  intros Hne H. revert Hne.
  induction H as [|[k x] ms Hx _ IH]; intros Hne Hs fuel rest Hf;
    [congruence|].
  cbn [forallb] in Hs. apply andb_true_iff in Hs as [Hsx Hs].
  cbn [snd] in Hx. specialize (Hx Hsx).
  cbn [map] in Hf. rewrite list_sum_cons in Hf.
  destruct fuel as [|fuel]; [lia|].
  rewrite parse_members_S.
  destruct ms as [|m' ms].
  - cbn [map Props.join]. rewrite !string_app_assoc.
    rewrite parse_string_quote. cbn [append]. cbv beta iota.
    rewrite Hx by lia. reflexivity.
  - cbn [map]. cbn [map] in IH. rewrite join_two.
    rewrite !string_app_assoc. rewrite parse_string_quote.
    cbn [append]. cbv beta iota. rewrite ?string_app_assoc.
    rewrite Hx by lia. cbn [append]. cbv beta iota.
    rewrite IH; [reflexivity | discriminate | exact Hs |].
    cbn [map] in *. lia.
Qed.

Lemma members_start m ms :
  exists t, Props.join "," (map MT (m :: ms)) = String dquote t.
Proof.
  destruct m as [k x]. destruct ms as [|m' ms]; cbn [map].
  - cbn [Props.join]. unfold quote. cbn [append]. eexists. reflexivity.
  - rewrite join_two. unfold quote at 1. cbn [append]. eexists.
    reflexivity.
Qed.

Lemma parse_stringify v :
  is_structure v = true ->
  forall fuel rest,
    (size v <= fuel)%nat ->
    parse_value fuel (stringify v ++ rest) = Some (assemble_value v, rest).
Proof.
  induction v as [s|text|items IH|members IH] using value_induction;
    intros Hs fuel rest Hf; try discriminate Hs.
  - destruct fuel as [|fuel]; [cbn in Hf; lia|].
    cbn [stringify assemble_value].
    assert (Hq : quote s ++ rest
                 = String dquote
                     ((quote_body s ++ String dquote EmptyString) ++ rest))
      by reflexivity.
    rewrite Hq. rewrite parse_value_other by reflexivity.
    rewrite <- Hq. rewrite parse_string_quote. reflexivity.
  - cbn [is_structure] in Hs. cbn [size] in Hf.
    destruct fuel as [|fuel]; [lia|].
    cbn [stringify assemble_value].
    destruct members as [|m ms].
    + reflexivity.
    + destruct (members_start m ms) as [t Ht].
      cbn [append]. rewrite !string_app_assoc.
      rewrite Ht. cbn [append].
      rewrite parse_value_object by reflexivity.
      change (String dquote (t ++ String "}" rest))
        with (String dquote t ++ String "}" rest).
      rewrite <- Ht.
      rewrite (parse_members_stringify (m :: ms));
        [reflexivity | discriminate | exact IH | exact Hs | lia].
Qed.

Lemma members_size ms :
  forallb (fun '(_, x) => is_structure x) ms = true ->
  Forall (fun kv =>
            is_structure (snd kv) = true ->
            (size (snd kv) <= String.length (stringify (snd kv)))%nat) ms ->
  (list_sum (map (fun '(_, x) => S (size x)) ms)
   <= String.length (Props.join "," (map MT ms)))%nat.
Proof.
  intros Hs H. revert Hs.
  induction H as [|[k x] ms Hx _ IH]; intros Hs; [cbn; lia|].
  cbn [forallb] in Hs. apply andb_true_iff in Hs as [Hsx Hs].
  cbn [snd] in Hx. specialize (Hx Hsx). specialize (IH Hs).
  destruct ms as [|m' ms].
  - cbn [map Props.join]. rewrite list_sum_cons, string_app_length.
    cbn [String.length list_sum fold_right]. lia.
  - cbn [map] in *. rewrite join_two, list_sum_cons.
    rewrite !string_app_length.
    cbn [String.length] in *. lia.
Qed.

Lemma size_stringify v :
  is_structure v = true ->
  (size v <= String.length (stringify v))%nat.
Proof.
  induction v as [s|text|items IH|members IH] using value_induction;
    intros Hs; try discriminate Hs.
  - cbn. lia.
  - cbn [is_structure] in Hs. cbn [size stringify String.length].
    rewrite string_app_length.
    pose proof (members_size members Hs IH). lia.
Qed.

Lemma JSON_parse_stringify v :
  is_structure v = true ->
  JSON_parse (stringify v) = Some (assemble_value v).
Proof.
  intros Hs. unfold JSON_parse.
  pose proof (parse_stringify v Hs (S (String.length (stringify v)))
                EmptyString) as H.
  rewrite string_app_nil_r in H. rewrite H; [reflexivity|].
  pose proof (size_stringify v Hs). lia.
Qed.

(** *** Plain names *)

Lemma plain_eq s : plain s = true <-> squeeze s = s.
Proof. apply String.eqb_eq. Qed.

Lemma collapse_blank_app b s c t :
  is_blank c = false ->
  collapse is_blank b (s ++ String c t)
  = collapse is_blank b s ++ String c (collapse is_blank false t).
Proof.
  intros Hc. revert b. induction s as [|a s IH]; intros b.
  - cbn [append collapse]. now rewrite Hc.
  - cbn [append collapse]. destruct (is_blank a).
    + destruct b; [apply IH|]. cbn [append]. now rewrite IH.
    + cbn [append]. now rewrite IH.
Qed.

Lemma squeeze_join names :
  squeeze (Props.join "/" names) = Props.join "/" (map squeeze names).
Proof.
  induction names as [|p names IH]; [reflexivity|].
  destruct names as [|q names]; [reflexivity|].
  cbn [map] in *. rewrite !join_two. unfold squeeze at 1.
  rewrite collapse_blank_app by reflexivity.
  fold (squeeze p). fold (squeeze (Props.join "/" (q :: names))).
  now rewrite IH.
Qed.

Lemma collapse_replace s : forall b,
  collapse is_blank b (JS.replace_all "\" "/" s)
  = JS.replace_all "\" "/" (collapse is_blank b s).
Proof.
  induction s as [|a s IH]; intros b; [reflexivity|].
  cbn [JS.replace_all]. destruct (Ascii.eqb a "\") eqn:E.
  - apply Ascii.eqb_eq in E. subst a.
    cbn [append collapse]. change (is_blank "/") with false.
    change (is_blank "\") with false. cbv iota.
    cbn [JS.replace_all]. rewrite Ascii.eqb_refl. cbn [append].
    now rewrite IH.
  - cbn [collapse]. destruct (is_blank a) eqn:Ea.
    + destruct b; [apply IH|].
      cbn [JS.replace_all]. change (Ascii.eqb " " "\") with false.
      cbv iota. now rewrite IH.
    + cbn [JS.replace_all]. rewrite E. now rewrite IH.
Qed.

Lemma plain_relative names :
  Forall (fun n => plain n = true) names ->
  plain (relative names) = true.
Proof.
  intros H. apply plain_eq. unfold relative, squeeze.
  rewrite collapse_replace. fold (squeeze (Props.join "/" names)).
  rewrite squeeze_join. f_equal. f_equal.
  induction H as [|n names Hn _ IH]; [reflexivity|].
  cbn [map]. apply plain_eq in Hn. now rewrite Hn, IH.
Qed.

(** *** Tidy structures *)

Lemma distinct_NoDup l : distinct l = true <-> NoDup l.
Proof.
  induction l as [|x l IH].
  - split; [constructor | reflexivity].
  - split.
    + intros H. apply distinct_cons in H as [H1 H2].
      constructor; [exact H1 | now apply IH].
    + intros H. inversion H as [|? ? H1 H2]; subst.
      cbn [distinct]. apply andb_true_iff. split; [|now apply IH].
      apply negb_true_iff.
      destruct (existsb (String.eqb x) l) eqn:E; [|reflexivity].
      apply existsb_exists in E as (y & Hy & Exy).
      apply String.eqb_eq in Exy. subst y. contradiction.
Qed.

Lemma forallb_tidy ms :
  forallb (fun '(k, x) => plain k && tidy x) ms = true <-> Forall OK ms.
Proof.
  induction ms as [|[k x] ms IH]; cbn [forallb].
  - split; [constructor | reflexivity].
  - rewrite !andb_true_iff, IH. split.
    + intros [[H1 H2] H3]. constructor; [now split | exact H3].
    + intros H. inversion H as [|? ? [H1 H2] H3]; subst. auto.
Qed.

Lemma tidy_object ms : tidy (JObject ms) = true <-> TM ms.
Proof.
  cbn [tidy]. rewrite andb_true_iff, distinct_NoDup, forallb_tidy.
  reflexivity.
Qed.

Lemma set_member_tidy k v acc :
  TM acc -> ~ In k (map fst acc) ->
  plain k = true -> tidy v = true ->
  TM (set_member k v acc).
Proof.
  intros [Hn Hf] Hk Hpk Hv.
  pose proof (set_member_perm k v acc Hk) as Hp.
  split.
  - apply (Permutation_NoDup
             (Permutation_sym (Permutation_map fst Hp))).
    cbn [map fst]. now constructor.
  - apply (Permutation_Forall (Permutation_sym Hp)).
    constructor; [now split | exact Hf].
Qed.

Lemma parse_entries_tidy dir files :
  Forall (fun e => forall d s,
              Forall (fun n => plain n = true) d ->
              well_named (snd e) = true ->
              plain_names (snd e) = true ->
              parseStructure d (snd e) = Some s ->
              tidy (JObject s) = true) files ->
  forall acc r,
    Forall (fun n => plain n = true) dir ->
    distinct (map fst files) = true ->
    ~ In "__proto__" (map fst files) ->
    (forall k, In k (map fst files) -> ~ In k (map fst acc)) ->
    forallb (fun '(_, n) => well_named n) files = true ->
    forallb (fun '(file, n) => plain file && plain_names n) files = true ->
    TM acc ->
    parse_entries dir acc files = Some r ->
    TM r.
Proof.
  induction 1 as [|[file n] rest Hn _ IH];
    intros acc r Hdir Hd Hp Hfresh Hw Hpl Hacc Hr.
  - cbn in Hr. now injection Hr as <-.
  - cbn [map fst] in Hd, Hp, Hfresh.
    apply distinct_cons in Hd as [Hnot Hd].
    cbn [forallb] in Hw, Hpl.
    apply andb_true_iff in Hw as [Hwn Hw].
    apply andb_true_iff in Hpl as [Hpf Hpl].
    apply andb_true_iff in Hpf as [Hpfile Hpn].
    assert (Hfile : String.eqb file "__proto__" = false)
      by (apply String.eqb_neq; intros ->; apply Hp; now left).
    assert (Hp' : ~ In "__proto__" (map fst rest))
      by (intros H; apply Hp; now right).
    assert (Hk : ~ In file (map fst acc)) by (apply Hfresh; now left).
    assert (Hnext : forall v k,
               In k (map fst rest) ->
               ~ In k (map fst (assign_member file v acc))).
    { intros v k Hin Hin'. apply assign_member_keys in Hin' as [->|Hin'].
      - now apply Hnot.
      - apply (Hfresh k); [now right | exact Hin']. }
    assert (Hpath : Forall (fun n => plain n = true) (dir ++ [file])%list)
      by (apply Forall_app; split; [exact Hdir | now constructor]).
    assert (Hset : forall v, tidy v = true ->
                             TM (assign_member file v acc)).
    { intros v Hv. unfold assign_member. rewrite Hfile.
      now apply set_member_tidy. }
    cbn [snd] in Hn.
    cbn [parse_entries] in Hr. cbv zeta in Hr.
    destruct n as [ | | |sub].
    + apply (IH _ _ Hdir Hd Hp' (Hnext _) Hw Hpl
               (Hset (JString _) (plain_relative _ Hpath)) Hr).
    + apply (IH _ _ Hdir Hd Hp' (Hnext _) Hw Hpl
               (Hset (JString _) (plain_relative _ Hpath)) Hr).
    + discriminate Hr.
    + destruct (parseStructure (dir ++ [file]) (Dir sub)) as [s|] eqn:Es;
        [|discriminate Hr].
      apply (IH _ _ Hdir Hd Hp' (Hnext _) Hw Hpl
               (Hset (JObject s) (Hn _ _ Hpath Hwn Hpn Es)) Hr).
Qed.

Lemma parseStructure_tidy n : forall d s,
  Forall (fun n => plain n = true) d ->
  well_named n = true ->
  plain_names n = true ->
  parseStructure d n = Some s ->
  tidy (JObject s) = true.
Proof.
  induction n as [ | | |entries IH] using node_induction;
    intros d s Hd Hw Hpl Hs; try discriminate Hs.
  rewrite parseStructure_entries in Hs.
  cbn [well_named] in Hw.
  apply andb_true_iff in Hw as [Hw Hsub].
  apply andb_true_iff in Hw as [Hdist Hp].
  apply negb_true_iff in Hp. apply not_existsb_eqb in Hp.
  cbn [plain_names] in Hpl.
  apply tidy_object.
  apply (parse_entries_tidy d entries IH [] s Hd Hdist Hp); auto.
  split; constructor.
Qed.

Lemma tidy_structure v : tidy v = true -> is_structure v = true.
Proof.
  induction v as [s|text|items IH|members IH] using value_induction;
    intros H; try discriminate H; [reflexivity|].
  apply tidy_object in H as [_ H]. cbn [is_structure].
  induction IH as [|[k x] ms Hx _ IHms]; [reflexivity|].
  inversion H as [|? ? [_ Hk] Hrest]; subst. cbn [forallb snd] in *.
  rewrite (Hx Hk), (IHms Hrest). reflexivity.
Qed.

Lemma tidy_squeeze v : tidy v = true -> squeeze_value v = v.
Proof.
  induction v as [s|text|items IH|members IH] using value_induction;
    intros H; try discriminate H.
  - cbn [tidy] in H. apply plain_eq in H. cbn [squeeze_value]. now rewrite H.
  - apply tidy_object in H as [_ H]. cbn [squeeze_value]. f_equal.
    induction IH as [|[k x] ms Hx _ IHms]; [reflexivity|].
    inversion H as [|? ? [Hk Hv] Hrest]; subst. cbn [map fst snd] in *.
    apply plain_eq in Hk. rewrite Hk, (Hx Hv), (IHms Hrest). reflexivity.
Qed.

(** *** What parsing rebuilds *)

Lemma assemble_from_perm (ms : list (string * value)) : forall acc,
  NoDup (map fst ms) ->
  (forall k, In k (map fst ms) -> ~ In k (map fst acc)) ->
  Permutation (fold_left (fun o '(k, v) => set_member k v o) ms acc)
              (acc ++ ms).
Proof.
  induction ms as [|[k v] ms IH]; intros acc Hn Hfresh.
  - cbn. now rewrite app_nil_r.
  - cbn [fold_left]. cbn [map fst] in Hn, Hfresh.
    inversion Hn as [|? ? Hk Hn']; subst.
    assert (Hacc : ~ In k (map fst acc)) by (apply Hfresh; now left).
    rewrite IH.
    + rewrite (set_member_perm k v acc Hacc). cbn [app].
      apply Permutation_middle.
    + exact Hn'.
    + intros k' Hk' Hin. apply set_member_keys in Hin as [->|Hin].
      * contradiction.
      * apply (Hfresh k'); [now right | exact Hin].
Qed.

Lemma map_fst_AV (ms : list (string * value)) :
  map fst (map AV ms) = map fst ms.
Proof.
  induction ms as [|[k x] ms IH]; [reflexivity|].
  cbn [map fst]. now rewrite IH.
Qed.

Lemma tidy_leaves v :
  tidy v = true -> Permutation (leaves (assemble_value v)) (leaves v).
Proof.
  induction v as [s|text|items IH|members IH] using value_induction;
    intros H; try discriminate H; [apply Permutation_refl|].
  apply tidy_object in H as [Hn H].
  cbn [assemble_value leaves]. unfold assemble_members.
  rewrite (Permutation_flat_map _
             (assemble_from_perm (map AV members) []
                ltac:(now rewrite map_fst_AV)
                ltac:(intros ? ? [])));
    cbn [app].
  clear Hn. induction IH as [|[k x] ms Hx _ IHms]; [apply Permutation_refl|].
  inversion H as [|? ? [_ Hv] Hrest]; subst. cbn [map flat_map snd] in *.
  apply Permutation_app; [apply (Hx Hv) | apply (IHms Hrest)].
Qed.

End ReadBack.

(** X19: from scanning to selecting.  For a project whose names, below
    the entries the full scan keeps, are distinct within each directory,
    never [__proto__], and free of doubled blanks and no-break spaces, the
    text [buildStructureJSON] writes is read back by [minifyCode], and the
    paths [getFilePaths] then offers are the relative paths of all the
    items under the kept entries that are not directories, each once. *)
Theorem structure_file_lists_the_scanned_files :
  forall items text,
    Structure.well_named (Structure.Dir (Structure.kept items)) = true ->
    Written.plain_names (Structure.Dir (Structure.kept items)) = true ->
    Written.buildStructureJSON_scanAll items = Some text ->
    exists paths,
      Written.filePaths text = Some paths
      /\ Permutation paths
           (map Structure.relative
                (Structure.files_below []
                   (Structure.Dir (Structure.kept items)))).
Proof.
  intros items text Hw Hp Ht.
  unfold Written.buildStructureJSON_scanAll in Ht.
  destruct (Structure.scanAll items) as [s|] eqn:E; [|discriminate Ht].
  assert (Heq : text
                = Minify.minify (Written.stringify (Json.JObject s)))
    by (symmetry; now injection Ht).
  rewrite Heq. clear Ht Heq.
  unfold Structure.scanAll in E. rewrite scanAll_from_kept in E.
  rewrite <- parseStructure_entries in E.
  pose proof (parseStructure_tidy _ _ _ (Forall_nil _) Hw Hp E) as Htidy.
  pose proof (tidy_structure _ Htidy) as Hs.
  rewrite (minify_stringify_value _ Hs), (tidy_squeeze _ Htidy).
  unfold Written.filePaths. rewrite (JSON_parse_stringify _ Hs).
  eexists. split; [reflexivity|].
  cbn [Written.assemble_value].
  rewrite getFilePaths_object_leaves.
  change (Json.JObject
            (Written.assemble_members
               (map (fun '(k, x) => (k, Written.assemble_value x)) s)))
    with (Written.assemble_value (Json.JObject s)).
  rewrite (tidy_leaves _ Htidy).
  apply (parseStructure_files _ _ _ Hw E).
Qed.

(** X19 on the example project. *)
Lemma structure_file_lists_the_scanned_files_witness :
  exists text paths,
    Written.buildStructureJSON_scanAll Structure.project = Some text
    /\ Written.filePaths text = Some paths
    /\ Permutation paths
         ["src/main.js"; "src/10"; "src/2"; "src/lib/a b.js";
          "src/lib/sock"; "README.md"].
Proof.
  eexists.
  destruct (structure_file_lists_the_scanned_files Structure.project _
              eq_refl eq_refl eq_refl) as [paths [H1 H2]].
  exists paths. split; [reflexivity|]. split; [exact H1 | exact H2].
Defined.

(** ** The first segment of a listed path *)

Section FirstSegment.
Import Json Paths Structure Selection.







End FirstSegment.


